(** * A shallow embedding of the CHIP-8 interpreter of chip8-c

    The repository holds one interpreter twice: [chip8_t_emulate_cycle] in
    [main.c] and [Chip8::executeCycle] in [main.cc].  The two bodies agree
    statement by statement (the C++ body additionally prints [V[x]] in the
    [Cxkk] branch, which is not modelled).  The embedding follows the C++
    class, whose fields are separate objects.  In [main.c] the same fields
    are laid over the first bytes of [memory] through a union; that
    aliasing is embedded for the [Dxyn] branch alone, in the layout the
    usual compilers give the union, to tell when a sprite drawn twice
    gives the display back (C5).  The other branches are embedded without
    it.

    Around the interpreter, [Chip8::reset], [Chip8::loadROMFromPath] and
    the emulation loop of [main] are embedded as far as they are C: the key
    map, the events, the pixel buffer.  The calls into SDL and into the
    file system stay outside; what they return (the content of the ROM
    file, the queued events) is a parameter.

    Integers are [Z] with the wrap-around of their C type written out
    ([u8], [u16]); arrays are lists read with stdpp's [!!] and written with
    [<[_:=_]>]; an access outside an array is undefined behaviour in C and
    is [None] here. *)

From Stdlib Require Import ZArith Lia Bool List.
From stdpp Require Import base option list.

Local Open Scope Z_scope.

(** ** Machine integers *)

Definition u8 (z : Z) : Z := z mod 256.
Definition u16 (z : Z) : Z := z mod 65536.

Definition is_u8 (z : Z) : Prop := 0 <= z < 256.
Definition is_u16 (z : Z) : Prop := 0 <= z < 65536.

(** C truth value of a comparison. *)
Definition b2z (b : bool) : Z := if b then 1 else 0.

(** ** Machine state: the data members of [class Chip8] *)

Record Chip8 : Type := mkChip8 {
  V : list Z;        (* uint8_t V[16] *)
  DT : Z;            (* uint8_t DT *)
  ST : Z;            (* uint8_t ST *)
  SP : Z;            (* uint8_t SP *)
  I : Z;             (* uint16_t I *)
  stack : list Z;    (* uint16_t stack[16] *)
  keys : list bool;  (* bool keys[16] *)
  memory : list Z;   (* uint8_t memory[4096] *)
  PC : Z;            (* uint16_t PC *)
  display : list Z;  (* uint8_t display[32 * 64 / 8] *)
  draw : bool        (* bool draw *)
}.

Definition set_V (v : list Z) (s : Chip8) : Chip8 :=
  mkChip8 v (DT s) (ST s) (SP s) (I s) (stack s) (keys s) (memory s) (PC s)
          (display s) (draw s).
Definition set_DT (z : Z) (s : Chip8) : Chip8 :=
  mkChip8 (V s) z (ST s) (SP s) (I s) (stack s) (keys s) (memory s) (PC s)
          (display s) (draw s).
Definition set_ST (z : Z) (s : Chip8) : Chip8 :=
  mkChip8 (V s) (DT s) z (SP s) (I s) (stack s) (keys s) (memory s) (PC s)
          (display s) (draw s).
Definition set_SP (z : Z) (s : Chip8) : Chip8 :=
  mkChip8 (V s) (DT s) (ST s) z (I s) (stack s) (keys s) (memory s) (PC s)
          (display s) (draw s).
Definition set_I (z : Z) (s : Chip8) : Chip8 :=
  mkChip8 (V s) (DT s) (ST s) (SP s) z (stack s) (keys s) (memory s) (PC s)
          (display s) (draw s).
Definition set_stack (l : list Z) (s : Chip8) : Chip8 :=
  mkChip8 (V s) (DT s) (ST s) (SP s) (I s) l (keys s) (memory s) (PC s)
          (display s) (draw s).
Definition set_memory (l : list Z) (s : Chip8) : Chip8 :=
  mkChip8 (V s) (DT s) (ST s) (SP s) (I s) (stack s) (keys s) l (PC s)
          (display s) (draw s).
Definition set_PC (z : Z) (s : Chip8) : Chip8 :=
  mkChip8 (V s) (DT s) (ST s) (SP s) (I s) (stack s) (keys s) (memory s) z
          (display s) (draw s).
Definition set_display (l : list Z) (s : Chip8) : Chip8 :=
  mkChip8 (V s) (DT s) (ST s) (SP s) (I s) (stack s) (keys s) (memory s) (PC s)
          l (draw s).
Definition set_draw (b : bool) (s : Chip8) : Chip8 :=
  mkChip8 (V s) (DT s) (ST s) (SP s) (I s) (stack s) (keys s) (memory s) (PC s)
          (display s) b.

(** The invariant the C types give: array sizes and value ranges. *)
Definition all_u8 (l : list Z) : Prop := Forall is_u8 l.
Definition all_u16 (l : list Z) : Prop := Forall is_u16 l.

Record wf (s : Chip8) : Prop := mk_wf {
  wf_V_len : Z.of_nat (length (V s)) = 16;
  wf_V : all_u8 (V s);
  wf_DT : is_u8 (DT s);
  wf_ST : is_u8 (ST s);
  wf_SP : is_u8 (SP s);
  wf_I : is_u16 (I s);
  wf_stack_len : Z.of_nat (length (stack s)) = 16;
  wf_stack : all_u16 (stack s);
  wf_keys_len : Z.of_nat (length (keys s)) = 16;
  wf_memory_len : Z.of_nat (length (memory s)) = 4096;
  wf_memory : all_u8 (memory s);
  wf_PC : is_u16 (PC s);
  wf_display_len : Z.of_nat (length (display s)) = 256;
  wf_display : all_u8 (display s)
}.

(** ** Array accesses

    An index is a non-negative [Z]; a read or a write past the end of the
    array is [None]. *)

Definition rd {A : Type} (l : list A) (i : Z) : option A :=
  if decide (0 <= i) then l !! Z.to_nat i else None.

Definition wr {A : Type} (l : list A) (i : Z) (a : A) : option (list A) :=
  if decide (0 <= i < Z.of_nat (length l))
  then Some (<[Z.to_nat i := a]> l)
  else None.

(** [memcpy(dst + off, src, cnt)] inside [dst], [cnt] elements of [src]. *)
Definition memcpy_into (dst : list Z) (off : Z) (src : list Z) (cnt : Z)
  : option (list Z) :=
  if decide (0 <= off /\ off + cnt <= Z.of_nat (length dst)
             /\ cnt <= Z.of_nat (length src))
  then Some (list_inserts (Z.to_nat off) (take (Z.to_nat cnt) src) dst)
  else None.

(** [memcpy(dst, src + off, cnt)]. *)
Definition memcpy_from (dst : list Z) (src : list Z) (off : Z) (cnt : Z)
  : option (list Z) :=
  if decide (0 <= off /\ off + cnt <= Z.of_nat (length src)
             /\ cnt <= Z.of_nat (length dst))
  then Some (take (Z.to_nat cnt) (drop (Z.to_nat off) src)
             ++ drop (Z.to_nat cnt) dst)
  else None.

(** ** Fetch and decode *)

(** [instruction = (memory[PC] << 8) | memory[PC + 1]] *)
Definition fetch (s : Chip8) : option Z :=
  hi ← rd (memory s) (PC s);
  lo ← rd (memory s) (PC s + 1);
  Some (u16 (Z.lor (Z.shiftl hi 8) lo)).

Definition op_of (w : Z) : Z := u8 (Z.shiftr (Z.land w 0xF000) 12).
Definition x_of (w : Z) : Z := u8 (Z.shiftr (Z.land w 0x0F00) 8).
Definition y_of (w : Z) : Z := u8 (Z.shiftr (Z.land w 0x00F0) 4).
Definition nnn_of (w : Z) : Z := u16 (Z.land w 0x0FFF).
Definition kk_of (w : Z) : Z := u8 (Z.land w 0x00FF).
Definition n_of (w : Z) : Z := u8 (Z.land w 0x000F).

#[global] Arguments u8 : simpl never.
#[global] Arguments u16 : simpl never.
#[global] Arguments op_of : simpl never.
#[global] Arguments x_of : simpl never.
#[global] Arguments y_of : simpl never.
#[global] Arguments nnn_of : simpl never.
#[global] Arguments kk_of : simpl never.
#[global] Arguments n_of : simpl never.

(** ** Small steps shared by the branches *)

(** [PC += k] *)
Definition advance (k : Z) (s : Chip8) : Chip8 := set_PC (u16 (PC s + k)) s.

(** [V[i] = z], [i] a register index *)
Definition put_V (i z : Z) (s : Chip8) : option Chip8 :=
  v ← wr (V s) i z; Some (set_V v s).

(** A bounded [for (i = from; i < from + k; i++)] threading a loop state. *)
Fixpoint for_loop {St : Type} (k : nat) (i : Z) (body : Z -> St -> option St)
  (s : St) : option St :=
  match k with
  | O => Some s
  | S k' => s' ← body i s; for_loop k' (i + 1) body s'
  end.

(** ** The branches of [executeCycle] *)

(** How control leaves the dispatch: it reaches the timer update at the end
    of the function, or it left through the [return;] of the [Fx0A] branch. *)
Inductive outcome : Type :=
| Fallthrough (s : Chip8)
| Returned (s : Chip8).

(** 00E0 - CLS *)
Definition exec_cls (s : Chip8) : option Chip8 :=
  Some (advance 2 (set_draw true (set_display (replicate 256 0) s))).

(** 00EE - RET: [SP--; PC = stack[SP]; PC += 2;] *)
Definition exec_ret (s : Chip8) : option Chip8 :=
  let s1 := set_SP (u8 (SP s - 1)) s in
  a ← rd (stack s1) (SP s1);
  Some (advance 2 (set_PC a s1)).

(** 1nnn - JP addr *)
Definition exec_jp (nnn : Z) (s : Chip8) : option Chip8 :=
  Some (set_PC nnn s).

(** 2nnn - CALL addr: [stack[SP] = PC; SP++; PC = nnn;] *)
Definition exec_call (nnn : Z) (s : Chip8) : option Chip8 :=
  st ← wr (stack s) (SP s) (PC s);
  let s1 := set_stack st s in
  let s2 := set_SP (u8 (SP s1 + 1)) s1 in
  Some (set_PC nnn s2).

(** 3xkk - SE Vx, byte *)
Definition exec_se_byte (x kk : Z) (s : Chip8) : option Chip8 :=
  vx ← rd (V s) x;
  Some (advance (if vx =? kk then 4 else 2) s).

(** 4xkk - SNE Vx, byte *)
Definition exec_sne_byte (x kk : Z) (s : Chip8) : option Chip8 :=
  vx ← rd (V s) x;
  Some (advance (if negb (vx =? kk) then 4 else 2) s).

(** 5xy0 - SE Vx, Vy *)
Definition exec_se_reg (x y : Z) (s : Chip8) : option Chip8 :=
  vx ← rd (V s) x;
  vy ← rd (V s) y;
  Some (advance (if vx =? vy then 4 else 2) s).

(** 6xkk - LD Vx, byte *)
Definition exec_ld_byte (x kk : Z) (s : Chip8) : option Chip8 :=
  s1 ← put_V x kk s;
  Some (advance 2 s1).

(** 7xkk - ADD Vx, byte: [V[x] += kk;] *)
Definition exec_add_byte (x kk : Z) (s : Chip8) : option Chip8 :=
  vx ← rd (V s) x;
  s1 ← put_V x (u8 (vx + kk)) s;
  Some (advance 2 s1).

(** 8xy0 - LD Vx, Vy *)
Definition exec_ld_reg (x y : Z) (s : Chip8) : option Chip8 :=
  vy ← rd (V s) y;
  s1 ← put_V x vy s;
  Some (advance 2 s1).

(** 8xy1, 8xy2, 8xy3 - OR, AND, XOR: [V[x] op= V[y];] *)
Definition exec_bitop (f : Z -> Z -> Z) (x y : Z) (s : Chip8) : option Chip8 :=
  vx ← rd (V s) x;
  vy ← rd (V s) y;
  s1 ← put_V x (u8 (f vx vy)) s;
  Some (advance 2 s1).

(** 8xy4 - ADD Vx, Vy:
    [V[0xF] = (V[x] + V[y] > 255) ? 1 : 0; V[x] += V[y]; PC += 2;]
    The second statement reads the registers again, after the flag write. *)
Definition exec_add_reg (x y : Z) (s : Chip8) : option Chip8 :=
  vx ← rd (V s) x;
  vy ← rd (V s) y;
  s1 ← put_V 0xF (b2z (255 <? vx + vy)) s;
  vx1 ← rd (V s1) x;
  vy1 ← rd (V s1) y;
  s2 ← put_V x (u8 (vx1 + vy1)) s1;
  Some (advance 2 s2).

(** 8xy5 - SUB Vx, Vy:
    [V[0xF] = (V[x] > V[y]) ? 1 : 0; V[x] -= V[y]; PC += 2;] *)
Definition exec_sub_reg (x y : Z) (s : Chip8) : option Chip8 :=
  vx ← rd (V s) x;
  vy ← rd (V s) y;
  s1 ← put_V 0xF (b2z (vy <? vx)) s;
  vx1 ← rd (V s1) x;
  vy1 ← rd (V s1) y;
  s2 ← put_V x (u8 (vx1 - vy1)) s1;
  Some (advance 2 s2).

(** 8xy6 - SHR Vx: [V[0xF] = V[x] & 1; V[x] >>= 1; PC += 2;] *)
Definition exec_shr (x : Z) (s : Chip8) : option Chip8 :=
  vx ← rd (V s) x;
  s1 ← put_V 0xF (u8 (Z.land vx 1)) s;
  vx1 ← rd (V s1) x;
  s2 ← put_V x (u8 (Z.shiftr vx1 1)) s1;
  Some (advance 2 s2).

(** 8xy7 - SUBN Vx, Vy:
    [V[0xF] = (V[y] > V[x]) ? 1 : 0; V[x] = V[y] - V[x]; PC += 2;] *)
Definition exec_subn_reg (x y : Z) (s : Chip8) : option Chip8 :=
  vx ← rd (V s) x;
  vy ← rd (V s) y;
  s1 ← put_V 0xF (b2z (vx <? vy)) s;
  vx1 ← rd (V s1) x;
  vy1 ← rd (V s1) y;
  s2 ← put_V x (u8 (vy1 - vx1)) s1;
  Some (advance 2 s2).

(** 8xyE - SHL Vx: [V[0xF] = V[x] >> 7; V[x] <<= 1; PC += 2;] *)
Definition exec_shl (x : Z) (s : Chip8) : option Chip8 :=
  vx ← rd (V s) x;
  s1 ← put_V 0xF (u8 (Z.shiftr vx 7)) s;
  vx1 ← rd (V s1) x;
  s2 ← put_V x (u8 (Z.shiftl vx1 1)) s1;
  Some (advance 2 s2).

(** 9xy0 - SNE Vx, Vy *)
Definition exec_sne_reg (x y : Z) (s : Chip8) : option Chip8 :=
  vx ← rd (V s) x;
  vy ← rd (V s) y;
  Some (advance (if negb (vx =? vy) then 4 else 2) s).

(** Annn - LD I, addr *)
Definition exec_ld_i (nnn : Z) (s : Chip8) : option Chip8 :=
  Some (advance 2 (set_I nnn s)).

(** Bnnn - JP V0, addr: [PC = nnn + V[0];] *)
Definition exec_jp_v0 (nnn : Z) (s : Chip8) : option Chip8 :=
  v0 ← rd (V s) 0;
  Some (set_PC (u16 (nnn + v0)) s).

(** Cxkk - RND Vx, byte: [V[x] = ((rand() % 256) & kk);]
    [rnd] is the value [rand()] returns, a non-negative [int]. *)
Definition exec_rnd (rnd x kk : Z) (s : Chip8) : option Chip8 :=
  s1 ← put_V x (u8 (Z.land (rnd mod 256) kk)) s;
  Some (advance 2 s1).

(** Dxyn - DRW Vx, Vy, nibble: the body of the inner loop, one sprite bit.
    [originalPxVal] and [newPxVal] are [uint8_t] in [main.c] and [bool] in
    [main.cc]; both hold 0 or 1, so the two declarations agree. *)
Definition draw_pixel (nthByte pxRow startCol offsetCol : Z) (s : Chip8)
  : option Chip8 :=
  let byteShamt := 7 - offsetCol in
  let bytePxVal := Z.shiftr (Z.land nthByte (Z.shiftl 1 byteShamt)) byteShamt in
  let pxCol := (startCol + offsetCol) mod 64 in
  let bitIndex := pxRow * 64 + pxCol in
  let byteIndex := bitIndex / 8 in
  let dispShamt := 7 - bitIndex mod 8 in
  d ← rd (display s) byteIndex;
  let originalPxVal := u8 (Z.shiftr (Z.land d (Z.shiftl 1 dispShamt)) dispShamt) in
  let newPxVal := u8 (Z.lxor originalPxVal bytePxVal) in
  disp ← wr (display s) byteIndex (u8 (Z.lxor d (Z.shiftl bytePxVal dispShamt)));
  let s1 := set_display disp s in
  vf ← rd (V s1) 0xF;
  put_V 0xF
    (u8 (Z.lor vf (b2z (negb (originalPxVal =? 0) && (newPxVal =? 0))))) s1.

(** The body of the outer loop, one sprite row.  The sprite byte is read
    from [memory], an array of its own in [main.cc], which the draw does
    not write.  In [main.c] the display and [V] lie inside [memory] and the
    byte can be one the draw has written: [c_draw_row] below. *)
Definition draw_row (startRow startCol offsetRow : Z) (s : Chip8)
  : option Chip8 :=
  nthByte ← rd (memory s) (I s + offsetRow);
  let pxRow := (startRow + offsetRow) mod 32 in
  for_loop 8 0 (draw_pixel nthByte pxRow startCol) s.

(** The branch: [V[0xF] = 0;] comes first, the start coordinates are read
    after it. *)
Definition exec_drw (x y n : Z) (s : Chip8) : option Chip8 :=
  s0 ← put_V 0xF 0 s;
  startCol ← rd (V s0) x;
  startRow ← rd (V s0) y;
  s1 ← for_loop (Z.to_nat n) 0 (draw_row startRow startCol) s0;
  Some (advance 2 (set_draw true s1)).

(** Ex9E - SKP Vx: [PC += keys[V[x]] ? 4 : 2;] *)
Definition exec_skp (x : Z) (s : Chip8) : option Chip8 :=
  vx ← rd (V s) x;
  k ← rd (keys s) vx;
  Some (advance (if k : bool then 4 else 2) s).

(** ExA1 - SKNP Vx *)
Definition exec_sknp (x : Z) (s : Chip8) : option Chip8 :=
  vx ← rd (V s) x;
  k ← rd (keys s) vx;
  Some (advance (if negb k then 4 else 2) s).

(** Fx07 - LD Vx, DT *)
Definition exec_ld_vx_dt (x : Z) (s : Chip8) : option Chip8 :=
  s1 ← put_V x (DT s) s;
  Some (advance 2 s1).

(** Fx0A - LD Vx, K: the body of the scan loop,
    [keyPressed = keyPressed || keys[i]; V[x] = keyPressed ? i : V[x];] *)
Definition key_scan (x i : Z) (st : bool * Chip8) : option (bool * Chip8) :=
  k ← rd (keys st.2) i;
  let keyPressed := st.1 || k in
  vx ← rd (V st.2) x;
  s1 ← put_V x (u8 (if keyPressed then i else vx)) st.2;
  Some (keyPressed, s1).

(** The branch; without a key it leaves through [return;]. *)
Definition exec_ld_vx_k (x : Z) (s : Chip8) : option outcome :=
  st ← for_loop 16 0 (key_scan x) (false, s);
  if negb st.1 then Some (Returned st.2)
  else Some (Fallthrough (advance 2 st.2)).

(** Fx15 - LD DT, Vx *)
Definition exec_ld_dt_vx (x : Z) (s : Chip8) : option Chip8 :=
  vx ← rd (V s) x;
  Some (advance 2 (set_DT vx s)).

(** Fx18 - LD ST, Vx *)
Definition exec_ld_st_vx (x : Z) (s : Chip8) : option Chip8 :=
  vx ← rd (V s) x;
  Some (advance 2 (set_ST vx s)).

(** Fx1E - ADD I, Vx:
    [V[0xF] = (I + V[x]) > 0xFFF; I += V[x]; PC += 2;]
    The second statement reads [V[x]] again, after the flag write. *)
Definition exec_add_i (x : Z) (s : Chip8) : option Chip8 :=
  vx ← rd (V s) x;
  s1 ← put_V 0xF (b2z (0xFFF <? I s + vx)) s;
  vx1 ← rd (V s1) x;
  Some (advance 2 (set_I (u16 (I s1 + vx1)) s1)).

(** Fx29 - LD F, Vx: [I = 5 * V[x];] *)
Definition exec_ld_f (x : Z) (s : Chip8) : option Chip8 :=
  vx ← rd (V s) x;
  Some (advance 2 (set_I (u16 (5 * vx)) s)).

(** Fx33 - LD B, Vx *)
Definition exec_ld_b (x : Z) (s : Chip8) : option Chip8 :=
  vx ← rd (V s) x;
  m1 ← wr (memory s) (I s) (u8 (vx / 100));
  m2 ← wr m1 (I s + 1) (u8 ((vx / 10) mod 10));
  m3 ← wr m2 (I s + 2) (u8 (vx mod 10));
  Some (advance 2 (set_memory m3 s)).

(** Fx55 - LD [I], Vx: [memcpy(memory + I, V, x + 1); I += x + 1;] *)
Definition exec_ld_mem_v (x : Z) (s : Chip8) : option Chip8 :=
  m ← memcpy_into (memory s) (I s) (V s) (x + 1);
  Some (advance 2 (set_I (u16 (I s + (x + 1))) (set_memory m s))).

(** Fx65 - LD Vx, [I]: [memcpy(V, memory + I, x + 1); I += x + 1;] *)
Definition exec_ld_v_mem (x : Z) (s : Chip8) : option Chip8 :=
  v ← memcpy_from (V s) (memory s) (I s) (x + 1);
  Some (advance 2 (set_I (u16 (I s + (x + 1))) (set_V v s))).

(** ** Dispatch: the [if]/[else if] chain on [op], refined by [n] or [kk] *)

(** A branch that runs to the end of the chain. *)
Definition thru (r : option Chip8) : option outcome := Fallthrough <$> r.

Definition exec (rnd w : Z) (s : Chip8) : option outcome :=
  let op := op_of w in
  let x := x_of w in
  let y := y_of w in
  let nnn := nnn_of w in
  let kk := kk_of w in
  let n := n_of w in
  if op =? 0 then
    if n =? 0x0 then thru (exec_cls s)
    else if n =? 0xE then thru (exec_ret s)
    else Some (Fallthrough s)
  else if op =? 0x1 then thru (exec_jp nnn s)
  else if op =? 0x2 then thru (exec_call nnn s)
  else if op =? 0x3 then thru (exec_se_byte x kk s)
  else if op =? 0x4 then thru (exec_sne_byte x kk s)
  else if op =? 0x5 then thru (exec_se_reg x y s)
  else if op =? 0x6 then thru (exec_ld_byte x kk s)
  else if op =? 0x7 then thru (exec_add_byte x kk s)
  else if op =? 0x8 then
    if n =? 0x0 then thru (exec_ld_reg x y s)
    else if n =? 0x1 then thru (exec_bitop Z.lor x y s)
    else if n =? 0x2 then thru (exec_bitop Z.land x y s)
    else if n =? 0x3 then thru (exec_bitop Z.lxor x y s)
    else if n =? 0x4 then thru (exec_add_reg x y s)
    else if n =? 0x5 then thru (exec_sub_reg x y s)
    else if n =? 0x6 then thru (exec_shr x s)
    else if n =? 0x7 then thru (exec_subn_reg x y s)
    else if n =? 0xE then thru (exec_shl x s)
    else Some (Fallthrough s)
  else if op =? 0x9 then thru (exec_sne_reg x y s)
  else if op =? 0xA then thru (exec_ld_i nnn s)
  else if op =? 0xB then thru (exec_jp_v0 nnn s)
  else if op =? 0xC then thru (exec_rnd rnd x kk s)
  else if op =? 0xD then thru (exec_drw x y n s)
  else if op =? 0xE then
    if kk =? 0x9E then thru (exec_skp x s)
    else if kk =? 0xA1 then thru (exec_sknp x s)
    else Some (Fallthrough s)
  else if op =? 0xF then
    if kk =? 0x07 then thru (exec_ld_vx_dt x s)
    else if kk =? 0x0A then exec_ld_vx_k x s
    else if kk =? 0x15 then thru (exec_ld_dt_vx x s)
    else if kk =? 0x18 then thru (exec_ld_st_vx x s)
    else if kk =? 0x1E then thru (exec_add_i x s)
    else if kk =? 0x29 then thru (exec_ld_f x s)
    else if kk =? 0x33 then thru (exec_ld_b x s)
    else if kk =? 0x55 then thru (exec_ld_mem_v x s)
    else if kk =? 0x65 then thru (exec_ld_v_mem x s)
    else Some (Fallthrough s)
  else Some (Fallthrough s).

(** [// update timers] at the end of the function. *)
Definition update_timers (s : Chip8) : Chip8 :=
  let s1 := if 0 <? DT s then set_DT (u8 (DT s - 1)) s else s in
  if 0 <? ST s1 then set_ST (u8 (ST s1 - 1)) s1 else s1.

Definition finish (o : outcome) : Chip8 :=
  match o with
  | Fallthrough s => update_timers s
  | Returned s => s
  end.

(** One call of [Chip8::executeCycle] ([chip8_t_emulate_cycle] in [main.c]),
    the [step()] of the specification: fetch, dispatch, timer update. *)
Definition executeCycle (rnd : Z) (s : Chip8) : option Chip8 :=
  w ← fetch s;
  o ← exec rnd w s;
  Some (finish o).

(** ** Initial state: [Chip8::reset] *)

Definition BUILTIN_SPRITES : list Z :=
  [ 0xF0; 0x90; 0x90; 0x90; 0xF0;
    0x20; 0x60; 0x20; 0x20; 0x70;
    0xF0; 0x10; 0xF0; 0x80; 0xF0;
    0xF0; 0x10; 0xF0; 0x10; 0xF0;
    0x90; 0x90; 0xF0; 0x10; 0x10;
    0xF0; 0x80; 0xF0; 0x10; 0xF0;
    0xF0; 0x80; 0xF0; 0x90; 0xF0;
    0xF0; 0x10; 0x20; 0x40; 0x40;
    0xF0; 0x90; 0xF0; 0x90; 0xF0;
    0xF0; 0x90; 0xF0; 0x10; 0xF0;
    0xF0; 0x90; 0xF0; 0x90; 0x90;
    0xE0; 0x90; 0xE0; 0x90; 0xE0;
    0xF0; 0x80; 0x80; 0x80; 0xF0;
    0xE0; 0x90; 0x90; 0x90; 0xE0;
    0xF0; 0x80; 0xF0; 0x80; 0xF0;
    0xF0; 0x80; 0xF0; 0x80; 0x80 ].

Definition PROGRAM_START : Z := 0x200.

(** The state [reset()] leaves; [draw] is not assigned there and is taken
    as [false]. *)
Definition reset : Chip8 :=
  {| V := replicate 16 0; DT := 0; ST := 0; SP := 0; I := 0;
     stack := replicate 16 0; keys := replicate 16 false;
     memory := BUILTIN_SPRITES ++ replicate (4096 - 80) 0;
     PC := PROGRAM_START; display := replicate 256 0; draw := false |}.

(** [reset()] followed by a ROM image copied to [PROGRAM_START]. *)
Definition load (rom : list Z) : Chip8 :=
  set_memory (list_inserts (Z.to_nat PROGRAM_START) rom (memory reset)) reset.

(** ** Loading a program: [Chip8::loadROMFromPath] *)

Definition set_keys (k : list bool) (s : Chip8) : Chip8 :=
  mkChip8 (V s) (DT s) (ST s) (SP s) (I s) (stack s) k (memory s) (PC s)
          (display s) (draw s).

(** [reset()], statement by statement, on the object it is called on.  The
    arrays have the sizes of their declarations, so each [memset] and the
    loop over [keys] leave a constant array; [draw] is not assigned. *)
Definition Chip8_reset (s : Chip8) : Chip8 :=
  let s := set_memory (replicate 4096 0) s in
  let s :=
    set_memory (list_inserts 0 (take 80 BUILTIN_SPRITES) (memory s)) s in
  let s := set_V (replicate 16 0) s in
  let s := set_DT 0 s in
  let s := set_ST 0 s in
  let s := set_SP 0 s in
  let s := set_keys (replicate 16 false) s in
  let s := set_PC PROGRAM_START s in
  let s := set_I 0 s in
  let s := set_stack (replicate 16 0) s in
  set_display (replicate 256 0) s.

(** [loadROMFromPath(path)]: [rom] is the content of the file at [path],
    which opens and is read in full (the two [assert]s hold), [romSz] its
    length; [fread] stores [romSz] bytes from [memory + PROGRAM_START] on,
    past the end of [memory] when the file is longer than the room left. *)
Definition loadROMFromPath (rom : list Z) (s : Chip8) : option Chip8 :=
  let s0 := Chip8_reset s in
  let romSz := Z.of_nat (length rom) in
  m ← memcpy_into (memory s0) PROGRAM_START rom romSz;
  Some (set_memory m s0).

(** ** The emulation loop of [main] *)

(** The key codes [main] names; SDL gives a printable key the code of its
    character ([SDL_keycode.h]), and [F1] its scancode with bit 30 set. *)
Definition SDLK_ESCAPE : Z := 27.
Definition SDLK_1 : Z := 49.
Definition SDLK_2 : Z := 50.
Definition SDLK_3 : Z := 51.
Definition SDLK_4 : Z := 52.
Definition SDLK_a : Z := 97.
Definition SDLK_c : Z := 99.
Definition SDLK_d : Z := 100.
Definition SDLK_e : Z := 101.
Definition SDLK_f : Z := 102.
Definition SDLK_q : Z := 113.
Definition SDLK_r : Z := 114.
Definition SDLK_s : Z := 115.
Definition SDLK_v : Z := 118.
Definition SDLK_w : Z := 119.
Definition SDLK_x : Z := 120.
Definition SDLK_z : Z := 122.
Definition SDLK_F1 : Z := 0x4000003A.

(** [uint8_t keymap[16]] *)
Definition keymap : list Z :=
  u8 <$> [ SDLK_x; SDLK_1; SDLK_2; SDLK_3;
           SDLK_q; SDLK_w; SDLK_e; SDLK_a;
           SDLK_s; SDLK_d; SDLK_z; SDLK_c;
           SDLK_4; SDLK_r; SDLK_f; SDLK_v ].

(** The events the loop tells apart; [sym] is [e.key.keysym.sym]. *)
Inductive SDL_Event : Type :=
| SDL_QUIT
| SDL_KEYDOWN (sym : Z)
| SDL_KEYUP (sym : Z)
| SDL_OTHER.

(** Whether the program goes on or has left through [exit(0)]. *)
Inductive host (A : Type) : Type :=
| Exited
| Running (a : A).
#[global] Arguments Exited {A}.
#[global] Arguments Running {A} a.

(** [for (i = 0; i < 16; ++i) if (sym == keymap[i]) c8.keys[i] = v;]
    with [v = 1] on a key press and [v = 0] on a release. *)
Definition keymap_body (v : bool) (sym : Z) (i : Z) (s : Chip8)
  : option Chip8 :=
  k ← rd keymap i;
  if sym =? k then ks ← wr (keys s) i v; Some (set_keys ks s)
  else Some s.

Definition keymap_loop (v : bool) (sym : Z) (s : Chip8) : option Chip8 :=
  for_loop 16 0 (keymap_body v sym) s.

(** The body of [while (SDL_PollEvent(&e))]; [rom] is the content of the
    file [argv[1]] names. *)
Definition handle_event (rom : list Z) (e : SDL_Event) (s : Chip8)
  : option (host Chip8) :=
  match e with
  | SDL_QUIT => Some Exited
  | SDL_KEYDOWN sym =>
      if sym =? SDLK_ESCAPE then Some Exited
      else
        s1 ← (if sym =? SDLK_F1 then loadROMFromPath rom s else Some s);
        Running <$> keymap_loop true sym s1
  | SDL_KEYUP sym => Running <$> keymap_loop false sym s
  | SDL_OTHER => Some (Running s)
  end.

(** The events queued when the loop polls, in order. *)
Fixpoint poll_events (rom : list Z) (es : list SDL_Event) (s : Chip8)
  : option (host Chip8) :=
  match es with
  | [] => Some (Running s)
  | e :: es' =>
      h ← handle_event rom e s;
      match h with
      | Exited => Some Exited
      | Running s' => poll_events rom es' s'
      end
  end.

(** One entry of the pixel buffer:
    [on = (display[byteIndex] & (1 << byteShamt)) >> byteShamt;
     pixels[i] = on ? 0x00FFFFFF : 0xFF000000;] *)
Definition render_pixel (d : list Z) (i : Z) (pixels : list Z)
  : option (list Z) :=
  let byteIndex := i / 8 in
  let byteShamt := 7 - i mod 8 in
  b ← rd d byteIndex;
  let on := Z.shiftr (Z.land b (Z.shiftl 1 byteShamt)) byteShamt in
  wr pixels i (if on =? 0 then 0xFF000000 else 0x00FFFFFF).

(** [if (c8.draw) { c8.draw = false; for (i ...) ...; }]: the state and the
    pixel buffer handed to [SDL_UpdateTexture]. *)
Definition present (s : Chip8) (pixels : list Z) : option (Chip8 * list Z) :=
  if draw s then
    let s1 := set_draw false s in
    px ← for_loop (Z.to_nat (32 * 64)) 0 (render_pixel (display s1)) pixels;
    Some (s1, px)
  else Some (s, pixels).

(** One turn of the emulation loop: a cycle, the queued events, the
    frame. *)
Definition loop_body (rnd : Z) (rom : list Z) (es : list SDL_Event)
  (st : Chip8 * list Z) : option (host (Chip8 * list Z)) :=
  s1 ← executeCycle rnd st.1;
  h ← poll_events rom es s1;
  match h with
  | Exited => Some Exited
  | Running s2 => Running <$> present s2 st.2
  end.

(** ** The union of [main.c]

    In [main.c] the machine is [union chip8_t]: the array [memory] and,
    laid over its first bytes, a struct of the other fields.  The union is
    embedded as its 4096 bytes, a field as the bytes at its offset.  The
    offsets are those gcc and clang give the struct on x86-64 and AArch64:
    the members in the order of their declaration, one byte of padding
    before the first [uint16_t], the low byte of a [uint16_t] first. *)
Definition chip8_t : Type := list Z.

Definition OFF_V : Z := 80.
Definition OFF_DT : Z := 96.
Definition OFF_ST : Z := 97.
Definition OFF_SP : Z := 98.
Definition OFF_PC : Z := 100.
Definition OFF_I : Z := 102.
Definition OFF_stack : Z := 104.
Definition OFF_display : Z := 136.
Definition OFF_draw_flag : Z := 392.
Definition OFF_keys : Z := 393.

(** [c8->f[k]] for a member [f] of [len] bytes at offset [off]. *)
Definition fld_rd (u : list Z) (off len k : Z) : option Z :=
  if decide (0 <= k < len) then rd u (off + k) else None.

Definition fld_wr (u : list Z) (off len k z : Z) : option (list Z) :=
  if decide (0 <= k < len) then wr u (off + k) z else None.

(** A [uint16_t] member at offset [off]. *)
Definition rd16 (u : list Z) (off : Z) : option Z :=
  lo ← rd u off;
  hi ← rd u (off + 1);
  Some (lo + 256 * hi).

Definition wr16 (u : list Z) (off z : Z) : option (list Z) :=
  u1 ← wr u off (z mod 256);
  wr u1 (off + 1) (z / 256).

(** [instruction = (c8->memory[c8->PC] << 8) | c8->memory[c8->PC + 1]] *)
Definition c_fetch (u : chip8_t) : option Z :=
  pc ← rd16 u OFF_PC;
  hi ← rd u pc;
  lo ← rd u (pc + 1);
  Some (u16 (Z.lor (Z.shiftl hi 8) lo)).

(** The body of the inner loop of the [Dxyn] branch of [main.c]. *)
Definition c_draw_pixel (nthByte pxRow startCol offsetCol : Z) (u : chip8_t)
  : option chip8_t :=
  let byteShamt := 7 - offsetCol in
  let bytePxVal := Z.shiftr (Z.land nthByte (Z.shiftl 1 byteShamt)) byteShamt in
  let pxCol := (startCol + offsetCol) mod 64 in
  let bitIndex := pxRow * 64 + pxCol in
  let byteIndex := bitIndex / 8 in
  let dispShamt := 7 - bitIndex mod 8 in
  d ← fld_rd u OFF_display 256 byteIndex;
  let originalPxVal := u8 (Z.shiftr (Z.land d (Z.shiftl 1 dispShamt)) dispShamt) in
  let newPxVal := u8 (Z.lxor originalPxVal bytePxVal) in
  u1 ← fld_wr u OFF_display 256 byteIndex
         (u8 (Z.lxor d (Z.shiftl bytePxVal dispShamt)));
  vf ← fld_rd u1 OFF_V 16 0xF;
  fld_wr u1 OFF_V 16 0xF
    (u8 (Z.lor vf (b2z (negb (originalPxVal =? 0) && (newPxVal =? 0))))).

(** The body of the outer loop: the sprite byte is read from the union as
    the rows before have left it. *)
Definition c_draw_row (startRow startCol offsetRow : Z) (u : chip8_t)
  : option chip8_t :=
  i ← rd16 u OFF_I;
  nthByte ← rd u (i + offsetRow);
  let pxRow := (startRow + offsetRow) mod 32 in
  for_loop 8 0 (c_draw_pixel nthByte pxRow startCol) u.

(** The branch, with [c8->draw_flag = 1; c8->PC += 2;] at its end. *)
Definition c_exec_drw (x y n : Z) (u : chip8_t) : option chip8_t :=
  u0 ← fld_wr u OFF_V 16 0xF 0;
  startCol ← fld_rd u0 OFF_V 16 x;
  startRow ← fld_rd u0 OFF_V 16 y;
  u1 ← for_loop (Z.to_nat n) 0 (c_draw_row startRow startCol) u0;
  u2 ← wr u1 OFF_draw_flag 1;
  pc ← rd16 u2 OFF_PC;
  wr16 u2 OFF_PC (u16 (pc + 2)).

(** [// update timers] *)
Definition c_update_timers (u : chip8_t) : option chip8_t :=
  dt ← rd u OFF_DT;
  u1 ← (if 0 <? dt then wr u OFF_DT (u8 (dt - 1)) else Some u);
  st ← rd u1 OFF_ST;
  if 0 <? st then wr u1 OFF_ST (u8 (st - 1)) else Some u1.

(** What [chip8_t_emulate_cycle] executes when the instruction at [PC] is
    of family [D] ([op == 0xD]): the fetch, the [Dxyn] branch, the timers.
    It is used on such unions only. *)
Definition emulate_cycle_drw (u : chip8_t) : option chip8_t :=
  w ← c_fetch u;
  u1 ← c_exec_drw (x_of w) (y_of w) (n_of w) u;
  c_update_timers u1.

(** The members of the union, read as the data members of [class Chip8]. *)
Definition byte_at (u : list Z) (a : Z) : Z := default 0 (rd u a).
Definition word_at (u : list Z) (a : Z) : Z :=
  byte_at u a + 256 * byte_at u (a + 1).
Definition bytes_at (u : list Z) (off len : Z) : list Z :=
  take (Z.to_nat len) (drop (Z.to_nat off) u).

Definition as_Chip8 (u : chip8_t) : Chip8 :=
  {| V := bytes_at u OFF_V 16;
     DT := byte_at u OFF_DT;
     ST := byte_at u OFF_ST;
     SP := byte_at u OFF_SP;
     I := word_at u OFF_I;
     stack := (fun k => word_at u (OFF_stack + 2 * k)) <$> seqZ 0 16;
     keys := (fun z => negb (z =? 0)) <$> bytes_at u OFF_keys 16;
     memory := u;
     PC := word_at u OFF_PC;
     display := bytes_at u OFF_display 256;
     draw := negb (byte_at u OFF_draw_flag =? 0) |}.

(** * Definitions used by the statements *)

(** ** Well-formedness, decided *)

(** A decidable form of [wf], to evaluate on concrete states. *)
Definition u8b (z : Z) : bool := (0 <=? z) && (z <? 256).
Definition u16b (z : Z) : bool := (0 <=? z) && (z <? 65536).

Definition wfb (s : Chip8) : bool :=
  (Z.of_nat (length (V s)) =? 16) && forallb u8b (V s)
  && u8b (DT s) && u8b (ST s) && u8b (SP s) && u16b (I s)
  && (Z.of_nat (length (stack s)) =? 16) && forallb u16b (stack s)
  && (Z.of_nat (length (keys s)) =? 16)
  && (Z.of_nat (length (memory s)) =? 4096) && forallb u8b (memory s)
  && u16b (PC s)
  && (Z.of_nat (length (display s)) =? 256) && forallb u8b (display s).

(** ** The display as a grid of pixels

    Pixel [(row, col)] is bit [7 - (row * 64 + col) mod 8] of byte
    [(row * 64 + col) / 8]: the addressing used by the draw loop and by the
    host loop that reads the frame buffer. *)
Definition getbit (d : list Z) (bitIndex : Z) : bool :=
  Z.testbit (default 0 (rd d (bitIndex / 8))) (7 - bitIndex mod 8).

Definition pixel (d : list Z) (row col : Z) : bool :=
  getbit d (row * 64 + col).

(** Bit [col] (from the left) of row [row] of the sprite at [I]. *)
Definition sprite_bit (s : Chip8) (row col : Z) : bool :=
  Z.testbit (default 0 (rd (memory s) (I s + row))) (7 - col).

(** Register read with the default of an absent index. *)
Definition reg (s : Chip8) (i : Z) : Z := default 0 (rd (V s) i).

(** The instruction word with the four given nibbles. *)
Definition mk_instr (op x y n : Z) : Z := op * 4096 + x * 256 + y * 16 + n.


(** ** Registers and timers *)

(** The machine after [V[i] = z]. *)
Definition with_V (i z : Z) (s : Chip8) : Chip8 :=
  set_V (<[Z.to_nat i := z]> (V s)) s.

(** What the update does to one timer. *)
Definition tick (t : Z) : Z := if 0 <? t then t - 1 else t.

(** Whether one of the keys [0 .. j-1] is down. *)
Definition any_key (s : Chip8) (j : Z) : bool :=
  existsb id (take (Z.to_nat j) (keys s)).

(** The highest index of a key that is down, the value C4 expects. *)
Fixpoint highest_from (i : Z) (ks : list bool) : option Z :=
  match ks with
  | [] => None
  | k :: ks' =>
      match highest_from (i + 1) ks' with
      | Some j => Some j
      | None => if k then Some i else None
      end
  end.

Definition highest_key (s : Chip8) : option Z := highest_from 0 (keys s).

(** The state in which a branch ends, however control leaves it. *)
Definition state_of (o : outcome) : Chip8 :=
  match o with Fallthrough t => t | Returned t => t end.

(** [t] is a well-formed state whose timers are those of [s]: what every
    branch but Fx15 and Fx18 leaves. *)
Definition keeps_timers (s t : Chip8) : Prop :=
  wf t /\ DT t = DT s /\ ST t = ST s.

(** The timers as the instruction [w] leaves them: Fx15 and Fx18 load them
    from [V[x]], every other instruction keeps them. *)
Definition DT_left (s : Chip8) (w : Z) : Z :=
  if (op_of w =? 0xF) && (kk_of w =? 0x15) then reg s (x_of w) else DT s.

Definition ST_left (s : Chip8) (w : Z) : Z :=
  if (op_of w =? 0xF) && (kk_of w =? 0x18) then reg s (x_of w) else ST s.

(** ** Words and the dispatch *)

(** The words for which no branch of the [if]/[else if] chain of [exec] is
    taken: the chain tests [op], then [n] in families 0 and 8 and [kk] in
    families E and F, and nothing else. *)
Definition no_branch (w : Z) : bool :=
  let op := op_of w in
  let kk := kk_of w in
  let n := n_of w in
  if op =? 0 then negb (existsb (Z.eqb n) [0x0; 0xE])
  else if op =? 0x8 then
    negb (existsb (Z.eqb n) [0x0; 0x1; 0x2; 0x3; 0x4; 0x5; 0x6; 0x7; 0xE])
  else if op =? 0xE then negb (existsb (Z.eqb kk) [0x9E; 0xA1])
  else if op =? 0xF then
    negb (existsb (Z.eqb kk)
            [0x07; 0x0A; 0x15; 0x18; 0x1E; 0x29; 0x33; 0x55; 0x65])
  else false.

(** The opcode patterns of the specification's table, read as written
    there: hexadecimal digits are literal, [x], [y], [n], [k] are free.
    This definition follows the specification, not the source. *)
Definition table_pattern (w : Z) : bool :=
  let op := op_of w in
  let kk := kk_of w in
  let n := n_of w in
  (w =? 0x00E0) || (w =? 0x00EE)
  || existsb (Z.eqb op) [0x1; 0x2; 0x3; 0x4; 0x6; 0x7; 0xA; 0xB; 0xC; 0xD]
  || ((op =? 0x5) && (n =? 0)) || ((op =? 0x9) && (n =? 0))
  || ((op =? 0x8)
      && existsb (Z.eqb n) [0x0; 0x1; 0x2; 0x3; 0x4; 0x5; 0x6; 0x7; 0xE])
  || ((op =? 0xE) && existsb (Z.eqb kk) [0x9E; 0xA1])
  || ((op =? 0xF)
      && existsb (Z.eqb kk)
           [0x07; 0x0A; 0x15; 0x18; 0x1E; 0x29; 0x33; 0x55; 0x65]).

(** ** Sprite cells on the display *)

(** A display buffer: 256 bytes. *)
Definition is_display (d : list Z) : Prop :=
  Z.of_nat (length d) = 256 /\ all_u8 d.

(** The effect of one iteration of the inner loop on the display and on
    the collision seen so far: [cell.1] is the bit index of the pixel,
    [cell.2] the sprite bit. *)
Definition plot (cell : Z * bool) (dc : list Z * bool) : list Z * bool :=
  let byteIndex := cell.1 / 8 in
  let dispShamt := 7 - cell.1 mod 8 in
  let d := default 0 (rd dc.1 byteIndex) in
  (<[Z.to_nat byteIndex := u8 (Z.lxor d (Z.shiftl (b2z cell.2) dispShamt))]>
     dc.1,
   dc.2 || (getbit dc.1 cell.1 && cell.2)).

Definition plots (cells : list (Z * bool)) (dc : list Z * bool)
  : list Z * bool :=
  foldl (fun acc cell => plot cell acc) dc cells.

(** Whether one of the cells with a set sprite bit lies on bit [bi]. *)
Definition mask (cells : list (Z * bool)) (bi : Z) : bool :=
  existsb (fun cell => (cell.1 =? bi) && cell.2) cells.

(** Whether a set sprite bit lies on a lit pixel of [d]. *)
Definition hits (d : list Z) (cells : list (Z * bool)) : bool :=
  existsb (fun cell => getbit d cell.1 && cell.2) cells.

(** The set sprite bits that lie on an unlit pixel of [d]. *)
Definition misses (d : list Z) (cells : list (Z * bool)) : bool :=
  existsb (fun cell => negb (getbit d cell.1) && cell.2) cells.

Definition on_screen (cells : list (Z * bool)) : Prop :=
  Forall (fun cell => 0 <= cell.1 < 2048) cells.

(** The machine [s] with the display and the collision flag replaced. *)
Definition painted (dc : list Z * bool) (s : Chip8) : Chip8 :=
  with_V 0xF (b2z dc.2) (set_display dc.1 s).

(** The cell of column [col] of a sprite row: its bit index on the display
    and its sprite bit. *)
Definition cell_of (nthByte pxRow startCol col : Z) : Z * bool :=
  (pxRow * 64 + (startCol + col) mod 64, Z.testbit nthByte (7 - col)).

Definition row_cells (nthByte pxRow startCol j k : Z) : list (Z * bool) :=
  cell_of nthByte pxRow startCol <$> seqZ j k.

(** Row [row] of the sprite at [I]. *)
Definition sprite_byte (s : Chip8) (row : Z) : Z :=
  default 0 (rd (memory s) (I s + row)).

Definition sprite_row (s : Chip8) (startRow startCol row : Z)
  : list (Z * bool) :=
  row_cells (sprite_byte s row) ((startRow + row) mod 32) startCol 0 8.

(** The cells of rows [i .. i + k - 1], in the order the loops visit them. *)
Definition sprite_cells (s : Chip8) (startRow startCol i k : Z)
  : list (Z * bool) :=
  seqZ i k ≫= sprite_row s startRow startCol.

Definition bit_index (startRow startCol row col : Z) : Z :=
  ((startRow + row) mod 32) * 64 + (startCol + col) mod 64.

(** The start coordinates as the branch reads them, after [V[0xF] = 0]. *)
Definition start_col (s : Chip8) (w : Z) : Z := reg (with_V 0xF 0 s) (x_of w).
Definition start_row (s : Chip8) (w : Z) : Z := reg (with_V 0xF 0 s) (y_of w).

(** The cells the instruction [w] draws in state [s]. *)
Definition drawn_cells (s : Chip8) (w : Z) : list (Z * bool) :=
  sprite_cells s (start_row s w) (start_col s w) 0 (n_of w).

(** The state the instruction [w] leaves. *)
Definition drawn (s : Chip8) (w : Z) : Chip8 :=
  update_timers
    (advance 2 (set_draw true
       (painted (plots (drawn_cells s w) (display s, false)) s))).

(** What C5, as amended, says of the instruction [w] drawn in [s] and drawn
    again in [s1], with [s2] the state after the second draw: the display
    of [s] is back; [V[0xF]] is 1 exactly when a set sprite bit lay on a
    pixel that was off in [s], and 0 otherwise; so after a first draw
    without collision the second reports one as soon as the sprite has a
    set bit. *)
Definition drawn_twice (s s1 s2 : Chip8) (w : Z) : Prop :=
  display s2 = display s /\
  (reg s2 0xF = 1 <->
   exists row col, 0 <= row < n_of w /\ 0 <= col < 8 /\
     sprite_bit s row col = true /\
     pixel (display s) ((start_row s w + row) mod 32)
       ((start_col s w + col) mod 64) = false) /\
  (reg s2 0xF = 0 \/ reg s2 0xF = 1) /\
  (reg s1 0xF = 0 ->
   (exists row col, 0 <= row < n_of w /\ 0 <= col < 8 /\
      sprite_bit s row col = true) ->
   reg s2 0xF = 1).

(** The second draw finds the sprite of the first: the start coordinates
    the branch reads (after [V[0xF] = 0]), [I] and the [n] sprite bytes of
    [s1] are those of [s]. *)
Definition same_sprite (s s1 : Chip8) (w : Z) : Prop :=
  start_col s1 w = start_col s w /\ start_row s1 w = start_row s w /\
  I s1 = I s /\
  forall row, 0 <= row < n_of w -> sprite_byte s1 row = sprite_byte s row.

(** ** Statements of the specification that the code refutes *)

(** What C7 promises of a step on the word [w]: nothing but the timers
    moves. *)
Definition only_timers_tick (s s' : Chip8) : Prop :=
  PC s' = PC s /\ V s' = V s /\ I s' = I s /\ SP s' = SP s
  /\ stack s' = stack s /\ memory s' = memory s /\ display s' = display s
  /\ keys s' = keys s /\ draw s' = draw s
  /\ DT s' = tick (DT s) /\ ST s' = tick (ST s).

(** C7 as the specification states it, over the table's patterns. *)
Definition undefined_word_is_noop : Prop :=
  forall rnd s w,
    wf s -> fetch s = Some w -> table_pattern w = false ->
    exists s', executeCycle rnd s = Some s' /\ only_timers_tick s s'.

(** What C10 says a shift leaves in the registers when [V[x]] held [v]:
    the bit shifted out in [V[0xF]] and the shifted value in [V[x]]. *)
Definition shr_result (s' : Chip8) (x v : Z) : Prop :=
  reg s' 0xF = v mod 2 /\ reg s' x = v / 2.

Definition shl_result (s' : Chip8) (x v : Z) : Prop :=
  reg s' 0xF = v / 128 /\ reg s' x = (2 * v) mod 256.

(** C10 as stated, for every [x]. *)
Definition shifts_as_stated : Prop :=
  forall rnd s x y1 y2,
    wf s -> 0 <= x < 16 -> 0 <= y1 < 16 -> 0 <= y2 < 16 ->
    (exec rnd (mk_instr 0x8 x y1 0x6) s = exec rnd (mk_instr 0x8 x y2 0x6) s /\
     exists s', exec rnd (mk_instr 0x8 x y1 0x6) s = Some (Fallthrough s') /\
                shr_result s' x (reg s x)) /\
    (exec rnd (mk_instr 0x8 x y1 0xE) s = exec rnd (mk_instr 0x8 x y2 0xE) s /\
     exists s', exec rnd (mk_instr 0x8 x y1 0xE) s = Some (Fallthrough s') /\
                shl_result s' x (reg s x)).

(** C5 as the specification states it: the display comes back, and the
    second draw reports no collision when there was none before the first
    draw ([V[0xF]] was 0 and the first draw left it 0). *)
Definition draw_twice_as_stated : Prop :=
  forall rnd s w s1 s2,
    wf s -> fetch s = Some w -> op_of w = 0xD ->
    executeCycle rnd s = Some s1 -> fetch s1 = Some w -> executeCycle rnd s1 = Some s2 ->
    display s2 = display s /\
    (reg s 0xF = 0 -> reg s1 0xF = 0 -> reg s2 0xF = 0).

(** ** Accesses inside the arrays *)

(** Whether every array access of the instruction [w] in state [s] falls
    inside its array: [stack[SP]] of a call, [stack[SP - 1]] of a return,
    [keys[V[x]]], the sprite rows [memory[I .. I + n - 1]], the three
    digits at [memory[I ..]] and the [x + 1] bytes of the block copies. *)
Definition in_bounds (s : Chip8) (w : Z) : bool :=
  let op := op_of w in
  let x := x_of w in
  let kk := kk_of w in
  let n := n_of w in
  if op =? 0 then
    if n =? 0x0 then true
    else if n =? 0xE then (1 <=? SP s) && (SP s <=? 16)
    else true
  else if op =? 0x2 then SP s <=? 15
  else if op =? 0xD then (n =? 0) || (I s + n <=? 4096)
  else if op =? 0xE then
    if (kk =? 0x9E) || (kk =? 0xA1) then reg s x <=? 15 else true
  else if op =? 0xF then
    if kk =? 0x33 then I s + 3 <=? 4096
    else if (kk =? 0x55) || (kk =? 0x65) then I s + (x + 1) <=? 4096
    else true
  else true.

(** ** Which instruction writes what *)

Definition is_cls (w : Z) : bool := (op_of w =? 0) && (n_of w =? 0x0).
Definition is_ret (w : Z) : bool := (op_of w =? 0) && (n_of w =? 0xE).
Definition is_call (w : Z) : bool := op_of w =? 0x2.
Definition is_drw (w : Z) : bool := op_of w =? 0xD.
Definition is_ld_b (w : Z) : bool := (op_of w =? 0xF) && (kk_of w =? 0x33).
Definition is_ld_mem_v (w : Z) : bool :=
  (op_of w =? 0xF) && (kk_of w =? 0x55).

(** The addresses the instruction [w] may store to in state [s]. *)
Definition may_store (s : Chip8) (w : Z) (a : Z) : bool :=
  (is_ld_b w && (I s <=? a) && (a <? I s + 3))
  || (is_ld_mem_v w && (I s <=? a) && (a <=? I s + x_of w)).

(** ** The pixel buffer *)

Definition WHITE : Z := 0x00FFFFFF.
Definition BLACK : Z := 0xFF000000.

(** The buffer shows the display: entry [row * 64 + col] is white where
    the pixel is lit and black where it is not. *)
Definition shows (pixels : list Z) (d : list Z) : Prop :=
  Z.of_nat (length pixels) = 2048 /\
  forall row col, 0 <= row < 32 -> 0 <= col < 64 ->
    rd pixels (row * 64 + col)
    = Some (if pixel d row col then WHITE else BLACK).

(** The colour of a pixel in the buffer. *)
Definition colour (b : bool) : Z := if b then WHITE else BLACK.

(** No press of [F1] among the events. *)
Definition no_reload (es : list SDL_Event) : Prop :=
  Forall (fun e => e <> SDL_KEYDOWN SDLK_F1) es.

(** The event of a key going down ([v = true]) or up ([v = false]). *)
Definition key_event (v : bool) (sym : Z) : SDL_Event :=
  if v then SDL_KEYDOWN sym else SDL_KEYUP sym.

(** ** The draw on the union of [main.c] *)

(** The bytes of the union that a cycle on a [Dxyn] writes: [V[0xF]], the
    timers, [PC], the display and [draw_flag]. *)
Definition drw_writes (a : Z) : bool :=
  (a =? OFF_V + 0xF) || (a =? OFF_DT) || (a =? OFF_ST)
  || (a =? OFF_PC) || (a =? OFF_PC + 1)
  || ((OFF_display <=? a) && (a <=? OFF_draw_flag)).

(** The union [U] during a draw that started from [u]: the display and the
    collision flag are [dc], the other bytes those of [u]. *)
Definition shown (dc : list Z * bool) (u U : list Z) : Prop :=
  Z.of_nat (length U) = 4096 /\ all_u8 U /\
  bytes_at U OFF_display 256 = dc.1 /\
  rd U (OFF_V + 0xF) = Some (b2z dc.2) /\
  forall a, a <> OFF_V + 0xF -> ~ (OFF_display <= a < OFF_display + 256) ->
    rd U a = rd u a.

(** ** Concrete machine states *)

(** A waiting machine whose timers are running: [F00A] at [PROGRAM_START],
    no key down, [DT = 5] and [ST = 7]. *)
Definition waiting : Chip8 := set_ST 7 (set_DT 5 (load [0xF0; 0x0A])).

(** A caller at [PROGRAM_START] whose callee at [0x204] returns at once. *)
Definition call_site : Chip8 := load [0x22; 0x04; 0x00; 0x00; 0x00; 0xEE].

(** A machine about to run the unhandled word [0x8129], timers running. *)
Definition stalled : Chip8 := set_ST 1 (set_DT 9 (load [0x81; 0x29])).

(** The word [0x5011] is in no row of the table ([5xy0] ends in 0), yet the
    dispatch tests only the family and runs it as a skip. *)
Definition off_table : Chip8 := load [0x50; 0x11].

(** The state of the failing run of C2: [V[0] = 1], [V[0xF] = 5], and the
    instruction [80F4] (add [V[0xF]] to [V[0]]) at [PROGRAM_START]. *)
Definition add_flag_operand : Chip8 :=
  with_V 0 1 (with_V 0xF 5 (load [0x80; 0xF4])).

(** The state of the failing run of C8: [I = 0x10], [V[0xF] = 5], and the
    instruction [FF1E] at [PROGRAM_START]. *)
Definition add_i_vf : Chip8 := set_I 0x10 (with_V 0xF 5 (load [0xFF; 0x1E])).

(** A machine with [V[1] = 0x83] and [V[0xF] = 3]. *)
Definition shift_me : Chip8 := with_V 1 0x83 (with_V 0xF 3 reset).

(** The state of the failing run of C4: [F00A] at [PROGRAM_START] and key 3
    alone held down. *)
Definition key3_down : Chip8 :=
  mkChip8 (V reset) 0 0 0 0 (stack reset) (<[3%nat := true]> (keys reset))
          (memory (load [0xF0; 0x0A])) PROGRAM_START (display reset) false.

(** The state of the failing run of C1: [V[0xF] = 8], [V[0] = 0], [I = 0]
    (the glyph of 0, whose first row is [0xF0]), a blank display, and the
    instruction [DF01] at [PROGRAM_START]: one sprite row at column
    [V[0xF]], row [V[0]]. *)
Definition draw_at_vf : Chip8 := with_V 0xF 8 (load [0xDF; 0x01]).

(** The glyph of 0 drawn twice at the origin of a blank display. *)
Definition blank_twice : Chip8 := load [0xD0; 0x05; 0xD0; 0x05].

(** [8014] with [V[0] = 200] and [V[1] = 100]: carry, and 44 in [V[0]]. *)
Definition add_plain : Chip8 := with_V 0 200 (with_V 1 100 (load [0x80; 0x14])).

(** [F21E] with [I = 0xFFF] and [V[2] = 1]: the flag is set and [I] is
    [0x1000]. *)
Definition add_i_plain : Chip8 :=
  set_I 0xFFF (with_V 2 1 (load [0xF2; 0x1E])).

(** The glyph of 0 at [(V[0], V[1]) = (62, 30)], wrapping in both axes. *)
Definition draw_corner : Chip8 :=
  with_V 0 62 (with_V 1 30 (load [0xD0; 0x15])).

(** [6005] with [DT = 3] and [ST = 0]: [DT] drops to 2, [ST] stays 0. *)
Definition ticking : Chip8 := set_DT 3 (load [0x60; 0x05]).

(** Two steps of a program. *)
Definition run2 (s : Chip8) : option Chip8 := s1 ← executeCycle 0 s; executeCycle 0 s1.

(** [8015] with [V[0] = 5] and [V[1] = 7]: no flag, and 254 in [V[0]]. *)
Definition sub_plain : Chip8 := with_V 0 5 (with_V 1 7 (load [0x80; 0x15])).

(** [8017] with the same registers: the flag, and 2 in [V[0]]. *)
Definition subn_plain : Chip8 := with_V 0 5 (with_V 1 7 (load [0x80; 0x17])).

(** [F233] with [V[2] = 254] and [I = 0x300]. *)
Definition bcd_me : Chip8 := set_I 0x300 (with_V 2 254 (load [0xF2; 0x33])).

(** [F233] then [F265], with [V[2] = 254] and [I = 0x300]. *)
Definition bcd_load : Chip8 :=
  set_I 0x300 (with_V 2 254 (load [0xF2; 0x33; 0xF2; 0x65])).

(** [F155] then [F165], with [V[0] = 11], [V[1] = 22] and [I = 0x300]. *)
Definition store_me : Chip8 :=
  set_I 0x300 (with_V 0 11 (with_V 1 22 (load [0xF1; 0x55; 0xF1; 0x65]))).

(** The machine after the store, with other values in the two registers
    and [I] back at [0x300]. *)
Definition restore_me : Chip8 :=
  match executeCycle 0 store_me with
  | Some s1 => set_I 0x300 (with_V 0 99 (with_V 1 98 s1))
  | None => reset
  end.

(** [F465] with [I = 0]: the glyph of 0 into [V[0] .. V[4]]. *)
Definition load_me : Chip8 := load [0xF4; 0x65].

(** [F315] then [F407], with [V[3] = 9]. *)
Definition timer_me : Chip8 := with_V 3 9 (load [0xF3; 0x15; 0xF4; 0x07]).

(** [D010] with [I] far outside memory. *)
Definition draw_none : Chip8 := set_I 0xFFFF (load [0xD0; 0x10]).

(** [C10F] *)
Definition rnd_me : Chip8 := load [0xC1; 0x0F].

(** [00EE] on the empty stack. *)
Definition ret_empty : Chip8 := load [0x00; 0xEE].

(** A turn of the loop: [6000] with the flag up, a stale pixel buffer, and
    the key [q] pressed and released. *)
Definition flag_up : Chip8 := set_draw true (load [0x60; 0x00]).
Definition stale : list Z := replicate 2048 0.
Definition tap_q : list SDL_Event :=
  [SDL_KEYDOWN SDLK_q; SDL_KEYUP SDLK_q; SDL_OTHER].

(** The same turn with [F1] pressed: the program [1200] is loaded again. *)
Definition tap_F1 : list SDL_Event :=
  [SDL_KEYDOWN SDLK_q; SDL_KEYDOWN SDLK_F1; SDL_KEYUP SDLK_F1].

(** A machine whose top-left pixel is lit, with the flag down, and a buffer
    that shows it. *)
Definition lit : Chip8 :=
  set_display (<[0%nat := 0x80]> (replicate 256 0)) (load [0x60; 0x00]).
Definition lit_px : list Z := <[0%nat := WHITE]> (replicate 2048 BLACK).

(** A union whose sprite is the first byte of its own display:
    [PC = 0x200], [I = 136], [display[0] = 0xFF], and [D001] twice at
    [0x200]. *)
Definition overlap : chip8_t :=
  list_inserts (Z.to_nat 0x200) [0xD0; 0x01; 0xD0; 0x01]
    (list_inserts (Z.to_nat OFF_PC) [0x00; 0x02; 136; 0]
       (<[Z.to_nat OFF_display := 0xFF]> (replicate 4096 0))).

(** A union that draws the glyph of 0 twice: the glyph table in the first
    80 bytes, [PC = 0x200], [I = 0], and [D005] twice at [0x200]. *)
Definition glyph_union : chip8_t :=
  list_inserts (Z.to_nat 0x200) [0xD0; 0x05; 0xD0; 0x05]
    (list_inserts (Z.to_nat OFF_PC) [0x00; 0x02; 0; 0]
       (BUILTIN_SPRITES ++ replicate (4096 - 80) 0)).

(** A union whose sprite has [V[0xF]] as its second row: [I = 94],
    [V[14] = 0x80], and [D002] twice at [0x200]. *)
Definition flag_row : chip8_t :=
  list_inserts (Z.to_nat 0x200) [0xD0; 0x02; 0xD0; 0x02]
    (list_inserts (Z.to_nat OFF_PC) [0x00; 0x02; 94; 0]
       (<[Z.to_nat (OFF_V + 14) := 0x80]> (replicate 4096 0))).

(** * Properties *)

(** ** Machine integers and decoding *)

Lemma u8_id z : is_u8 z -> u8 z = z.
Proof. unfold is_u8, u8. intros H. apply Z.mod_small. lia. Qed.

Lemma u16_id z : is_u16 z -> u16 z = z.
Proof. unfold is_u16, u16. intros H. apply Z.mod_small. lia. Qed.

Lemma u8_range z : is_u8 (u8 z).
Proof. unfold is_u8, u8. apply Z.mod_pos_bound. lia. Qed.

Lemma u16_range z : is_u16 (u16 z).
Proof. unfold is_u16, u16. apply Z.mod_pos_bound. lia. Qed.

Lemma u8b_spec z : u8b z = true <-> is_u8 z.
Proof. unfold u8b, is_u8. rewrite andb_true_iff. lia. Qed.

Lemma u16b_spec z : u16b z = true <-> is_u16 z.
Proof. unfold u16b, is_u16. rewrite andb_true_iff. lia. Qed.

Lemma forallb_u8b l : forallb u8b l = true -> all_u8 l.
Proof.
  unfold all_u8. rewrite forallb_forall, Forall_forall.
  intros H z Hz. apply u8b_spec, H. by apply list_elem_of_In.
Qed.

Lemma forallb_u16b l : forallb u16b l = true -> all_u16 l.
Proof.
  unfold all_u16. rewrite forallb_forall, Forall_forall.
  intros H z Hz. apply u16b_spec, H. by apply list_elem_of_In.
Qed.

Lemma wfb_wf s : wfb s = true -> wf s.
Proof.
  unfold wfb. rewrite !andb_true_iff, !Z.eqb_eq, !u8b_spec, !u16b_spec.
  intros H. decompose [and] H.
  constructor; auto using forallb_u8b, forallb_u16b.
Qed.

(** The field extractions are the nibbles and bytes of the word. *)
Lemma field_spec w k :
  0 <= k ->
  Z.shiftr (Z.land w (Z.shiftl (Z.ones 4) k)) k = (w / 2 ^ k) mod 16.
Proof.
  intros Hk. rewrite Z.shiftr_land, Z.shiftr_shiftl_l by lia.
  rewrite Z.sub_diag, Z.shiftl_0_r, Z.land_ones by lia.
  by rewrite Z.shiftr_div_pow2 by lia.
Qed.

Lemma op_of_spec w : op_of w = (w / 4096) mod 16.
Proof.
  unfold op_of, u8. change 0xF000 with (Z.shiftl (Z.ones 4) 12).
  rewrite field_spec by lia. change (2 ^ 12) with 4096.
  apply Z.mod_small. pose proof (Z.mod_pos_bound (w / 4096) 16). lia.
Qed.

Lemma x_of_spec w : x_of w = (w / 256) mod 16.
Proof.
  unfold x_of, u8. change 0x0F00 with (Z.shiftl (Z.ones 4) 8).
  rewrite field_spec by lia. change (2 ^ 8) with 256.
  apply Z.mod_small. pose proof (Z.mod_pos_bound (w / 256) 16). lia.
Qed.

Lemma y_of_spec w : y_of w = (w / 16) mod 16.
Proof.
  unfold y_of, u8. change 0x00F0 with (Z.shiftl (Z.ones 4) 4).
  rewrite field_spec by lia. change (2 ^ 4) with 16.
  apply Z.mod_small. pose proof (Z.mod_pos_bound (w / 16) 16). lia.
Qed.

Lemma n_of_spec w : n_of w = w mod 16.
Proof.
  unfold n_of, u8. change 0x000F with (Z.ones 4).
  rewrite Z.land_ones by lia. change (2 ^ 4) with 16.
  apply Z.mod_small. pose proof (Z.mod_pos_bound w 16). lia.
Qed.

Lemma kk_of_spec w : kk_of w = w mod 256.
Proof.
  unfold kk_of, u8. change 0x00FF with (Z.ones 8).
  rewrite Z.land_ones by lia. change (2 ^ 8) with 256.
  apply Z.mod_small. pose proof (Z.mod_pos_bound w 256). lia.
Qed.

Lemma nnn_of_spec w : nnn_of w = w mod 4096.
Proof.
  unfold nnn_of, u16. change 0x0FFF with (Z.ones 12).
  rewrite Z.land_ones by lia. change (2 ^ 12) with 4096.
  apply Z.mod_small. pose proof (Z.mod_pos_bound w 4096). lia.
Qed.

Lemma x_of_range w : 0 <= x_of w < 16.
Proof. rewrite x_of_spec. apply Z.mod_pos_bound. lia. Qed.

Lemma y_of_range w : 0 <= y_of w < 16.
Proof. rewrite y_of_spec. apply Z.mod_pos_bound. lia. Qed.

Lemma n_of_range w : 0 <= n_of w < 16.
Proof. rewrite n_of_spec. apply Z.mod_pos_bound. lia. Qed.

Lemma nnn_of_range w : 0 <= nnn_of w < 4096.
Proof. rewrite nnn_of_spec. apply Z.mod_pos_bound. lia. Qed.

Section mk_instr_fields.
Variables op x y n : Z.
Hypothesis Hop : 0 <= op < 16.
Hypothesis Hx : 0 <= x < 16.
Hypothesis Hy : 0 <= y < 16.
Hypothesis Hn : 0 <= n < 16.

Lemma op_of_mk_instr : op_of (mk_instr op x y n) = op.
Proof.
  rewrite op_of_spec. unfold mk_instr.
  replace ((op * 4096 + x * 256 + y * 16 + n) / 4096) with op
    by (apply Z.div_unique with (r := x * 256 + y * 16 + n); lia).
  apply Z.mod_small. lia.
Qed.

Lemma x_of_mk_instr : x_of (mk_instr op x y n) = x.
Proof.
  rewrite x_of_spec. unfold mk_instr.
  replace ((op * 4096 + x * 256 + y * 16 + n) / 256) with (op * 16 + x)
    by (apply Z.div_unique with (r := y * 16 + n); lia).
  rewrite Z.add_comm, Z.mod_add by lia. apply Z.mod_small. lia.
Qed.

Lemma y_of_mk_instr : y_of (mk_instr op x y n) = y.
Proof.
  rewrite y_of_spec. unfold mk_instr.
  replace ((op * 4096 + x * 256 + y * 16 + n) / 16)
    with ((op * 256 + x * 16) + y)
    by (apply Z.div_unique with (r := n); lia).
  replace (op * 256 + x * 16 + y) with (y + (op * 16 + x) * 16) by lia.
  rewrite Z.mod_add by lia. apply Z.mod_small. lia.
Qed.

Lemma n_of_mk_instr : n_of (mk_instr op x y n) = n.
Proof.
  rewrite n_of_spec. unfold mk_instr.
  replace (op * 4096 + x * 256 + y * 16 + n)
    with (n + (op * 256 + x * 16 + y) * 16) by lia.
  rewrite Z.mod_add by lia. apply Z.mod_small. lia.
Qed.
End mk_instr_fields.

(** ** Array accesses *)

Lemma rd_lookup {A} (l : list A) i :
  0 <= i -> rd l i = l !! Z.to_nat i.
Proof. intros Hi. unfold rd. by rewrite decide_True. Qed.

Lemma rd_Some_lt {A} (l : list A) i a :
  rd l i = Some a -> 0 <= i < Z.of_nat (length l).
Proof.
  unfold rd. case_decide; [|done]. intros Hl%lookup_lt_Some. lia.
Qed.

Lemma rd_is_Some {A} (l : list A) i :
  0 <= i < Z.of_nat (length l) -> exists a, rd l i = Some a.
Proof.
  intros Hi. rewrite rd_lookup by lia.
  destruct (lookup_lt_is_Some_2 l (Z.to_nat i)) as [a Ha]; [lia|]. eauto.
Qed.

Lemma rd_Forall {A} (P : A -> Prop) (l : list A) i a :
  Forall P l -> rd l i = Some a -> P a.
Proof.
  unfold rd. case_decide; [|done].
  rewrite Forall_lookup. intros HP Ha. by eapply HP.
Qed.

Lemma wr_Some {A} (l : list A) i a :
  0 <= i < Z.of_nat (length l) -> wr l i a = Some (<[Z.to_nat i := a]> l).
Proof. intros Hi. unfold wr. by rewrite decide_True. Qed.

Lemma rd_insert_eq {A} (l : list A) i a :
  0 <= i < Z.of_nat (length l) -> rd (<[Z.to_nat i := a]> l) i = Some a.
Proof.
  intros Hi. rewrite rd_lookup by lia. apply list_lookup_insert_eq. lia.
Qed.

Lemma rd_insert_ne {A} (l : list A) i j a :
  0 <= i -> 0 <= j -> i <> j -> rd (<[Z.to_nat i := a]> l) j = rd l j.
Proof.
  intros Hi Hj Hne. rewrite !rd_lookup by lia.
  apply list_lookup_insert_ne. lia.
Qed.

Lemma insert_rd_id {A} (l : list A) i a :
  rd l i = Some a -> <[Z.to_nat i := a]> l = l.
Proof.
  unfold rd. case_decide; [|done]. apply list_insert_id.
Qed.

Section wf_reads.
Variable s : Chip8.
Hypothesis Hwf : wf s.

Lemma rd_V i : 0 <= i < 16 -> exists v, rd (V s) i = Some v /\ is_u8 v.
Proof.
  intros Hi. destruct (rd_is_Some (V s) i) as [v Hv].
  { rewrite (wf_V_len s Hwf). lia. }
  exists v. split; [done|]. eapply rd_Forall; [apply (wf_V s Hwf)|done].
Qed.

Lemma rd_keys i : 0 <= i < 16 -> exists k, rd (keys s) i = Some k.
Proof.
  intros Hi. apply rd_is_Some. rewrite (wf_keys_len s Hwf). lia.
Qed.

Lemma rd_memory i :
  0 <= i < 4096 -> exists b, rd (memory s) i = Some b /\ is_u8 b.
Proof.
  intros Hi. destruct (rd_is_Some (memory s) i) as [v Hv].
  { rewrite (wf_memory_len s Hwf). lia. }
  exists v. split; [done|]. eapply rd_Forall; [apply (wf_memory s Hwf)|done].
Qed.

Lemma put_V_Some i z :
  0 <= i < 16 -> put_V i z s = Some (set_V (<[Z.to_nat i := z]> (V s)) s).
Proof.
  intros Hi. unfold put_V. rewrite wr_Some; [done|].
  rewrite (wf_V_len s Hwf). lia.
Qed.

(** A successful fetch reads inside [memory]. *)
Lemma fetch_PC w : fetch s = Some w -> 0 <= PC s /\ PC s + 1 < 4096.
Proof.
  unfold fetch. intros H.
  destruct (rd (memory s) (PC s)) as [hi|] eqn:Hhi; [|done].
  destruct (rd (memory s) (PC s + 1)) as [lo|] eqn:Hlo; [|done].
  apply rd_Some_lt in Hhi, Hlo. rewrite (wf_memory_len s Hwf) in Hhi, Hlo.
  lia.
Qed.

Lemma advance_2_PC w : fetch s = Some w -> u16 (PC s + 2) = PC s + 2.
Proof.
  intros H%fetch_PC. apply u16_id. unfold is_u16. lia.
Qed.
End wf_reads.

Lemma set_V_id s : set_V (V s) s = s.
Proof. by destruct s. Qed.

Lemma wf_put_V s i z :
  wf s -> is_u8 z -> wf (set_V (<[i := z]> (V s)) s).
Proof.
  intros [] Hz. constructor; simpl; try done.
  - by rewrite length_insert.
  - by apply Forall_insert.
Qed.

Lemma wf_set_display s d :
  wf s -> Z.of_nat (length d) = 256 -> all_u8 d -> wf (set_display d s).
Proof. intros [] Hl Hd. by constructor. Qed.

(** ** Loops *)

(** Invariant rule for [for_loop]: an invariant kept by every iteration
    holds after the loop, and the loop runs to its end. *)
Lemma for_loop_inv {St : Type} (P : Z -> St -> Prop) body k i (s : St) :
  P i s ->
  (forall j t, i <= j < i + Z.of_nat k -> P j t ->
     exists t', body j t = Some t' /\ P (j + 1) t') ->
  exists t, for_loop k i body s = Some t /\ P (i + Z.of_nat k) t.
Proof.
  revert i s. induction k as [|k IH]; intros i s Hs Hbody.
  - exists s. split; [done|]. by replace (i + Z.of_nat 0) with i by lia.
  - destruct (Hbody i s) as (t' & Ht' & HP); [lia|done|].
    destruct (IH (i + 1) t') as (t & Ht & HPt); [done| |].
    + intros j u Hj Hu. apply Hbody; [lia|done].
    + exists t. simpl. rewrite Ht'. simpl. split; [done|].
      by replace (i + Z.of_nat (S k)) with (i + 1 + Z.of_nat k) by lia.
Qed.

(** The dispatch, once the family and the sub-opcode are known. *)
Ltac dispatch Hop Hsub :=
  unfold exec; rewrite Hop; try rewrite Hsub; cbn [Z.eqb Pos.eqb].

(** ** Fx0A without a key (C9) *)

Lemma key_scan_idle x s i :
  wf s -> 0 <= x < 16 -> rd (keys s) i = Some false ->
  key_scan x i (false, s) = Some (false, s).
Proof.
  intros Hwf Hx Hk. unfold key_scan. simpl. rewrite Hk. simpl.
  destruct (rd_V s Hwf x Hx) as (vx & Hvx & Hu). rewrite Hvx. simpl.
  rewrite (put_V_Some s Hwf) by done. simpl.
  by rewrite (u8_id vx Hu), (insert_rd_id _ _ _ Hvx), set_V_id.
Qed.

Lemma key_loop_idle x s :
  wf s -> 0 <= x < 16 ->
  (forall i, 0 <= i < 16 -> rd (keys s) i = Some false) ->
  for_loop 16 0 (key_scan x) (false, s) = Some (false, s).
Proof.
  intros Hwf Hx Hkeys.
  destruct (for_loop_inv (fun _ t => t = (false, s)) (key_scan x) 16 0
              (false, s)) as (t & Ht & ->); [done| |done].
  intros j t Hj ->. exists (false, s). split; [|done].
  apply key_scan_idle; [done..|]. apply Hkeys. lia.
Qed.

(** C9: when the fetched instruction is Fx0A and none of the sixteen key
    flags is set, [executeCycle] returns the machine state it was given: the [V]
    registers, [PC], and also [DT] and [ST], which keep their values because
    the branch leaves through [return] before the timer update. *)
Theorem key_wait_idle_frame (rnd : Z) (s : Chip8) (w : Z) :
  wf s ->
  fetch s = Some w ->
  op_of w = 0xF ->
  kk_of w = 0x0A ->
  (forall i, 0 <= i < 16 -> rd (keys s) i = Some false) ->
  executeCycle rnd s = Some s.
Proof.
  intros Hwf Hf Hop Hkk Hkeys. unfold executeCycle. rewrite Hf. cbn [mbind option_bind].
  dispatch Hop Hkk. unfold exec_ld_vx_k.
  rewrite key_loop_idle by auto using x_of_range. done.
Qed.

(** C9 on the waiting machine: the step gives the machine back, timers
    included. *)
Lemma key_wait_idle_frame_witness : executeCycle 0 waiting = Some waiting.
Proof.
  apply (key_wait_idle_frame 0 waiting 0xF00A).
  - apply wfb_wf. vm_compute. reflexivity.
  - vm_compute. reflexivity.
  - vm_compute. reflexivity.
  - vm_compute. reflexivity.
  - intros i Hi.
    assert (i = 0 \/ i = 1 \/ i = 2 \/ i = 3 \/ i = 4 \/ i = 5 \/ i = 6
            \/ i = 7 \/ i = 8 \/ i = 9 \/ i = 10 \/ i = 11 \/ i = 12
            \/ i = 13 \/ i = 14 \/ i = 15) as H by lia.
    repeat (destruct H as [->|H]; [vm_compute; reflexivity|]).
    subst i. vm_compute. reflexivity.
Defined.

(** ** The timer update *)

Lemma update_timers_frame s :
  let s' := update_timers s in
  V s' = V s /\ SP s' = SP s /\ I s' = I s /\ stack s' = stack s
  /\ keys s' = keys s /\ memory s' = memory s /\ PC s' = PC s
  /\ display s' = display s /\ draw s' = draw s.
Proof.
  unfold update_timers. destruct (0 <? DT s); simpl;
    destruct (0 <? ST s); simpl; repeat split.
Qed.

Lemma update_timers_DT s : is_u8 (DT s) -> DT (update_timers s) = tick (DT s).
Proof.
  intros Hu. unfold update_timers, tick.
  destruct (0 <? DT s) eqn:Hd; simpl; destruct (0 <? ST s); simpl;
    try done; apply u8_id; unfold is_u8 in *; lia.
Qed.

Lemma update_timers_ST s : is_u8 (ST s) -> ST (update_timers s) = tick (ST s).
Proof.
  intros Hu. unfold update_timers, tick.
  destruct (0 <? DT s) eqn:Hd; simpl; destruct (0 <? ST s) eqn:Ht; simpl;
    try done; apply u8_id; unfold is_u8 in *; lia.
Qed.

Lemma fetch_ext s t :
  memory s = memory t -> PC s = PC t -> fetch s = fetch t.
Proof. intros Hm Hp. unfold fetch. by rewrite Hm, Hp. Qed.

(** ** Call and return (C6) *)

(** C6: with [SP <= 15], a 2nnn call followed at once by the 00EE found at
    the callee address leaves [PC] at the address after the call
    instruction and [SP] at its value before the call.  Both steps run. *)
Theorem call_ret_roundtrip (rnd : Z) (s : Chip8) (w : Z) :
  wf s ->
  SP s <= 15 ->
  fetch s = Some w ->
  op_of w = 0x2 ->
  fetch (set_PC (nnn_of w) s) = Some 0x00EE ->
  exists s1 s2,
    executeCycle rnd s = Some s1 /\ fetch s1 = Some 0x00EE /\
    executeCycle rnd s1 = Some s2 /\
    PC s2 = PC s + 2 /\ SP s2 = SP s.
Proof.
  intros Hwf Hsp Hf Hop Hcallee.
  pose proof (wf_SP s Hwf) as Hsp8. unfold is_u8 in Hsp8.
  pose proof (advance_2_PC s Hwf w Hf) as Hpc.
  pose (c := set_PC (nnn_of w)
               (set_SP (u8 (SP s + 1))
                  (set_stack (<[Z.to_nat (SP s) := PC s]> (stack s)) s))).
  pose (s1 := update_timers c).
  pose (r := advance 2 (set_PC (PC s) (set_SP (SP s) s1))).
  destruct (update_timers_frame c)
    as (_ & HSP & _ & Hstack & _ & Hmem & HPC & _).
  fold s1 in HSP, Hstack, Hmem, HPC. simpl in HSP, Hstack, Hmem, HPC.
  assert (executeCycle rnd s = Some s1) as Hs1.
  { unfold executeCycle. rewrite Hf. cbn [mbind option_bind]. dispatch Hop Hop.
    unfold exec_call.
    rewrite wr_Some by (rewrite (wf_stack_len s Hwf); lia). done. }
  assert (fetch s1 = Some 0xEE) as Hf1.
  { rewrite <- Hcallee. by apply fetch_ext. }
  assert (executeCycle rnd s1 = Some (update_timers r)) as Hs2.
  { unfold executeCycle. rewrite Hf1. cbn [mbind option_bind].
    unfold exec. change (op_of 238) with 0. change (n_of 238) with 14.
    cbn [Z.eqb Pos.eqb]. unfold exec_ret. cbn [SP stack set_SP].
    rewrite HSP, Hstack.
    assert (u8 (u8 (SP s + 1) - 1) = SP s) as ->.
    { unfold u8. rewrite (Z.mod_small (SP s + 1)) by lia.
      replace (SP s + 1 - 1) with (SP s) by lia. apply Z.mod_small. lia. }
    rewrite rd_insert_eq by (rewrite (wf_stack_len s Hwf); lia). done. }
  exists s1, (update_timers r). repeat split; try done.
  - destruct (update_timers_frame r) as (_ & _ & _ & _ & _ & _ & -> & _).
    done.
  - by destruct (update_timers_frame r) as (_ & -> & _).
Qed.

(** C6 on a call at [PROGRAM_START] to a routine that returns at once. *)
Lemma call_ret_roundtrip_witness :
  exists s1 s2,
    executeCycle 0 call_site = Some s1 /\ fetch s1 = Some 0x00EE /\
    executeCycle 0 s1 = Some s2 /\
    PC s2 = PC call_site + 2 /\ SP s2 = SP call_site.
Proof.
  apply (call_ret_roundtrip 0 call_site 0x2204).
  - apply wfb_wf. vm_compute. reflexivity.
  - vm_compute. discriminate.
  - vm_compute. reflexivity.
  - vm_compute. reflexivity.
  - vm_compute. reflexivity.
Defined.

(** A call with the stack full writes past [stack]: the step is undefined. *)
Lemma call_overflows rnd s w :
  wf s -> fetch s = Some w -> op_of w = 0x2 -> 15 < SP s ->
  executeCycle rnd s = None.
Proof.
  intros Hwf Hf Hop Hsp. unfold executeCycle. rewrite Hf. cbn [mbind option_bind].
  dispatch Hop Hop. unfold exec_call, wr.
  rewrite decide_False; [done|]. rewrite (wf_stack_len s Hwf). lia.
Qed.

(** ** Words the dispatch does not handle (C7) *)

Ltac split_eqb H :=
  repeat match type of H with
  | context [?a =? ?b] => destruct (a =? b) eqn:?; simpl in H
  end.

Lemma exec_no_branch rnd w s :
  no_branch w = true -> exec rnd w s = Some (Fallthrough s).
Proof.
  unfold no_branch, exec. cbv zeta. cbn [existsb]. intros H.
  destruct (op_of w =? 0) eqn:H0.
  { split_eqb H; try discriminate; done. }
  destruct (op_of w =? 8) eqn:H8.
  { apply Z.eqb_eq in H8. rewrite H8. cbn [Z.eqb Pos.eqb].
    split_eqb H; try discriminate; done. }
  destruct (op_of w =? 14) eqn:HE.
  { apply Z.eqb_eq in HE. rewrite HE. cbn [Z.eqb Pos.eqb].
    split_eqb H; try discriminate; done. }
  destruct (op_of w =? 15) eqn:HF; [|discriminate].
  apply Z.eqb_eq in HF. rewrite HF. cbn [Z.eqb Pos.eqb].
  split_eqb H; try discriminate; done.
Qed.

(** C7, amended: when the fetched word is one for which the dispatch takes
    no branch (family 0 with a low nibble other than 0 and E, family 8 with
    a low nibble among 8..D and F, family E with a low byte other than 9E
    and A1, family F with a low byte outside 07, 0A, 15, 18, 1E, 29, 33, 55,
    65), [executeCycle] leaves [PC], [V], [I], [SP], the stack, memory, the display,
    the keys and the draw flag as they were, and [DT] and [ST] each drop by
    one when nonzero. *)
Theorem unhandled_word_is_noop (rnd : Z) (s : Chip8) (w : Z) :
  wf s ->
  fetch s = Some w ->
  no_branch w = true ->
  exists s', executeCycle rnd s = Some s' /\ only_timers_tick s s'.
Proof.
  intros Hwf Hf Hw. exists (update_timers s). split.
  - unfold executeCycle. rewrite Hf. cbn [mbind option_bind]. by rewrite exec_no_branch.
  - destruct (update_timers_frame s)
      as (HV & HSP & HI & Hst & Hk & Hm & HPC & Hd & Hdr).
    unfold only_timers_tick.
    rewrite (update_timers_DT s (wf_DT s Hwf)).
    rewrite (update_timers_ST s (wf_ST s Hwf)). by repeat split.
Qed.

(** C7, amended, on the unhandled word [0x8129]. *)
Lemma unhandled_word_is_noop_witness :
  exists s', executeCycle 0 stalled = Some s' /\ only_timers_tick stalled s'.
Proof.
  apply (unhandled_word_is_noop 0 stalled 0x8129).
  - apply wfb_wf. vm_compute. reflexivity.
  - vm_compute. reflexivity.
  - vm_compute. reflexivity.
Defined.

(** The words left out by the dispatch are among those outside the table:
    the amended statement is the stated one on fewer words. *)
Lemma no_branch_outside_table w :
  no_branch w = true -> table_pattern w = false.
Proof.
  unfold no_branch, table_pattern. cbv zeta. cbn [existsb]. intros H.
  assert (w <> 0xE0 /\ w <> 0xEE) as [HA HB].
  { split; intros ->; vm_compute in H; discriminate. }
  apply Z.eqb_neq in HA, HB. rewrite HA, HB. clear HA HB.
  destruct (op_of w =? 0) eqn:H0.
  { apply Z.eqb_eq in H0. by rewrite H0. }
  destruct (op_of w =? 8) eqn:H8.
  { apply Z.eqb_eq in H8. rewrite H8. cbn [Z.eqb Pos.eqb orb andb].
    by apply negb_true_iff in H as ->. }
  destruct (op_of w =? 14) eqn:HE.
  { apply Z.eqb_eq in HE. rewrite HE. cbn [Z.eqb Pos.eqb orb andb].
    by apply negb_true_iff in H as ->. }
  destruct (op_of w =? 15) eqn:HF; [|discriminate].
  apply Z.eqb_eq in HF. rewrite HF. cbn [Z.eqb Pos.eqb orb andb].
  by apply negb_true_iff in H as ->.
Qed.

(** C7 as stated fails: [0x5011] matches no pattern of the table and the
    step moves [PC]. *)
Lemma undefined_word_is_noop_counterexample : ~ undefined_word_is_noop.
Proof.
  intros H.
  destruct (H 0 off_table 0x5011) as (s' & Hs' & HPC & _).
  - apply wfb_wf. vm_compute. reflexivity.
  - vm_compute. reflexivity.
  - vm_compute. reflexivity.
  - vm_compute in Hs'. injection Hs' as <-. vm_compute in HPC. discriminate.
Qed.

(** ** Registers *)

Lemma reg_rd s i v : rd (V s) i = Some v -> reg s i = v.
Proof. unfold reg. by intros ->. Qed.

Lemma rd_reg s i : wf s -> 0 <= i < 16 -> rd (V s) i = Some (reg s i).
Proof.
  intros Hwf Hi. destruct (rd_V s Hwf i Hi) as (v & Hv & _).
  by rewrite (reg_rd s i v Hv).
Qed.

Lemma reg_u8 s i : wf s -> 0 <= i < 16 -> is_u8 (reg s i).
Proof.
  intros Hwf Hi. destruct (rd_V s Hwf i Hi) as (v & Hv & Hu).
  by rewrite (reg_rd s i v Hv).
Qed.

Lemma put_V_with s i z :
  wf s -> 0 <= i < 16 -> put_V i z s = Some (with_V i z s).
Proof. intros Hwf Hi. by apply put_V_Some. Qed.

Lemma wf_with_V s i z : wf s -> is_u8 z -> wf (with_V i z s).
Proof. intros Hwf Hz. by apply wf_put_V. Qed.

Lemma reg_with_V_eq s i z :
  wf s -> 0 <= i < 16 -> reg (with_V i z s) i = z.
Proof.
  intros Hwf Hi. apply reg_rd. unfold with_V. simpl.
  apply rd_insert_eq. rewrite (wf_V_len s Hwf). lia.
Qed.

Lemma reg_with_V_ne s i j z :
  0 <= i -> 0 <= j -> i <> j -> reg (with_V i z s) j = reg s j.
Proof.
  intros Hi Hj Hne. unfold reg, with_V. simpl. by rewrite rd_insert_ne.
Qed.

Lemma b2z_u8 b : is_u8 (b2z b).
Proof. unfold is_u8. destruct b; simpl; lia. Qed.

(** A step that fetches [w] and whose branch runs to the end. *)
Lemma step_thru rnd s w s' :
  fetch s = Some w ->
  exec rnd w s = Some (Fallthrough s') ->
  executeCycle rnd s = Some (update_timers s').
Proof.
  intros Hf He. unfold executeCycle. rewrite Hf. cbn [mbind option_bind].
  by rewrite He.
Qed.

Lemma reg_update_timers s i : reg (update_timers s) i = reg s i.
Proof.
  unfold reg. by destruct (update_timers_frame s) as (-> & _).
Qed.

Lemma PC_update_timers s : PC (update_timers s) = PC s.
Proof. by destruct (update_timers_frame s) as (_ & _ & _ & _ & _ & _ & -> & _). Qed.

Lemma I_update_timers s : I (update_timers s) = I s.
Proof. by destruct (update_timers_frame s) as (_ & _ & -> & _). Qed.

Lemma reg_advance k s i : reg (advance k s) i = reg s i.
Proof. done. Qed.

Lemma PC_advance k s : PC (advance k s) = u16 (PC s + k).
Proof. done. Qed.

Lemma PC_with_V i z s : PC (with_V i z s) = PC s.
Proof. done. Qed.

(** ** 8xy4, ADD Vx, Vy (C2) *)

(** What the branch computes, whatever the registers named. *)
Lemma exec_add_reg_eq s x y :
  wf s -> 0 <= x < 16 -> 0 <= y < 16 ->
  let s1 := with_V 0xF (b2z (255 <? reg s x + reg s y)) s in
  exec_add_reg x y s
  = Some (advance 2 (with_V x (u8 (reg s1 x + reg s1 y)) s1)).
Proof.
  intros Hwf Hx Hy s1. unfold exec_add_reg.
  rewrite !rd_reg by done. cbn [mbind option_bind].
  rewrite put_V_with by (done || lia). cbn [mbind option_bind]. fold s1.
  assert (wf s1) as Hwf1 by (apply wf_with_V; [done|apply b2z_u8]).
  rewrite !rd_reg by done. cbn [mbind option_bind].
  by rewrite put_V_with by done.
Qed.

(** (X1) 8xy4 with [x] other than [0xF]: the cycle runs, [V[0xF]] is 1
    exactly when [V[x] + V[y]] exceeds 255 and 0 otherwise, [V[x]] receives
    the sum modulo 256 when [y] is not [0xF] either, and [PC] advances by
    2. *)
Lemma add_reg_other_regs (rnd : Z) (s : Chip8) (w : Z) :
  wf s ->
  fetch s = Some w ->
  op_of w = 0x8 -> n_of w = 0x4 ->
  x_of w <> 0xF ->
  exists s',
    executeCycle rnd s = Some s' /\
    reg s' 0xF = b2z (255 <? reg s (x_of w) + reg s (y_of w)) /\
    (y_of w <> 0xF ->
     reg s' (x_of w) = (reg s (x_of w) + reg s (y_of w)) mod 256) /\
    PC s' = PC s + 2.
Proof.
  intros Hwf Hf Hop Hn Hx.
  pose proof (x_of_range w) as Hxr. pose proof (y_of_range w) as Hyr.
  eexists. split.
  { apply (step_thru rnd s w); [done|]. dispatch Hop Hn.
    by rewrite exec_add_reg_eq by done. }
  rewrite !reg_update_timers, PC_update_timers.
  set (s1 := with_V 15 _ s).
  assert (wf s1) as Hwf1 by (apply wf_with_V; [done|apply b2z_u8]).
  repeat split.
  - rewrite reg_advance, reg_with_V_ne by lia. unfold s1.
    by rewrite reg_with_V_eq by (done || lia).
  - intros Hy. rewrite reg_advance, reg_with_V_eq by done. unfold s1.
    by rewrite !reg_with_V_ne by lia.
  - rewrite PC_advance, !PC_with_V. by apply (advance_2_PC s Hwf w).
Qed.

(** With [V[0xF]] as second operand the flag is written first and then
    read back as the operand: [V[x]] receives [V[x]] plus the carry. *)
Lemma add_reg_flag_operand (rnd : Z) (s : Chip8) (w : Z) :
  wf s ->
  fetch s = Some w ->
  op_of w = 0x8 -> n_of w = 0x4 ->
  x_of w <> 0xF -> y_of w = 0xF ->
  exists s',
    executeCycle rnd s = Some s' /\
    reg s' (x_of w)
    = (reg s (x_of w) + b2z (255 <? reg s (x_of w) + reg s 0xF)) mod 256.
Proof.
  intros Hwf Hf Hop Hn Hx Hy.
  pose proof (x_of_range w) as Hxr.
  eexists. split.
  { apply (step_thru rnd s w); [done|]. dispatch Hop Hn.
    by rewrite exec_add_reg_eq by (done || lia). }
  rewrite reg_update_timers, reg_advance, reg_with_V_eq.
  - rewrite Hy, reg_with_V_ne, reg_with_V_eq by (done || lia). done.
  - apply wf_with_V; [done|apply b2z_u8].
  - done.
Qed.

(** C2, the failing run: 80F4 with [V[0] = 1] and [V[0xF] = 5] should leave
    6 in [V[0]]; the code clears [V[0xF]] (no carry) before it adds, and
    [V[0]] stays 1. *)
Theorem add_reg_clobbers_operand :
  fetch add_flag_operand = Some 0x80F4 /\
  reg add_flag_operand 0 = 1 /\ reg add_flag_operand 0xF = 5 /\
  exists s',
    executeCycle 0 add_flag_operand = Some s' /\
    reg s' 0 = 1 /\ reg s' 0xF = 0 /\
    reg s' 0 <> (reg add_flag_operand 0 + reg add_flag_operand 0xF) mod 256.
Proof.
  repeat split; try (vm_compute; reflexivity).
  eexists. split; [vm_compute; reflexivity|].
  repeat split; try (vm_compute; reflexivity). vm_compute. discriminate.
Qed.

(** ** Fx1E, ADD I, Vx (C8) *)

Lemma exec_add_i_eq s x :
  wf s -> 0 <= x < 16 ->
  let s1 := with_V 0xF (b2z (0xFFF <? I s + reg s x)) s in
  exec_add_i x s = Some (advance 2 (set_I (u16 (I s + reg s1 x)) s1)).
Proof.
  intros Hwf Hx s1. unfold exec_add_i.
  rewrite rd_reg by done. cbn [mbind option_bind].
  rewrite put_V_with by (done || lia). cbn [mbind option_bind]. fold s1.
  assert (wf s1) as Hwf1 by (apply wf_with_V; [done|apply b2z_u8]).
  by rewrite rd_reg by done.
Qed.

(** (X2) Fx1E with [x] other than [0xF]: the cycle runs, [V[0xF]] is 1
    exactly when [I + V[x]] exceeds [0xFFF] and 0 otherwise, [I] receives
    the sum modulo 65536 and [PC] advances by 2. *)
Lemma add_i_other_regs (rnd : Z) (s : Chip8) (w : Z) :
  wf s ->
  fetch s = Some w ->
  op_of w = 0xF -> kk_of w = 0x1E ->
  x_of w <> 0xF ->
  exists s',
    executeCycle rnd s = Some s' /\
    reg s' 0xF = b2z (0xFFF <? I s + reg s (x_of w)) /\
    I s' = (I s + reg s (x_of w)) mod 65536 /\
    PC s' = PC s + 2.
Proof.
  intros Hwf Hf Hop Hkk Hx.
  pose proof (x_of_range w) as Hxr.
  eexists. split.
  { apply (step_thru rnd s w); [done|]. dispatch Hop Hkk.
    by rewrite exec_add_i_eq by done. }
  rewrite reg_update_timers, PC_update_timers, I_update_timers.
  repeat split.
  - rewrite reg_advance. unfold reg at 1. cbn [V set_I].
    fold (reg (with_V 15 (b2z (4095 <? I s + reg s (x_of w))) s) 15).
    by rewrite reg_with_V_eq by (done || lia).
  - cbn [I advance set_PC set_I]. by rewrite reg_with_V_ne by lia.
  - rewrite PC_advance. cbn [PC set_I with_V set_V].
    by apply (advance_2_PC s Hwf w).
Qed.

(** With [V[0xF]] itself the flag is written first and then added. *)
Lemma add_i_flag_operand (rnd : Z) (s : Chip8) (w : Z) :
  wf s ->
  fetch s = Some w ->
  op_of w = 0xF -> kk_of w = 0x1E ->
  x_of w = 0xF ->
  exists s',
    executeCycle rnd s = Some s' /\
    I s' = (I s + b2z (0xFFF <? I s + reg s 0xF)) mod 65536.
Proof.
  intros Hwf Hf Hop Hkk Hx.
  eexists. split.
  { apply (step_thru rnd s w); [done|]. dispatch Hop Hkk.
    by rewrite exec_add_i_eq by (rewrite ?Hx; done || lia). }
  rewrite I_update_timers. cbn [I advance set_PC set_I].
  by rewrite Hx, reg_with_V_eq by (done || lia).
Qed.

(** C8, the failing run: FF1E with [I = 0x10] and [V[0xF] = 5] should leave
    [I = 0x15]; the code writes the flag (0) into [V[0xF]] before it adds,
    and [I] stays [0x10]. *)
Theorem add_i_clobbers_operand :
  fetch add_i_vf = Some 0xFF1E /\
  I add_i_vf = 0x10 /\ reg add_i_vf 0xF = 5 /\
  exists s',
    executeCycle 0 add_i_vf = Some s' /\
    I s' = 0x10 /\ reg s' 0xF = 0 /\
    I s' <> (I add_i_vf + reg add_i_vf 0xF) mod 65536.
Proof.
  repeat split; try (vm_compute; reflexivity).
  eexists. split; [vm_compute; reflexivity|].
  repeat split; try (vm_compute; reflexivity). vm_compute. discriminate.
Qed.

(** ** 8xy6 and 8xyE, the shifts (C10) *)

Lemma exec_shr_eq s x :
  wf s -> 0 <= x < 16 ->
  let s1 := with_V 0xF (u8 (Z.land (reg s x) 1)) s in
  exec_shr x s = Some (advance 2 (with_V x (u8 (Z.shiftr (reg s1 x) 1)) s1)).
Proof.
  intros Hwf Hx s1. unfold exec_shr.
  rewrite rd_reg by done. cbn [mbind option_bind].
  rewrite put_V_with by (done || lia). cbn [mbind option_bind]. fold s1.
  assert (wf s1) as Hwf1 by (apply wf_with_V; [done|apply u8_range]).
  rewrite rd_reg by done. cbn [mbind option_bind].
  by rewrite put_V_with by done.
Qed.

Lemma exec_shl_eq s x :
  wf s -> 0 <= x < 16 ->
  let s1 := with_V 0xF (u8 (Z.shiftr (reg s x) 7)) s in
  exec_shl x s = Some (advance 2 (with_V x (u8 (Z.shiftl (reg s1 x) 1)) s1)).
Proof.
  intros Hwf Hx s1. unfold exec_shl.
  rewrite rd_reg by done. cbn [mbind option_bind].
  rewrite put_V_with by (done || lia). cbn [mbind option_bind]. fold s1.
  assert (wf s1) as Hwf1 by (apply wf_with_V; [done|apply u8_range]).
  rewrite rd_reg by done. cbn [mbind option_bind].
  by rewrite put_V_with by done.
Qed.

Lemma exec_mk_shr rnd s x y :
  0 <= x < 16 -> 0 <= y < 16 ->
  exec rnd (mk_instr 0x8 x y 0x6) s = thru (exec_shr x s).
Proof.
  intros Hx Hy. unfold exec.
  rewrite op_of_mk_instr, n_of_mk_instr, x_of_mk_instr by lia. done.
Qed.

Lemma exec_mk_shl rnd s x y :
  0 <= x < 16 -> 0 <= y < 16 ->
  exec rnd (mk_instr 0x8 x y 0xE) s = thru (exec_shl x s).
Proof.
  intros Hx Hy. unfold exec.
  rewrite op_of_mk_instr, n_of_mk_instr, x_of_mk_instr by lia. done.
Qed.

Lemma shr_values v :
  is_u8 v -> u8 (Z.land v 1) = v mod 2 /\ u8 (Z.shiftr v 1) = v / 2.
Proof.
  unfold is_u8. intros Hv. change 1 with (Z.ones 1) at 1.
  rewrite Z.land_ones, Z.shiftr_div_pow2 by lia.
  change (2 ^ 1) with 2. split; apply u8_id; unfold is_u8.
  - pose proof (Z.mod_pos_bound v 2). lia.
  - pose proof (Z.div_pos v 2).
    assert (v / 2 < 256) by (apply Z.div_lt_upper_bound; lia). lia.
Qed.

Lemma shl_values v :
  is_u8 v -> u8 (Z.shiftr v 7) = v / 128 /\ u8 (Z.shiftl v 1) = (2 * v) mod 256.
Proof.
  unfold is_u8. intros Hv.
  rewrite Z.shiftl_mul_pow2, Z.shiftr_div_pow2 by lia.
  change (2 ^ 7) with 128. change (2 ^ 1) with 2. split.
  - apply u8_id. unfold is_u8. pose proof (Z.div_pos v 128).
    assert (v / 128 < 256) by (apply Z.div_lt_upper_bound; lia). lia.
  - unfold u8. f_equal. lia.
Qed.

(** C10, amended: for every state and nibbles [x], [y1], [y2], the words
    8x(y1)6 and 8x(y2)6 lead to the same state, and so do 8x(y1)E and
    8x(y2)E; both instructions run; and when [x] is not [0xF], [V[0xF]]
    receives the bit shifted out of [V[x]] (the lowest for SHR, the highest
    for SHL) and [V[x]] the halved, respectively doubled modulo 256,
    value. *)
Theorem shifts_ignore_y (rnd : Z) (s : Chip8) (x y1 y2 : Z) :
  wf s -> 0 <= x < 16 -> 0 <= y1 < 16 -> 0 <= y2 < 16 ->
  (exec rnd (mk_instr 0x8 x y1 0x6) s = exec rnd (mk_instr 0x8 x y2 0x6) s /\
   exists s', exec rnd (mk_instr 0x8 x y1 0x6) s = Some (Fallthrough s') /\
              (x <> 0xF -> shr_result s' x (reg s x))) /\
  (exec rnd (mk_instr 0x8 x y1 0xE) s = exec rnd (mk_instr 0x8 x y2 0xE) s /\
   exists s', exec rnd (mk_instr 0x8 x y1 0xE) s = Some (Fallthrough s') /\
              (x <> 0xF -> shl_result s' x (reg s x))).
Proof.
  intros Hwf Hx Hy1 Hy2. rewrite !exec_mk_shr, !exec_mk_shl by done.
  pose proof (reg_u8 s x Hwf Hx) as Hv.
  split; (split; [done|]).
  - rewrite exec_shr_eq by done. eexists. split; [reflexivity|].
    intros Hne. unfold shr_result.
    assert (wf (with_V 15 (u8 (Z.land (reg s x) 1)) s)) as Hwf1
      by (apply wf_with_V; [done|apply u8_range]).
    rewrite !reg_advance, reg_with_V_ne, reg_with_V_eq by (done || lia).
    rewrite reg_with_V_eq, reg_with_V_ne by (done || lia).
    apply (shr_values _ Hv).
  - rewrite exec_shl_eq by done. eexists. split; [reflexivity|].
    intros Hne. unfold shl_result.
    assert (wf (with_V 15 (u8 (Z.shiftr (reg s x) 7)) s)) as Hwf1
      by (apply wf_with_V; [done|apply u8_range]).
    rewrite !reg_advance, reg_with_V_ne, reg_with_V_eq by (done || lia).
    rewrite reg_with_V_eq, reg_with_V_ne by (done || lia).
    apply (shl_values _ Hv).
Qed.

(** C10, amended, on [V[1]] with the [y] fields 2 and 7. *)
Lemma shifts_ignore_y_witness :
  (exec 0 (mk_instr 0x8 1 2 0x6) shift_me
   = exec 0 (mk_instr 0x8 1 7 0x6) shift_me /\
   exists s', exec 0 (mk_instr 0x8 1 2 0x6) shift_me = Some (Fallthrough s') /\
              (1 <> 0xF -> shr_result s' 1 (reg shift_me 1))) /\
  (exec 0 (mk_instr 0x8 1 2 0xE) shift_me
   = exec 0 (mk_instr 0x8 1 7 0xE) shift_me /\
   exists s', exec 0 (mk_instr 0x8 1 2 0xE) shift_me = Some (Fallthrough s') /\
              (1 <> 0xF -> shl_result s' 1 (reg shift_me 1))).
Proof.
  apply (shifts_ignore_y 0 shift_me 1 2 7).
  - apply wfb_wf. vm_compute. reflexivity.
  - lia.
  - lia.
  - lia.
Defined.

(** With [x = 0xF] and [V[0xF] = 3], SHR should leave 1 in [V[0xF]] (it
    is both the bit shifted out and the halved value); the code stores the
    bit and then halves it, leaving 0. *)
Lemma shifts_as_stated_counterexample : ~ shifts_as_stated.
Proof.
  intros H.
  destruct (H 0 shift_me 0xF 0 0) as [[_ (s' & Hs' & Hflag & _)] _];
    try lia.
  - apply wfb_wf. vm_compute. reflexivity.
  - vm_compute in Hs'. injection Hs' as <-. vm_compute in Hflag.
    discriminate.
Qed.

(** ** Fx0A with a key down (C4) *)

Lemma any_key_succ s j k :
  0 <= j -> rd (keys s) j = Some k -> any_key s (j + 1) = any_key s j || k.
Proof.
  intros Hj Hk. unfold any_key. rewrite rd_lookup in Hk by done.
  replace (Z.to_nat (j + 1)) with (S (Z.to_nat j)) by lia.
  rewrite (take_S_r _ _ _ Hk), existsb_app. simpl.
  by rewrite orb_false_r.
Qed.

Lemma any_key_all s i :
  wf s -> 0 <= i < 16 -> rd (keys s) i = Some true -> any_key s 16 = true.
Proof.
  intros Hwf Hi Hk. unfold any_key.
  rewrite take_ge by (pose proof (wf_keys_len s Hwf); lia).
  apply existsb_exists. exists true. split; [|done].
  rewrite rd_lookup in Hk by lia. apply list_elem_of_In.
  by eapply list_elem_of_lookup_2.
Qed.

Lemma with_V_twice i a b s : with_V i a (with_V i b s) = with_V i a s.
Proof.
  unfold with_V, set_V. simpl. by rewrite list_insert_insert_eq.
Qed.

Lemma with_V_reg s i : wf s -> 0 <= i < 16 -> with_V i (reg s i) s = s.
Proof.
  intros Hwf Hi. unfold with_V.
  rewrite (insert_rd_id (V s) i (reg s i)) by (by apply rd_reg).
  apply set_V_id.
Qed.

(** The scan loop: once a key is seen, every later iteration stores its own
    index, so the loop ends with 15 in [V[x]]. *)
Lemma key_loop_eq x s :
  wf s -> 0 <= x < 16 ->
  for_loop 16 0 (key_scan x) (false, s)
  = Some (any_key s 16, if any_key s 16 then with_V x 15 s else s).
Proof.
  intros Hwf Hx.
  destruct (for_loop_inv
              (fun j t => t = (any_key s j,
                               if any_key s j then with_V x (j - 1) s else s))
              (key_scan x) 16 0 (false, s)) as (t & Ht & ->); [done| |done].
  intros j t Hj ->. unfold key_scan. cbn [fst snd].
  assert (keys (if any_key s j then with_V x (j - 1) s else s) = keys s)
    as -> by (by destruct (any_key s j)).
  destruct (rd_keys s Hwf j) as [k Hk]; [lia|]. rewrite Hk.
  cbn [mbind option_bind]. rewrite (any_key_succ s j k) by (done || lia).
  replace (j + 1 - 1) with j by lia.
  assert (is_u8 j) as Hj8 by (unfold is_u8; lia).
  destruct (any_key s j) eqn:Hany; cbn [orb].
  - assert (wf (with_V x (j - 1) s)) as Hwf1.
    { apply wf_with_V; [done|]. unfold is_u8.
      assert (j <> 0); [|lia]. intros ->. discriminate. }
    rewrite rd_reg by done. cbn [mbind option_bind].
    rewrite put_V_with by done. cbn [mbind option_bind].
    rewrite (u8_id j Hj8), with_V_twice. eauto.
  - rewrite rd_reg by done. cbn [mbind option_bind].
    rewrite put_V_with by done. cbn [mbind option_bind].
    destruct k.
    + rewrite (u8_id j Hj8). eauto.
    + rewrite (u8_id _ (reg_u8 s x Hwf Hx)), with_V_reg by done. eauto.
Qed.

(** (X3) Fx0A with a key down: the cycle runs and leaves 15 in [V[x]],
    whichever key it is, and [PC] advances by 2.  Once the scan loop has
    seen a key, every later iteration stores its own index. *)
Lemma key_wait_latches_15 (rnd : Z) (s : Chip8) (w : Z) (i : Z) :
  wf s ->
  fetch s = Some w ->
  op_of w = 0xF -> kk_of w = 0x0A ->
  0 <= i < 16 -> rd (keys s) i = Some true ->
  exists s',
    executeCycle rnd s = Some s' /\ reg s' (x_of w) = 15 /\ PC s' = PC s + 2.
Proof.
  intros Hwf Hf Hop Hkk Hi Hk.
  pose proof (x_of_range w) as Hx.
  exists (update_timers (advance 2 (with_V (x_of w) 15 s))). split.
  { apply (step_thru rnd s w); [done|]. dispatch Hop Hkk.
    unfold exec_ld_vx_k. rewrite key_loop_eq by done.
    rewrite (any_key_all s i) by done. done. }
  rewrite reg_update_timers, PC_update_timers, reg_advance, PC_advance.
  split.
  - by rewrite reg_with_V_eq.
  - rewrite PC_with_V. by apply (advance_2_PC s Hwf w).
Qed.

(** C4, the failing run: with key 3 alone down, F00A should store 3, the
    highest (and only) key down; the code stores 15. *)
Theorem key_wait_stores_last_index :
  fetch key3_down = Some 0xF00A /\
  highest_key key3_down = Some 3 /\
  exists s',
    executeCycle 0 key3_down = Some s' /\ reg s' 0 = 15 /\
    PC s' = PC key3_down + 2.
Proof.
  split; [vm_compute; reflexivity|]. split; [vm_compute; reflexivity|].
  eexists. split; [vm_compute; reflexivity|].
  split; vm_compute; reflexivity.
Qed.

(** ** Bits of a byte *)

Lemma bit_extract v sh :
  0 <= sh -> Z.shiftr (Z.land v (Z.shiftl 1 sh)) sh = b2z (Z.testbit v sh).
Proof.
  intros Hsh. rewrite Z.shiftr_land, Z.shiftr_shiftl_l by lia.
  rewrite Z.sub_diag, Z.shiftl_0_r. change 1 with (Z.ones 1).
  rewrite Z.land_ones by lia. change (2 ^ 1) with 2.
  rewrite <- Z.bit0_mod, Z.shiftr_spec by lia. rewrite Z.add_0_l.
  by destruct (Z.testbit v sh).
Qed.

Lemma testbit_b2z b k : Z.testbit (b2z b) k = b && (k =? 0).
Proof.
  destruct b; simpl.
  - destruct k; done.
  - by rewrite Z.testbit_0_l.
Qed.

Lemma testbit_xor_bit d b sh k :
  0 <= sh -> 0 <= k < 8 ->
  Z.testbit (u8 (Z.lxor d (Z.shiftl (b2z b) sh))) k
  = xorb (Z.testbit d k) (b && (k =? sh)).
Proof.
  intros Hsh Hk. unfold u8. change 256 with (2 ^ 8).
  rewrite Z.mod_pow2_bits_low by lia.
  rewrite Z.lxor_spec, Z.shiftl_spec by lia. rewrite testbit_b2z.
  do 2 f_equal. destruct (Z.eqb_spec k sh), (Z.eqb_spec (k - sh) 0); lia.
Qed.

(** Bytes with the same eight bits are equal. *)
Lemma u8_ext a b :
  is_u8 a -> is_u8 b ->
  (forall k, 0 <= k < 8 -> Z.testbit a k = Z.testbit b k) -> a = b.
Proof.
  unfold is_u8. intros Ha Hb H. apply Z.bits_inj'. intros k Hk.
  destruct (Z_lt_dec k 8) as [Hlt|Hge]; [apply H; lia|].
  rewrite <- (Z.mod_small a (2 ^ 8)), <- (Z.mod_small b (2 ^ 8)) by done.
  by rewrite !Z.mod_pow2_bits_high by lia.
Qed.

(** The flag update of the inner loop, on truth values. *)
Lemma collision_update c o b :
  u8 (Z.lor (b2z c)
        (b2z (negb (u8 (b2z o) =? 0)
              && (u8 (Z.lxor (u8 (b2z o)) (b2z b)) =? 0))))
  = b2z (c || (o && b)).
Proof. by destruct c, o, b. Qed.

(** ** One sprite bit on the display *)

Lemma plot_is_display cell dc : is_display dc.1 -> is_display (plot cell dc).1.
Proof.
  intros [Hl Hd]. split; simpl.
  - by rewrite length_insert.
  - apply Forall_insert; [done|apply u8_range].
Qed.

Lemma plots_is_display cells dc :
  is_display dc.1 -> is_display (plots cells dc).1.
Proof.
  revert dc. induction cells as [|cell cells IH]; intros dc Hd; [done|].
  simpl. apply IH. by apply plot_is_display.
Qed.

Lemma bit_index_split bi bi' :
  bi / 8 = bi' / 8 -> bi mod 8 = bi' mod 8 -> bi = bi'.
Proof.
  intros Hd Hm. rewrite (Z.div_mod bi 8), (Z.div_mod bi' 8) by lia.
  by rewrite Hd, Hm.
Qed.

Lemma getbit_plot bi b d c bi' :
  Z.of_nat (length d) = 256 ->
  0 <= bi < 2048 -> 0 <= bi' ->
  getbit (plot (bi, b) (d, c)).1 bi' = xorb (getbit d bi') (b && (bi' =? bi)).
Proof.
  intros Hl Hbi Hbi'. unfold getbit, plot. cbn [fst snd].
  assert (0 <= bi / 8 < 256) as Hq by (split; [apply Z.div_pos|apply Z.div_lt_upper_bound]; lia).
  pose proof (Z.mod_pos_bound bi 8) as Hr.
  pose proof (Z.mod_pos_bound bi' 8) as Hr'.
  assert (0 <= bi' / 8) as Hq' by (apply Z.div_pos; lia).
  destruct (decide (bi' / 8 = bi / 8)) as [He|Hne].
  - rewrite He, rd_insert_eq by lia. cbn [from_option id].
    rewrite testbit_xor_bit by lia. do 2 f_equal.
    destruct (Z.eqb_spec (7 - bi' mod 8) (7 - bi mod 8)) as [Hm|Hm],
             (Z.eqb_spec bi' bi) as [Hb|Hb]; try done.
    + destruct Hb. apply bit_index_split; lia.
    + subst. lia.
  - rewrite rd_insert_ne by lia.
    destruct (Z.eqb_spec bi' bi) as [->|Hb]; [done|].
    by rewrite andb_false_r, xorb_false_r.
Qed.

(** ** A list of sprite bits on the display *)

Lemma plots_cons cell cells dc :
  plots (cell :: cells) dc = plots cells (plot cell dc).
Proof. done. Qed.

Lemma plots_app cells1 cells2 dc :
  plots (cells1 ++ cells2) dc = plots cells2 (plots cells1 dc).
Proof. apply foldl_app. Qed.

Lemma mask_cons cell cells bi :
  mask (cell :: cells) bi = (cell.1 =? bi) && cell.2 || mask cells bi.
Proof. done. Qed.

Lemma hits_cons d cell cells :
  hits d (cell :: cells) = getbit d cell.1 && cell.2 || hits d cells.
Proof. done. Qed.

Lemma plot_fst_length cell dc : length (plot cell dc).1 = length dc.1.
Proof. unfold plot. cbn [fst]. by rewrite length_insert. Qed.

Lemma plot_snd cell dc : (plot cell dc).2 = dc.2 || (getbit dc.1 cell.1 && cell.2).
Proof. done. Qed.

Lemma mask_notin cells bi : bi ∉ cells.*1 -> mask cells bi = false.
Proof.
  induction cells as [|cell cells IH]; [done|].
  rewrite fmap_cons, not_elem_of_cons. intros [Hne Hnotin].
  rewrite mask_cons, IH by done.
  destruct (Z.eqb_spec cell.1 bi) as [Heq|_]; [|done]. by destruct Hne.
Qed.

Lemma mask_in cells bi b :
  NoDup cells.*1 -> (bi, b) ∈ cells -> mask cells bi = b.
Proof.
  induction cells as [|cell cells IH]; [by intros _ ?%elem_of_nil|].
  rewrite fmap_cons, NoDup_cons, elem_of_cons, mask_cons.
  intros [Hnotin Hnd] [Heq|Hin].
  - subst cell. cbn [fst snd]. rewrite Z.eqb_refl, mask_notin by done.
    by destruct b.
  - rewrite (IH Hnd Hin).
    destruct (Z.eqb_spec cell.1 bi) as [Heq|_]; [|done].
    destruct Hnotin. apply list_elem_of_fmap. exists (bi, b). by split.
Qed.

Lemma hits_plot_notin bi b dc cells :
  Z.of_nat (length dc.1) = 256 -> 0 <= bi < 2048 ->
  on_screen cells -> bi ∉ cells.*1 ->
  hits (plot (bi, b) dc).1 cells = hits dc.1 cells.
Proof.
  intros Hl Hbi. induction cells as [|cell cells IH]; [done|].
  rewrite fmap_cons, not_elem_of_cons. unfold on_screen.
  rewrite Forall_cons. intros [Hr Hon] [Hne Hnotin].
  rewrite !hits_cons, IH by done. destruct dc as [d c].
  rewrite (getbit_plot bi b d c cell.1) by (done || lia).
  destruct (Z.eqb_spec cell.1 bi) as [Heq|_]; [by destruct Hne|].
  by rewrite andb_false_r, xorb_false_r.
Qed.

(** The display after the cells: each pixel is XORed with the sprite bit
    that lies on it, if any. *)
Lemma getbit_plots cells dc bi :
  Z.of_nat (length dc.1) = 256 -> on_screen cells -> NoDup cells.*1 ->
  0 <= bi ->
  getbit (plots cells dc).1 bi = xorb (getbit dc.1 bi) (mask cells bi).
Proof.
  intros Hl Hon Hnd Hbi. revert dc Hl.
  induction cells as [|cell cells IH]; intros dc Hl.
  { cbn [plots foldl]. by rewrite xorb_false_r. }
  apply Forall_cons in Hon as [Hr Hon].
  rewrite fmap_cons in Hnd. apply NoDup_cons in Hnd as [Hnotin Hnd].
  rewrite plots_cons, IH by (by rewrite ?plot_fst_length).
  destruct cell as [bi' b'], dc as [d c]. cbn [fst snd] in *.
  rewrite getbit_plot, mask_cons by (done || lia). cbn [fst snd].
  destruct (Z.eqb_spec bi bi') as [->|Hne].
  - rewrite Z.eqb_refl, mask_notin by done.
    by destruct (getbit d bi'), b'.
  - destruct (Z.eqb_spec bi' bi) as [->|_]; [done|].
    by rewrite andb_false_r, xorb_false_r.
Qed.

(** The collision after the cells: a set sprite bit on a pixel that was
    lit before the cells were drawn. *)
Lemma collision_plots cells dc :
  Z.of_nat (length dc.1) = 256 -> on_screen cells -> NoDup cells.*1 ->
  (plots cells dc).2 = dc.2 || hits dc.1 cells.
Proof.
  intros Hl Hon Hnd. revert dc Hl.
  induction cells as [|cell cells IH]; intros dc Hl.
  { cbn [plots foldl]. by rewrite orb_false_r. }
  apply Forall_cons in Hon as [Hr Hon].
  rewrite fmap_cons in Hnd. apply NoDup_cons in Hnd as [Hnotin Hnd].
  rewrite plots_cons, IH by (by rewrite ?plot_fst_length).
  destruct cell as [bi' b']. cbn [fst] in *.
  rewrite hits_plot_notin, plot_snd, hits_cons by done.
  by rewrite orb_assoc.
Qed.

(** ** The draw loops as a list of cells *)

Lemma cell_of_range nb r sc col :
  0 <= r < 32 -> 0 <= (cell_of nb r sc col).1 < 2048.
Proof.
  intros Hr. unfold cell_of. cbn [fst].
  pose proof (Z.mod_pos_bound (sc + col) 64). lia.
Qed.

Lemma draw_pixel_painted nb r sc col dc s :
  wf s -> Z.of_nat (length dc.1) = 256 ->
  0 <= r < 32 -> 0 <= col < 8 ->
  draw_pixel nb r sc col (painted dc s)
  = Some (painted (plot (cell_of nb r sc col) dc) s).
Proof.
  intros Hwf Hl Hr Hcol. unfold draw_pixel. cbv zeta.
  pose proof (cell_of_range nb r sc col Hr) as Hbi.
  unfold cell_of in Hbi. cbn [fst] in Hbi.
  set (bi := r * 64 + (sc + col) mod 64) in *.
  pose proof (Z.mod_pos_bound bi 8) as Hm.
  assert (0 <= bi / 8 < 256) as Hq.
  { split; [apply Z.div_pos; lia|apply Z.div_lt_upper_bound; lia]. }
  change (display (painted dc s)) with dc.1.
  destruct (rd_is_Some dc.1 (bi / 8)) as [d Hd]; [lia|].
  rewrite Hd. cbn [mbind option_bind].
  rewrite wr_Some by lia. cbn [mbind option_bind].
  rewrite !bit_extract by lia.
  set (d1 := <[Z.to_nat (bi / 8) := _]> dc.1).
  assert (rd (V (set_display d1 (painted dc s))) 15 = Some (b2z dc.2)) as ->.
  { cbn [V set_display painted with_V set_V].
    apply (rd_insert_eq (V s) 15). rewrite (wf_V_len s Hwf). lia. }
  cbn [mbind option_bind]. rewrite collision_update.
  unfold put_V. rewrite wr_Some.
  2:{ cbn [V set_display painted with_V set_V]. rewrite length_insert.
      rewrite (wf_V_len s Hwf). lia. }
  cbn [mbind option_bind]. f_equal.
  unfold painted, plot, with_V, set_V, set_display, cell_of, getbit.
  cbn [fst snd V DT ST SP I stack keys memory PC display draw]. fold bi.
  rewrite Hd. cbn [from_option id]. by rewrite list_insert_insert_eq.
Qed.

Lemma inner_loop_painted nb r sc (k : nat) j dc s :
  wf s -> Z.of_nat (length dc.1) = 256 ->
  0 <= r < 32 -> 0 <= j -> j + Z.of_nat k <= 8 ->
  for_loop k j (draw_pixel nb r sc) (painted dc s)
  = Some (painted (plots (row_cells nb r sc j (Z.of_nat k)) dc) s).
Proof.
  intros Hwf Hl Hr. revert j dc Hl.
  induction k as [|k IH]; intros j dc Hl Hj Hjk; [done|].
  cbn [for_loop]. rewrite draw_pixel_painted by (done || lia).
  cbn [mbind option_bind].
  rewrite IH by (rewrite ?plot_fst_length; done || lia).
  unfold row_cells. rewrite (seqZ_cons j (Z.of_nat (S k))) by lia.
  replace (Z.succ j) with (j + 1) by lia.
  replace (Z.pred (Z.of_nat (S k))) with (Z.of_nat k) by lia.
  by rewrite fmap_cons, plots_cons.
Qed.

Lemma plots_fst_length cells dc : length (plots cells dc).1 = length dc.1.
Proof.
  revert dc. induction cells as [|cell cells IH]; intros dc; [done|].
  by rewrite plots_cons, IH, plot_fst_length.
Qed.

Lemma draw_row_painted sr sc row dc s :
  wf s -> Z.of_nat (length dc.1) = 256 ->
  0 <= I s + row < 4096 ->
  draw_row sr sc row (painted dc s)
  = Some (painted (plots (sprite_row s sr sc row) dc) s).
Proof.
  intros Hwf Hl Hrow. unfold draw_row.
  change (memory (painted dc s)) with (memory s).
  change (I (painted dc s)) with (I s).
  destruct (rd_memory s Hwf (I s + row) Hrow) as (nb & Hnb & _).
  rewrite Hnb. cbn [mbind option_bind].
  pose proof (Z.mod_pos_bound (sr + row) 32).
  rewrite (inner_loop_painted nb ((sr + row) mod 32) sc 8 0) by (done || lia).
  unfold sprite_row, sprite_byte. by rewrite Hnb.
Qed.

Lemma outer_loop_painted sr sc (k : nat) i dc s :
  wf s -> Z.of_nat (length dc.1) = 256 ->
  0 <= I s + i -> I s + i + Z.of_nat k <= 4096 ->
  for_loop k i (draw_row sr sc) (painted dc s)
  = Some (painted (plots (sprite_cells s sr sc i (Z.of_nat k)) dc) s).
Proof.
  intros Hwf. revert i dc.
  induction k as [|k IH]; intros i dc Hl Hi Hik; [done|].
  cbn [for_loop]. rewrite draw_row_painted by (done || lia).
  cbn [mbind option_bind].
  rewrite IH by (rewrite ?plots_fst_length; done || lia).
  unfold sprite_cells. rewrite (seqZ_cons i (Z.of_nat (S k))) by lia.
  replace (Z.succ i) with (i + 1) by lia.
  replace (Z.pred (Z.of_nat (S k))) with (Z.of_nat k) by lia.
  by rewrite bind_cons, plots_app.
Qed.

Lemma painted_self s : painted (display s, false) s = with_V 0xF 0 s.
Proof. by destruct s. Qed.

(** The whole branch. *)
Lemma exec_drw_eq x y n s :
  wf s -> 0 <= x < 16 -> 0 <= y < 16 -> 0 <= n -> I s + n <= 4096 ->
  let startCol := reg (with_V 0xF 0 s) x in
  let startRow := reg (with_V 0xF 0 s) y in
  exec_drw x y n s
  = Some (advance 2 (set_draw true
            (painted (plots (sprite_cells s startRow startCol 0 n)
                        (display s, false)) s))).
Proof.
  intros Hwf Hx Hy Hn HI startCol startRow. unfold exec_drw.
  rewrite put_V_with by (done || lia). cbn [mbind option_bind].
  assert (wf (with_V 15 0 s)) as Hwf0
    by (apply wf_with_V; [done|unfold is_u8; lia]).
  rewrite !rd_reg by done. cbn [mbind option_bind].
  fold startCol startRow. rewrite <- painted_self.
  pose proof (wf_I s Hwf) as HI0. unfold is_u16 in HI0.
  rewrite outer_loop_painted
    by (done || (cbn [fst]; apply (wf_display_len s Hwf)) || lia).
  cbn [mbind option_bind]. by rewrite Z2Nat.id by lia.
Qed.

(** ** Where the cells of a sprite lie *)

Lemma mod_inj_near a b m :
  0 < m -> - m < a - b < m -> a mod m = b mod m -> a = b.
Proof.
  intros Hm Hab Heq.
  pose proof (Z.div_mod a m). pose proof (Z.div_mod b m).
  assert (a - b = m * (a / m - b / m)) as Hd by lia.
  assert (a / m - b / m = 0) by nia. lia.
Qed.

Lemma bit_index_inj sr sc row col row' col' :
  0 <= row < 32 -> 0 <= row' < 32 -> 0 <= col < 64 -> 0 <= col' < 64 ->
  bit_index sr sc row col = bit_index sr sc row' col' ->
  row = row' /\ col = col'.
Proof.
  unfold bit_index. intros Hr Hr' Hc Hc' Heq.
  pose proof (Z.mod_pos_bound (sc + col) 64).
  pose proof (Z.mod_pos_bound (sc + col') 64).
  assert ((sr + row) mod 32 = (sr + row') mod 32) as Hrow by lia.
  assert ((sc + col) mod 64 = (sc + col') mod 64) as Hcol by lia.
  apply mod_inj_near in Hrow; [|lia..]. apply mod_inj_near in Hcol; [|lia..].
  lia.
Qed.

Lemma bit_index_range sr sc row col : 0 <= bit_index sr sc row col < 2048.
Proof.
  unfold bit_index.
  pose proof (Z.mod_pos_bound (sr + row) 32).
  pose proof (Z.mod_pos_bound (sc + col) 64). lia.
Qed.

Lemma elem_of_sprite_cells s sr sc n cell :
  cell ∈ sprite_cells s sr sc 0 n <->
  exists row col, 0 <= row < n /\ 0 <= col < 8 /\
    cell = (bit_index sr sc row col, sprite_bit s row col).
Proof.
  unfold sprite_cells, sprite_row, row_cells.
  rewrite list_elem_of_bind. split.
  - intros (row & (col & -> & Hcol%elem_of_seqZ)%list_elem_of_fmap
            & Hrow%elem_of_seqZ).
    exists row, col. repeat split; try lia.
  - intros (row & col & Hrow & Hcol & ->). exists row. split.
    + apply list_elem_of_fmap. exists col. split; [done|].
      apply elem_of_seqZ. lia.
    + apply elem_of_seqZ. lia.
Qed.

Lemma sprite_cells_on_screen s sr sc n : on_screen (sprite_cells s sr sc 0 n).
Proof.
  apply Forall_forall. intros cell (row & col & _ & _ & ->)%elem_of_sprite_cells.
  apply bit_index_range.
Qed.

Lemma fmap_fst_bind {A B C} (f : A -> list (B * C)) (l : list A) :
  (l ≫= f).*1 = l ≫= (fun a => (f a).*1).
Proof.
  induction l as [|a l IH]; [done|].
  by rewrite !bind_cons, fmap_app, IH.
Qed.

Lemma sprite_cells_NoDup s sr sc n :
  n <= 32 -> NoDup (sprite_cells s sr sc 0 n).*1.
Proof.
  intros Hn. unfold sprite_cells. rewrite fmap_fst_bind.
  apply NoDup_bind; [| |apply NoDup_seqZ].
  - intros row row' bi Hrow%elem_of_seqZ Hrow'%elem_of_seqZ.
    unfold sprite_row, row_cells. rewrite <- !list_fmap_compose.
    intros (col & -> & Hcol%elem_of_seqZ)%list_elem_of_fmap
           (col' & Heq & Hcol'%elem_of_seqZ)%list_elem_of_fmap.
    apply (bit_index_inj sr sc row col row' col'); (done || lia).
  - intros row Hrow%elem_of_seqZ.
    unfold sprite_row, row_cells. rewrite <- list_fmap_compose.
    apply NoDup_fmap_2_strong; [|apply NoDup_seqZ].
    intros col col' Hcol%elem_of_seqZ Hcol'%elem_of_seqZ Heq.
    apply (bit_index_inj sr sc row col row col'); (done || lia).
Qed.

(** ** The draw instruction as a whole *)

Lemma start_col_reg s w : x_of w <> 0xF -> start_col s w = reg s (x_of w).
Proof.
  intros Hx. pose proof (x_of_range w). unfold start_col.
  by rewrite reg_with_V_ne by lia.
Qed.

Lemma start_row_reg s w : y_of w <> 0xF -> start_row s w = reg s (y_of w).
Proof.
  intros Hy. pose proof (y_of_range w). unfold start_row.
  by rewrite reg_with_V_ne by lia.
Qed.

Lemma step_drw rnd s w :
  wf s -> fetch s = Some w -> op_of w = 0xD -> I s + n_of w <= 4096 ->
  executeCycle rnd s = Some (drawn s w).
Proof.
  intros Hwf Hf Hop HI. apply (step_thru rnd s w); [done|].
  dispatch Hop Hop.
  pose proof (x_of_range w). pose proof (y_of_range w).
  pose proof (n_of_range w).
  by rewrite exec_drw_eq by (done || lia).
Qed.

Lemma drawn_cells_on_screen s w : on_screen (drawn_cells s w).
Proof. apply sprite_cells_on_screen. Qed.

Lemma drawn_cells_NoDup s w : NoDup (drawn_cells s w).*1.
Proof. apply sprite_cells_NoDup. pose proof (n_of_range w). lia. Qed.

Lemma wf_is_display s : wf s -> is_display (display s).
Proof. intros Hwf. split; [apply (wf_display_len s Hwf)|apply (wf_display s Hwf)]. Qed.

Lemma wf_painted dc s : wf s -> is_display dc.1 -> wf (painted dc s).
Proof.
  intros Hwf [Hl Hd]. apply wf_with_V; [|apply b2z_u8].
  by apply wf_set_display.
Qed.

Lemma wf_update_timers s : wf s -> wf (update_timers s).
Proof.
  intros []. unfold update_timers.
  destruct (0 <? DT s); cbn [ST set_DT]; destruct (0 <? ST s);
    constructor; simpl; try done; apply u8_range.
Qed.

Lemma wf_advance k s : wf s -> wf (advance k s).
Proof. intros []. constructor; simpl; try done. apply u16_range. Qed.

Lemma wf_set_draw b s : wf s -> wf (set_draw b s).
Proof. intros []. by constructor. Qed.

Lemma wf_drawn s w : wf s -> wf (drawn s w).
Proof.
  intros Hwf. apply wf_update_timers, wf_advance, wf_set_draw, wf_painted;
    [done|]. by apply plots_is_display, wf_is_display.
Qed.

Lemma display_drawn s w :
  display (drawn s w) = (plots (drawn_cells s w) (display s, false)).1.
Proof.
  unfold drawn. by destruct (update_timers_frame
    (advance 2 (set_draw true
       (painted (plots (drawn_cells s w) (display s, false)) s))))
    as (_ & _ & _ & _ & _ & _ & _ & -> & _).
Qed.

Lemma flag_drawn s w :
  wf s -> reg (drawn s w) 0xF = b2z (hits (display s) (drawn_cells s w)).
Proof.
  intros Hwf. unfold drawn. rewrite reg_update_timers, reg_advance.
  unfold reg at 1. cbn [V set_draw].
  fold (reg (painted (plots (drawn_cells s w) (display s, false)) s) 15).
  unfold painted. rewrite reg_with_V_eq; [| |lia].
  2:{ apply wf_set_display; [done|apply plots_is_display..];
        by apply wf_is_display. }
  rewrite collision_plots;
    [done|apply (wf_display_len s Hwf)|apply drawn_cells_on_screen
    |apply drawn_cells_NoDup].
Qed.

(** ** Dxyn (C1) *)

Lemma pixel_bit_index d sr sc row col :
  pixel d ((sr + row) mod 32) ((sc + col) mod 64)
  = getbit d (bit_index sr sc row col).
Proof. done. Qed.

Lemma drawn_cells_elem s w cell :
  cell ∈ drawn_cells s w <->
  exists row col, 0 <= row < n_of w /\ 0 <= col < 8 /\
    cell = (bit_index (start_row s w) (start_col s w) row col,
            sprite_bit s row col).
Proof. apply elem_of_sprite_cells. Qed.

Lemma hits_true d cells :
  hits d cells = true <->
  exists cell, cell ∈ cells /\ getbit d cell.1 = true /\ cell.2 = true.
Proof.
  unfold hits. rewrite existsb_exists. split.
  - intros (cell & Hin%list_elem_of_In & [Hg Hc]%andb_true_iff). eauto.
  - intros (cell & Hin%list_elem_of_In & Hg & Hc). exists cell.
    by rewrite Hg, Hc.
Qed.

Lemma b2z_1 b : b2z b = 1 <-> b = true.
Proof. by destruct b. Qed.

Lemma b2z_cases b : b2z b = 0 \/ b2z b = 1.
Proof. destruct b; auto. Qed.

(** The effect of the instruction on every pixel and on the flag, with the
    start coordinates as the branch reads them. *)
Lemma draw_sprite_effect (rnd : Z) (s : Chip8) (w : Z) :
  wf s ->
  fetch s = Some w ->
  op_of w = 0xD ->
  I s + n_of w <= 4096 ->
  let vx := start_col s w in
  let vy := start_row s w in
  exists s',
    executeCycle rnd s = Some s' /\
    (forall row col, 0 <= row < n_of w -> 0 <= col < 8 ->
       pixel (display s') ((vy + row) mod 32) ((vx + col) mod 64)
       = xorb (pixel (display s) ((vy + row) mod 32) ((vx + col) mod 64))
              (sprite_bit s row col)) /\
    (forall r c, 0 <= r < 32 -> 0 <= c < 64 ->
       (forall row col, 0 <= row < n_of w -> 0 <= col < 8 ->
          (r, c) <> ((vy + row) mod 32, (vx + col) mod 64)) ->
       pixel (display s') r c = pixel (display s) r c) /\
    (reg s' 0xF = 1 <->
     exists row col, 0 <= row < n_of w /\ 0 <= col < 8 /\
       sprite_bit s row col = true /\
       pixel (display s) ((vy + row) mod 32) ((vx + col) mod 64) = true) /\
    (reg s' 0xF = 0 \/ reg s' 0xF = 1) /\
    draw s' = true /\
    PC s' = PC s + 2.
Proof.
  intros Hwf Hf Hop HI vx vy. exists (drawn s w).
  split; [by apply step_drw|].
  pose proof (drawn_cells_on_screen s w) as Hon.
  pose proof (drawn_cells_NoDup s w) as Hnd.
  pose proof (wf_display_len s Hwf) as Hl.
  rewrite display_drawn, flag_drawn by done.
  split; [|split; [|split; [|split; [|split]]]].
  - intros row col Hrow Hcol. rewrite !pixel_bit_index.
    rewrite getbit_plots by (done || apply bit_index_range). cbn [fst].
    f_equal. apply mask_in; [done|]. apply drawn_cells_elem. eauto.
  - intros r c Hr Hc Hfree. unfold pixel.
    rewrite getbit_plots by (done || lia). cbn [fst].
    rewrite mask_notin; [by rewrite xorb_false_r|].
    intros (cell & Hbi & (row & col & Hrow & Hcol & ->)%drawn_cells_elem)
           %list_elem_of_fmap.
    cbn [fst] in Hbi. unfold bit_index in Hbi.
    pose proof (Z.mod_pos_bound (start_row s w + row) 32).
    pose proof (Z.mod_pos_bound (start_col s w + col) 64).
    apply (Hfree row col Hrow Hcol). subst vx vy. f_equal; lia.
  - rewrite b2z_1, hits_true. split.
    + intros (cell & (row & col & Hrow & Hcol & ->)%drawn_cells_elem
              & Hg & Hb).
      exists row, col. by rewrite pixel_bit_index.
    + intros (row & col & Hrow & Hcol & Hb & Hg).
      exists (bit_index vy vx row col, sprite_bit s row col).
      split; [apply drawn_cells_elem; eauto|]. cbn [fst snd].
      by rewrite <- pixel_bit_index.
  - apply b2z_cases.
  - unfold drawn. by destruct (update_timers_frame
      (advance 2 (set_draw true
         (painted (plots (drawn_cells s w) (display s, false)) s))))
      as (_ & _ & _ & _ & _ & _ & _ & _ & ->).
  - unfold drawn. rewrite PC_update_timers, PC_advance.
    by apply (advance_2_PC s Hwf w).
Qed.

(** (X4) Dxyn with [x] and [y] other than [0xF] and the sprite in memory:
    the cycle runs; bit [col] of sprite row [row] is XORed onto pixel
    [((V[y] + row) mod 32, (V[x] + col) mod 64)], wrapping in both axes;
    every other pixel is kept; [V[0xF]] is 1 exactly when a set sprite bit
    lay on a lit pixel and 0 otherwise; the draw flag is raised and [PC]
    advances by 2. *)
Lemma draw_sprite_other_regs (rnd : Z) (s : Chip8) (w : Z) :
  wf s ->
  fetch s = Some w ->
  op_of w = 0xD ->
  I s + n_of w <= 4096 ->
  x_of w <> 0xF -> y_of w <> 0xF ->
  let vx := reg s (x_of w) in
  let vy := reg s (y_of w) in
  exists s',
    executeCycle rnd s = Some s' /\
    (forall row col, 0 <= row < n_of w -> 0 <= col < 8 ->
       pixel (display s') ((vy + row) mod 32) ((vx + col) mod 64)
       = xorb (pixel (display s) ((vy + row) mod 32) ((vx + col) mod 64))
              (sprite_bit s row col)) /\
    (forall r c, 0 <= r < 32 -> 0 <= c < 64 ->
       (forall row col, 0 <= row < n_of w -> 0 <= col < 8 ->
          (r, c) <> ((vy + row) mod 32, (vx + col) mod 64)) ->
       pixel (display s') r c = pixel (display s) r c) /\
    (reg s' 0xF = 1 <->
     exists row col, 0 <= row < n_of w /\ 0 <= col < 8 /\
       sprite_bit s row col = true /\
       pixel (display s) ((vy + row) mod 32) ((vx + col) mod 64) = true) /\
    (reg s' 0xF = 0 \/ reg s' 0xF = 1) /\
    draw s' = true /\
    PC s' = PC s + 2.
Proof.
  intros Hwf Hf Hop HI Hx Hy vx vy. unfold vx, vy.
  rewrite <- (start_col_reg s w Hx), <- (start_row_reg s w Hy).
  by apply draw_sprite_effect.
Qed.

(** C1, the failing run: DF01 with [V[0xF] = 8] should light columns 8 to
    11 of row 0; the code clears [V[0xF]] before it reads the start column
    and lights columns 0 to 3. *)
Theorem draw_reads_cleared_flag :
  fetch draw_at_vf = Some 0xDF01 /\
  reg draw_at_vf (x_of 0xDF01) = 8 /\ reg draw_at_vf (y_of 0xDF01) = 0 /\
  sprite_bit draw_at_vf 0 0 = true /\
  pixel (display draw_at_vf) 0 8 = false /\
  exists s',
    executeCycle 0 draw_at_vf = Some s' /\
    pixel (display s') 0 8 = false /\ pixel (display s') 0 0 = true.
Proof.
  repeat split; try (vm_compute; reflexivity).
  eexists. split; [vm_compute; reflexivity|].
  split; vm_compute; reflexivity.
Qed.

(** ** Drawing the same sprite twice (C5) *)

(** Display buffers with the same pixels are equal. *)
Lemma display_ext d d' :
  is_display d -> is_display d' ->
  (forall bi, 0 <= bi < 2048 -> getbit d bi = getbit d' bi) -> d = d'.
Proof.
  intros [Hl Hd] [Hl' Hd'] Hbits. apply list_eq. intros i.
  destruct (decide (i < 256)%nat) as [Hi|Hi].
  2:{ rewrite !lookup_ge_None_2 by lia. done. }
  destruct (lookup_lt_is_Some_2 d i) as [a Ha]; [lia|].
  destruct (lookup_lt_is_Some_2 d' i) as [b Hb]; [lia|].
  rewrite Ha, Hb. f_equal.
  assert (is_u8 a) as Hua by (eapply Forall_lookup_1; [apply Hd | apply Ha]).
  assert (is_u8 b) as Hub by (eapply Forall_lookup_1; [apply Hd' | apply Hb]).
  apply u8_ext; [done..|]. intros k Hk.
  specialize (Hbits (Z.of_nat i * 8 + (7 - k))). unfold getbit in Hbits.
  replace ((Z.of_nat i * 8 + (7 - k)) / 8) with (Z.of_nat i) in Hbits
    by (apply Z.div_unique with (r := 7 - k); lia).
  replace ((Z.of_nat i * 8 + (7 - k)) mod 8) with (7 - k) in Hbits
    by (apply Z.mod_unique with (q := Z.of_nat i); lia).
  rewrite !rd_lookup, Nat2Z.id, Ha, Hb in Hbits by lia.
  cbn [from_option id] in Hbits.
  replace (7 - (7 - k)) with k in Hbits by lia. apply Hbits. lia.
Qed.

(** XOR is its own inverse: the same cells drawn twice give the display
    back. *)
Lemma plots_twice cells d c c' :
  is_display d -> on_screen cells -> NoDup cells.*1 ->
  (plots cells ((plots cells (d, c)).1, c')).1 = d.
Proof.
  intros Hd Hon Hnd. pose proof Hd as [Hl _].
  apply display_ext; [|done|].
  - apply (plots_is_display cells (_, c')). cbn [fst].
    by apply (plots_is_display cells (d, c)).
  - intros bi Hbi.
    rewrite getbit_plots
      by (done || lia || (cbn [fst]; by rewrite plots_fst_length)).
    cbn [fst]. rewrite getbit_plots by (done || lia). cbn [fst].
    by rewrite xorb_assoc, xorb_nilpotent, xorb_false_r.
Qed.

Lemma misses_true d cells :
  misses d cells = true <->
  exists cell, cell ∈ cells /\ getbit d cell.1 = false /\ cell.2 = true.
Proof.
  unfold misses. rewrite existsb_exists. split.
  - intros (cell & Hin%list_elem_of_In & [Hg%negb_true_iff Hc]%andb_true_iff).
    eauto.
  - intros (cell & Hin%list_elem_of_In & Hg & Hc). exists cell.
    by rewrite Hg, Hc.
Qed.

(** After the cells are drawn, the lit pixels under set sprite bits are
    those that were unlit before. *)
Lemma hits_after_plots cells d c :
  Z.of_nat (length d) = 256 -> on_screen cells -> NoDup cells.*1 ->
  hits (plots cells (d, c)).1 cells = misses d cells.
Proof.
  intros Hl Hon Hnd. apply eq_iff_eq_true.
  rewrite hits_true, misses_true.
  assert (forall cell, cell ∈ cells -> cell.2 = true ->
            getbit (plots cells (d, c)).1 cell.1 = negb (getbit d cell.1))
    as Hflip.
  { intros [bi b] Hin Hb. cbn [fst snd] in *. subst b.
    pose proof (proj1 (Forall_forall _ _) Hon _ Hin) as Hr. cbn [fst] in Hr.
    rewrite getbit_plots by (done || lia). cbn [fst].
    rewrite (mask_in cells bi true) by done. apply xorb_true_r. }
  split; intros (cell & Hin & Hg & Hb); exists cell;
    (split; [done|]); (split; [|done]).
  - rewrite (Hflip cell Hin Hb) in Hg. by apply negb_true_iff.
  - rewrite (Hflip cell Hin Hb). by apply negb_true_iff.
Qed.

Lemma sprite_cells_ext s t sr sc i k :
  memory s = memory t -> I s = I t ->
  sprite_cells s sr sc i k = sprite_cells t sr sc i k.
Proof.
  intros Hm HI. unfold sprite_cells, sprite_row, sprite_byte.
  by rewrite Hm, HI.
Qed.

Lemma drawn_frame s w :
  memory (drawn s w) = memory s /\ I (drawn s w) = I s
  /\ PC (drawn s w) = u16 (PC s + 2)
  /\ V (with_V 0xF 0 (drawn s w)) = V (with_V 0xF 0 s).
Proof.
  unfold drawn.
  destruct (update_timers_frame
    (advance 2 (set_draw true
       (painted (plots (drawn_cells s w) (display s, false)) s))))
    as (HV & _ & HI & _ & _ & Hm & HPC & _).
  rewrite Hm, HI, HPC. repeat split.
  unfold with_V at 1. cbn [V set_V]. rewrite HV.
  cbn [V advance set_PC set_draw painted with_V set_V set_display].
  by rewrite list_insert_insert_eq.
Qed.

Lemma sprite_cells_same s t sr sc k :
  (forall row, 0 <= row < k -> sprite_byte t row = sprite_byte s row) ->
  sprite_cells t sr sc 0 k = sprite_cells s sr sc 0 k.
Proof.
  intros Hb. unfold sprite_cells. apply Forall_bind_ext, Forall_forall.
  intros row Hr%elem_of_seqZ. unfold sprite_row.
  rewrite Hb; [done|lia].
Qed.

(** On the separate arrays of [main.cc] a draw writes neither [memory] nor
    [I], and of [V] only [V[0xF]], which the next draw clears before it
    reads its coordinates: the next draw finds the same sprite. *)
Lemma drawn_same_sprite s w : same_sprite s (drawn s w) w.
Proof.
  destruct (drawn_frame s w) as (Hm & HI & _ & HV).
  unfold same_sprite, start_col, start_row, reg. rewrite HV.
  split_and!; try done.
  intros row _. unfold sprite_byte. by rewrite Hm, HI.
Qed.

(** The instruction [w], drawn in [s], is drawn again in a state [s1] that
    holds the display and the flag the first draw left and the same sprite
    at the same place. *)
Lemma redrawn s s1 w :
  wf s -> wf s1 ->
  display s1 = display (drawn s w) ->
  reg s1 0xF = reg (drawn s w) 0xF ->
  same_sprite s s1 w ->
  drawn_twice s s1 (drawn s1 w) w.
Proof.
  intros Hwf Hwf1 Hd1 Hf1 (Hc & Hr & HI1 & Hb).
  pose proof (drawn_cells_on_screen s w) as Hon.
  pose proof (drawn_cells_NoDup s w) as Hnd.
  pose proof (wf_display_len s Hwf) as Hl.
  assert (drawn_cells s1 w = drawn_cells s w) as Hagain.
  { unfold drawn_cells. rewrite Hc, Hr. by apply sprite_cells_same. }
  assert (reg (drawn s1 w) 15
          = b2z (misses (display s) (drawn_cells s w))) as Hflag2.
  { rewrite flag_drawn, Hagain, Hd1, display_drawn by done.
    by rewrite hits_after_plots. }
  assert (misses (display s) (drawn_cells s w) = true <->
          exists row col, 0 <= row < n_of w /\ 0 <= col < 8 /\
            sprite_bit s row col = true /\
            pixel (display s) ((start_row s w + row) mod 32)
              ((start_col s w + col) mod 64) = false) as Hmiss.
  { rewrite misses_true. split.
    - intros (cell & (row & col & Hrow & Hcol & ->)%drawn_cells_elem
              & Hg & Hb').
      exists row, col. by rewrite pixel_bit_index.
    - intros (row & col & Hrow & Hcol & Hb' & Hg).
      exists (bit_index (start_row s w) (start_col s w) row col,
              sprite_bit s row col).
      split; [apply drawn_cells_elem; eauto|]. cbn [fst snd].
      by rewrite <- pixel_bit_index. }
  split; [|split; [|split]].
  - rewrite display_drawn, Hagain, Hd1, display_drawn.
    apply plots_twice; [by apply wf_is_display|done..].
  - rewrite Hflag2, b2z_1. apply Hmiss.
  - rewrite Hflag2. apply b2z_cases.
  - rewrite Hflag2, b2z_1, Hmiss, Hf1, flag_drawn by done.
    intros Hnone (row & col & Hrow & Hcol & Hb'). exists row, col.
    split; [done|]. split; [done|]. split; [done|].
    destruct (pixel (display s) ((start_row s w + row) mod 32)
                ((start_col s w + col) mod 64)) eqn:Hlit; [|done].
    assert (hits (display s) (drawn_cells s w) = true) as Hhit.
    { apply hits_true.
      exists (bit_index (start_row s w) (start_col s w) row col,
              sprite_bit s row col).
      split; [apply drawn_cells_elem; eauto|]. cbn [fst snd].
      by rewrite <- pixel_bit_index. }
    rewrite Hhit in Hnone. discriminate.
Qed.

(** The two draws of [main.cc]: the first part of C5 as amended.  The
    part of [main.c] and the theorem stand at the end, after the lemmas on
    the union. *)
Lemma executeCycle_drawn_twice (rnd : Z) (s : Chip8) (w : Z) :
  wf s -> fetch s = Some w -> op_of w = 0xD -> I s + n_of w <= 4096 ->
  exists s1,
    executeCycle rnd s = Some s1 /\
    (fetch s1 = Some w ->
     exists s2, executeCycle rnd s1 = Some s2 /\ drawn_twice s s1 s2 w).
Proof.
  intros Hwf Hf Hop HI.
  exists (drawn s w). split; [by apply step_drw|]. intros Hf1.
  assert (wf (drawn s w)) as Hwf1 by (by apply wf_drawn).
  pose proof (drawn_same_sprite s w) as Hsame.
  exists (drawn (drawn s w) w). split.
  - apply step_drw; try done. by destruct Hsame as (_ & _ & -> & _).
  - by apply redrawn.
Qed.

(** On a blank display the first draw of the glyph reports no collision and
    the second, which erases it, reports one. *)
Lemma blank_twice_run :
  exists s1 s2,
    executeCycle 0 blank_twice = Some s1 /\ fetch s1 = Some 0xD005 /\
    executeCycle 0 s1 = Some s2 /\
    reg blank_twice 0xF = 0 /\ reg s1 0xF = 0 /\ reg s2 0xF = 1.
Proof.
  eexists. eexists. split; [vm_compute; reflexivity|].
  split; [vm_compute; reflexivity|]. split; [vm_compute; reflexivity|].
  repeat split; vm_compute; reflexivity.
Qed.

(** C5 as stated fails on that run: no collision before or at the first
    draw, a collision at the second. *)
Lemma draw_twice_as_stated_counterexample : ~ draw_twice_as_stated.
Proof.
  intros H.
  destruct blank_twice_run as (s1 & s2 & Hs1 & Hf1 & Hs2 & H0 & H1 & H2).
  destruct (H 0 blank_twice 0xD005 s1 s2) as [_ Hclaim].
  - apply wfb_wf. vm_compute. reflexivity.
  - vm_compute. reflexivity.
  - vm_compute. reflexivity.
  - exact Hs1.
  - exact Hf1.
  - exact Hs2.
  - rewrite (Hclaim H0 H1) in H2. discriminate.
Qed.

(** ** The invariant and the timers through every branch *)

Lemma keeps_timers_refl s : wf s -> keeps_timers s s.
Proof. by intros Hwf. Qed.

Lemma wr_inv {A} (P : A -> Prop) (l l' : list A) i a :
  wr l i a = Some l' ->
  length l' = length l /\ (Forall P l -> P a -> Forall P l').
Proof.
  unfold wr. case_decide; [|done]. intros [= <-]. split.
  - apply length_insert.
  - apply Forall_insert.
Qed.

Lemma memcpy_into_inv (P : Z -> Prop) dst off src cnt m :
  memcpy_into dst off src cnt = Some m ->
  length m = length dst /\ (Forall P dst -> Forall P src -> Forall P m).
Proof.
  unfold memcpy_into. case_decide; [|done]. intros [= <-]. split.
  - apply length_inserts.
  - intros Hd Hs. apply Forall_inserts; [done|]. by apply Forall_take.
Qed.

Lemma memcpy_from_inv (P : Z -> Prop) dst src off cnt v :
  0 <= cnt ->
  memcpy_from dst src off cnt = Some v ->
  length v = length dst /\ (Forall P dst -> Forall P src -> Forall P v).
Proof.
  intros Hcnt. unfold memcpy_from. case_decide as Hc; [|done].
  intros [= <-]. split.
  - rewrite length_app, length_take, length_drop, length_drop. lia.
  - intros Hd Hs. apply Forall_app. split.
    + by apply Forall_take, Forall_drop.
    + by apply Forall_drop.
Qed.

Lemma for_loop_preserves {St : Type} (P : St -> Prop) body k i (s s' : St) :
  (forall j t t', body j t = Some t' -> P t -> P t') ->
  for_loop k i body s = Some s' -> P s -> P s'.
Proof.
  intros Hbody. revert i s. induction k as [|k IH]; intros i s.
  - by intros [= <-].
  - cbn [for_loop]. destruct (body i s) as [t|] eqn:Ht; [|done].
    cbn [mbind option_bind]. intros Hloop Hs.
    eapply IH; [done|]. by eapply Hbody.
Qed.

Section keeps.
Variable s : Chip8.

Lemma keeps_set_V t l :
  keeps_timers s t -> length l = length (V t) -> all_u8 l ->
  keeps_timers s (set_V l t).
Proof.
  intros ([] & HD & HS) Hl Hu. split; [|done].
  constructor; simpl; try done. by rewrite Hl.
Qed.

Lemma keeps_put_V t t' i z :
  keeps_timers s t -> is_u8 z -> put_V i z t = Some t' -> keeps_timers s t'.
Proof.
  intros Hk Hz. unfold put_V.
  destruct (wr (V t) i z) as [l|] eqn:Hl; [|done]. intros [= <-].
  destruct (wr_inv is_u8 _ _ _ _ Hl) as [Hlen HF].
  apply keeps_set_V; [done..|]. apply HF; [|done]. apply Hk.
Qed.

Lemma keeps_set_PC t z :
  keeps_timers s t -> is_u16 z -> keeps_timers s (set_PC z t).
Proof. intros ([] & HD & HS) Hz. split; [|done]. by constructor. Qed.

Lemma keeps_advance t k : keeps_timers s t -> keeps_timers s (advance k t).
Proof. intros Hk. apply keeps_set_PC; [done|apply u16_range]. Qed.

Lemma keeps_set_I t z :
  keeps_timers s t -> is_u16 z -> keeps_timers s (set_I z t).
Proof. intros ([] & HD & HS) Hz. split; [|done]. by constructor. Qed.

Lemma keeps_set_SP t z :
  keeps_timers s t -> is_u8 z -> keeps_timers s (set_SP z t).
Proof. intros ([] & HD & HS) Hz. split; [|done]. by constructor. Qed.

Lemma keeps_set_stack t l :
  keeps_timers s t -> length l = length (stack t) -> all_u16 l ->
  keeps_timers s (set_stack l t).
Proof.
  intros ([] & HD & HS) Hl Hu. split; [|done].
  constructor; simpl; try done. by rewrite Hl.
Qed.

Lemma keeps_set_memory t l :
  keeps_timers s t -> length l = length (memory t) -> all_u8 l ->
  keeps_timers s (set_memory l t).
Proof.
  intros ([] & HD & HS) Hl Hu. split; [|done].
  constructor; simpl; try done. by rewrite Hl.
Qed.

Lemma keeps_set_display t l :
  keeps_timers s t -> length l = length (display t) -> all_u8 l ->
  keeps_timers s (set_display l t).
Proof.
  intros ([] & HD & HS) Hl Hu. split; [|done].
  constructor; simpl; try done. by rewrite Hl.
Qed.

Lemma keeps_set_draw t b : keeps_timers s t -> keeps_timers s (set_draw b t).
Proof. intros ([] & HD & HS). split; [|done]. by constructor. Qed.

Lemma keeps_rd_V t i v : keeps_timers s t -> rd (V t) i = Some v -> is_u8 v.
Proof. intros (Hwf & _) Hv. eapply rd_Forall; [apply (wf_V t Hwf)|done]. Qed.
End keeps.

(** Destructs the successive reads and writes of a branch. *)
Ltac bind_inv H :=
  repeat match type of H with
  | mbind _ ?m = Some _ =>
      let E := fresh "E" in
      destruct m eqn:E; cbn [mbind option_bind] in H; [|discriminate H]
  end.

Ltac keeps_step :=
  first
    [ apply keeps_advance | apply keeps_set_draw
    | eapply keeps_put_V; [| |eassumption]
    | apply keeps_set_PC | apply keeps_set_I | apply keeps_set_SP
    | apply u8_range | apply u16_range | apply b2z_u8
    | eapply keeps_rd_V; [|eassumption]
    | eassumption ].

Ltac keeps_branch H := bind_inv H; injection H as <-; repeat keeps_step.

Section branches.
Variables s t t' : Chip8.
Hypothesis Hk : keeps_timers s t.

Lemma keeps_cls : exec_cls t = Some t' -> keeps_timers s t'.
Proof.
  unfold exec_cls. intros H. apply (inj Some) in H. subst t'.
  apply keeps_advance, keeps_set_draw, keeps_set_display;
    [done| |by apply Forall_replicate].
  rewrite length_replicate. pose proof (wf_display_len t (proj1 Hk)). lia.
Qed.

Lemma keeps_ret : exec_ret t = Some t' -> keeps_timers s t'.
Proof.
  unfold exec_ret. cbv zeta. cbn [stack SP set_SP]. intros H. bind_inv H.
  injection H as <-. apply keeps_advance, keeps_set_PC.
  - apply keeps_set_SP; [done|apply u8_range].
  - eapply rd_Forall; [apply (wf_stack t (proj1 Hk))|done].
Qed.

Lemma keeps_jp nnn : is_u16 nnn -> exec_jp nnn t = Some t' -> keeps_timers s t'.
Proof. intros Hn [= <-]. by apply keeps_set_PC. Qed.

Lemma keeps_call nnn :
  is_u16 nnn -> exec_call nnn t = Some t' -> keeps_timers s t'.
Proof.
  intros Hn. unfold exec_call. intros H. bind_inv H. injection H as <-.
  destruct (wr_inv is_u16 _ _ _ _ E) as [Hlen HF].
  apply keeps_set_PC; [|done]. apply keeps_set_SP; [|apply u8_range].
  apply keeps_set_stack; [done..|].
  apply HF; [apply (wf_stack t (proj1 Hk))|apply (wf_PC t (proj1 Hk))].
Qed.

Lemma keeps_se_byte x kk : exec_se_byte x kk t = Some t' -> keeps_timers s t'.
Proof. unfold exec_se_byte. intros H. keeps_branch H. Qed.

Lemma keeps_sne_byte x kk : exec_sne_byte x kk t = Some t' -> keeps_timers s t'.
Proof. unfold exec_sne_byte. intros H. keeps_branch H. Qed.

Lemma keeps_se_reg x y : exec_se_reg x y t = Some t' -> keeps_timers s t'.
Proof. unfold exec_se_reg. intros H. keeps_branch H. Qed.

Lemma keeps_sne_reg x y : exec_sne_reg x y t = Some t' -> keeps_timers s t'.
Proof. unfold exec_sne_reg. intros H. keeps_branch H. Qed.

Lemma keeps_ld_byte x kk :
  is_u8 kk -> exec_ld_byte x kk t = Some t' -> keeps_timers s t'.
Proof. intros Hkk. unfold exec_ld_byte. intros H. keeps_branch H. Qed.

Lemma keeps_add_byte x kk : exec_add_byte x kk t = Some t' -> keeps_timers s t'.
Proof. unfold exec_add_byte. intros H. keeps_branch H. Qed.

Lemma keeps_ld_reg x y : exec_ld_reg x y t = Some t' -> keeps_timers s t'.
Proof. unfold exec_ld_reg. intros H. keeps_branch H. Qed.

Lemma keeps_bitop f x y : exec_bitop f x y t = Some t' -> keeps_timers s t'.
Proof. unfold exec_bitop. intros H. keeps_branch H. Qed.

Lemma keeps_add_reg x y : exec_add_reg x y t = Some t' -> keeps_timers s t'.
Proof. unfold exec_add_reg. intros H. keeps_branch H. Qed.

Lemma keeps_sub_reg x y : exec_sub_reg x y t = Some t' -> keeps_timers s t'.
Proof. unfold exec_sub_reg. intros H. keeps_branch H. Qed.

Lemma keeps_shr x : exec_shr x t = Some t' -> keeps_timers s t'.
Proof. unfold exec_shr. intros H. keeps_branch H. Qed.

Lemma keeps_subn_reg x y : exec_subn_reg x y t = Some t' -> keeps_timers s t'.
Proof. unfold exec_subn_reg. intros H. keeps_branch H. Qed.

Lemma keeps_shl x : exec_shl x t = Some t' -> keeps_timers s t'.
Proof. unfold exec_shl. intros H. keeps_branch H. Qed.

Lemma keeps_ld_i nnn :
  is_u16 nnn -> exec_ld_i nnn t = Some t' -> keeps_timers s t'.
Proof. intros Hn [= <-]. by apply keeps_advance, keeps_set_I. Qed.

Lemma keeps_jp_v0 nnn : exec_jp_v0 nnn t = Some t' -> keeps_timers s t'.
Proof. unfold exec_jp_v0. intros H. keeps_branch H. Qed.

Lemma keeps_rnd rnd x kk : exec_rnd rnd x kk t = Some t' -> keeps_timers s t'.
Proof. unfold exec_rnd. intros H. keeps_branch H. Qed.

Lemma keeps_skp x : exec_skp x t = Some t' -> keeps_timers s t'.
Proof. unfold exec_skp. intros H. keeps_branch H. Qed.

Lemma keeps_sknp x : exec_sknp x t = Some t' -> keeps_timers s t'.
Proof. unfold exec_sknp. intros H. keeps_branch H. Qed.

Lemma keeps_ld_vx_dt x : exec_ld_vx_dt x t = Some t' -> keeps_timers s t'.
Proof.
  unfold exec_ld_vx_dt. intros H. bind_inv H. injection H as <-.
  apply keeps_advance. eapply keeps_put_V; [done| |done].
  apply (wf_DT t (proj1 Hk)).
Qed.

Lemma keeps_add_i x : exec_add_i x t = Some t' -> keeps_timers s t'.
Proof. unfold exec_add_i. intros H. keeps_branch H. Qed.

Lemma keeps_ld_f x : exec_ld_f x t = Some t' -> keeps_timers s t'.
Proof. unfold exec_ld_f. intros H. keeps_branch H. Qed.
End branches.

Section more_branches.
Variables s t t' : Chip8.
Hypothesis Hk : keeps_timers s t.

Lemma keeps_draw_pixel nb r sc col :
  draw_pixel nb r sc col t = Some t' -> keeps_timers s t'.
Proof.
  unfold draw_pixel. cbv zeta. intros H. bind_inv H.
  eapply keeps_put_V; [|apply u8_range|exact H].
  destruct (wr_inv is_u8 _ _ _ _ E0) as [Hlen HF].
  apply keeps_set_display; [done..|].
  apply HF; [apply (wf_display t (proj1 Hk))|apply u8_range].
Qed.

Lemma keeps_ld_b x : exec_ld_b x t = Some t' -> keeps_timers s t'.
Proof.
  unfold exec_ld_b. intros H. bind_inv H. injection H as <-.
  destruct (wr_inv is_u8 _ _ _ _ E0) as [Hl1 HF1].
  destruct (wr_inv is_u8 _ _ _ _ E1) as [Hl2 HF2].
  destruct (wr_inv is_u8 _ _ _ _ E2) as [Hl3 HF3].
  apply keeps_advance, keeps_set_memory; [done|congruence|].
  apply HF3; [|apply u8_range]. apply HF2; [|apply u8_range].
  apply HF1; [apply (wf_memory t (proj1 Hk))|apply u8_range].
Qed.

Lemma keeps_ld_mem_v x : exec_ld_mem_v x t = Some t' -> keeps_timers s t'.
Proof.
  unfold exec_ld_mem_v. intros H. bind_inv H. injection H as <-.
  destruct (memcpy_into_inv is_u8 _ _ _ _ _ E) as [Hl HF].
  apply keeps_advance, keeps_set_I; [|apply u16_range].
  apply keeps_set_memory; [done..|].
  apply HF; [apply (wf_memory t (proj1 Hk))|apply (wf_V t (proj1 Hk))].
Qed.

Lemma keeps_ld_v_mem x :
  0 <= x -> exec_ld_v_mem x t = Some t' -> keeps_timers s t'.
Proof.
  intros Hx. unfold exec_ld_v_mem. intros H. bind_inv H. injection H as <-.
  assert (0 <= x + 1) as Hc by lia.
  destruct (memcpy_from_inv is_u8 _ _ _ _ _ Hc E) as [Hl HF].
  apply keeps_advance, keeps_set_I; [|apply u16_range].
  apply keeps_set_V; [done..|].
  apply HF; [apply (wf_V t (proj1 Hk))|apply (wf_memory t (proj1 Hk))].
Qed.
End more_branches.

Lemma keeps_draw_row s t t' sr sc row :
  keeps_timers s t -> draw_row sr sc row t = Some t' -> keeps_timers s t'.
Proof.
  intros Hk. unfold draw_row. intros H. bind_inv H.
  eapply (for_loop_preserves (keeps_timers s)); [|exact H|done].
  intros j u u' Hu Hku. by eapply keeps_draw_pixel.
Qed.

Lemma keeps_drw s t t' x y n :
  keeps_timers s t -> exec_drw x y n t = Some t' -> keeps_timers s t'.
Proof.
  intros Hk. unfold exec_drw. intros H. bind_inv H. injection H as <-.
  apply keeps_advance, keeps_set_draw.
  eapply (for_loop_preserves (keeps_timers s)); [|exact E2|].
  - intros j u u' Hu Hku. by eapply keeps_draw_row.
  - eapply keeps_put_V; [done| |exact E]. unfold is_u8. lia.
Qed.

Lemma keeps_key_scan s x i (st st' : bool * Chip8) :
  0 <= i < 16 ->
  keeps_timers s st.2 -> key_scan x i st = Some st' -> keeps_timers s st'.2.
Proof.
  intros Hi Hk. unfold key_scan. intros H. bind_inv H. injection H as <-.
  cbn [snd]. eapply keeps_put_V; [done| |exact E1]. apply u8_range.
Qed.

Lemma for_loop_preserves_range {St : Type} (P : St -> Prop) body k i
  (s s' : St) :
  (forall j t t', i <= j < i + Z.of_nat k -> body j t = Some t' -> P t -> P t') ->
  for_loop k i body s = Some s' -> P s -> P s'.
Proof.
  revert i s. induction k as [|k IH]; intros i s Hbody.
  - by intros [= <-].
  - cbn [for_loop]. destruct (body i s) as [t|] eqn:Ht; [|done].
    cbn [mbind option_bind]. intros Hloop Hs.
    eapply (IH (i + 1)); [|done|].
    + intros j u u' Hj. apply Hbody. lia.
    + eapply (Hbody i); [lia|done..].
Qed.

Lemma keeps_ld_vx_k s t o x :
  keeps_timers s t -> exec_ld_vx_k x t = Some o ->
  keeps_timers s (state_of o).
Proof.
  intros Hk. unfold exec_ld_vx_k. intros H. bind_inv H.
  assert (keeps_timers s p.2) as Hp.
  { eapply (for_loop_preserves_range (fun st => keeps_timers s st.2));
      [|exact E|done].
    intros j u u' Hj Hu Hku. by eapply keeps_key_scan. }
  destruct (negb p.1); injection H as <-; cbn [state_of];
    [done|by apply keeps_advance].
Qed.

Lemma thru_inv r o : thru r = Some o -> exists t, r = Some t /\ o = Fallthrough t.
Proof.
  unfold thru. destruct r as [t|]; [|done]. intros [= <-]. eauto.
Qed.

(** Every branch keeps the invariant, and leaves the timers as [DT_left]
    and [ST_left] say. *)
Lemma exec_inv rnd w s o :
  wf s -> exec rnd w s = Some o ->
  wf (state_of o) /\ DT (state_of o) = DT_left s w
  /\ ST (state_of o) = ST_left s w.
Proof.
  intros Hwf. pose proof (keeps_timers_refl s Hwf) as Hk.
  pose proof (nnn_of_range w) as Hnnn.
  assert (is_u16 (nnn_of w)) as Hn16 by (unfold is_u16; lia).
  assert (is_u8 (kk_of w)) as Hkk8.
  { rewrite kk_of_spec. unfold is_u8. apply Z.mod_pos_bound. lia. }
  pose proof (x_of_range w) as Hx.
  unfold exec, DT_left, ST_left. cbv zeta.
  destruct (op_of w =? 15) eqn:HF.
  - (* family F: the timers may be written *)
    apply Z.eqb_eq in HF. rewrite HF. cbn [Z.eqb Pos.eqb andb].
    destruct (kk_of w =? 7) eqn:H07.
    { apply Z.eqb_eq in H07. rewrite H07. cbn [Z.eqb Pos.eqb].
      intros (t & Ht & ->)%thru_inv. by eapply keeps_ld_vx_dt. }
    destruct (kk_of w =? 10) eqn:H0A.
    { apply Z.eqb_eq in H0A. rewrite H0A. cbn [Z.eqb Pos.eqb].
      intros Ho. by eapply keeps_ld_vx_k. }
    destruct (kk_of w =? 21) eqn:H15.
    { apply Z.eqb_eq in H15. rewrite ?H15. cbn [Z.eqb Pos.eqb].
      intros (t & Ht & ->)%thru_inv. unfold exec_ld_dt_vx in Ht.
      bind_inv Ht. injection Ht as <-. cbn [state_of].
      pose proof (rd_Forall _ _ _ _ (wf_V s Hwf) E) as Hz.
      rewrite (reg_rd s _ _ E).
      split; [apply wf_advance; destruct Hwf; by constructor|done]. }
    destruct (kk_of w =? 24) eqn:H18.
    { apply Z.eqb_eq in H18. rewrite ?H18. cbn [Z.eqb Pos.eqb].
      intros (t & Ht & ->)%thru_inv. unfold exec_ld_st_vx in Ht.
      bind_inv Ht. injection Ht as <-. cbn [state_of].
      pose proof (rd_Forall _ _ _ _ (wf_V s Hwf) E) as Hz.
      rewrite (reg_rd s _ _ E).
      split; [apply wf_advance; destruct Hwf; by constructor|done]. }
    destruct (kk_of w =? 30);
      [intros (t & Ht & ->)%thru_inv; by eapply keeps_add_i|].
    destruct (kk_of w =? 41);
      [intros (t & Ht & ->)%thru_inv; by eapply keeps_ld_f|].
    destruct (kk_of w =? 51);
      [intros (t & Ht & ->)%thru_inv; by eapply keeps_ld_b|].
    destruct (kk_of w =? 85);
      [intros (t & Ht & ->)%thru_inv; by eapply keeps_ld_mem_v|].
    destruct (kk_of w =? 101);
      [intros (t & Ht & ->)%thru_inv; eapply keeps_ld_v_mem; [done| |done]; lia|].
    by intros [= <-].
  - (* the other families keep the timers *)
    cbn [andb].
    repeat match goal with
    | |- (if ?b then _ else _) = Some _ -> _ => destruct b
    end;
    try (intros [= <-]; exact Hk);
    intros (t & Ht & ->)%thru_inv; cbn [state_of];
    change (keeps_timers s t);
    lazymatch type of Ht with
    | exec_cls _ = _ => exact (keeps_cls s s t Hk Ht)
    | exec_ret _ = _ => exact (keeps_ret s s t Hk Ht)
    | exec_jp _ _ = _ => exact (keeps_jp s s t Hk _ Hn16 Ht)
    | exec_call _ _ = _ => exact (keeps_call s s t Hk _ Hn16 Ht)
    | exec_se_byte _ _ _ = _ => exact (keeps_se_byte s s t Hk _ _ Ht)
    | exec_sne_byte _ _ _ = _ => exact (keeps_sne_byte s s t Hk _ _ Ht)
    | exec_se_reg _ _ _ = _ => exact (keeps_se_reg s s t Hk _ _ Ht)
    | exec_ld_byte _ _ _ = _ => exact (keeps_ld_byte s s t Hk _ _ Hkk8 Ht)
    | exec_add_byte _ _ _ = _ => exact (keeps_add_byte s s t Hk _ _ Ht)
    | exec_ld_reg _ _ _ = _ => exact (keeps_ld_reg s s t Hk _ _ Ht)
    | exec_bitop _ _ _ _ = _ => exact (keeps_bitop s s t Hk _ _ _ Ht)
    | exec_add_reg _ _ _ = _ => exact (keeps_add_reg s s t Hk _ _ Ht)
    | exec_sub_reg _ _ _ = _ => exact (keeps_sub_reg s s t Hk _ _ Ht)
    | exec_shr _ _ = _ => exact (keeps_shr s s t Hk _ Ht)
    | exec_subn_reg _ _ _ = _ => exact (keeps_subn_reg s s t Hk _ _ Ht)
    | exec_shl _ _ = _ => exact (keeps_shl s s t Hk _ Ht)
    | exec_sne_reg _ _ _ = _ => exact (keeps_sne_reg s s t Hk _ _ Ht)
    | exec_ld_i _ _ = _ => exact (keeps_ld_i s s t Hk _ Hn16 Ht)
    | exec_jp_v0 _ _ = _ => exact (keeps_jp_v0 s s t Hk _ Ht)
    | exec_rnd _ _ _ _ = _ => exact (keeps_rnd s s t Hk _ _ _ Ht)
    | exec_drw _ _ _ _ = _ => exact (keeps_drw s s t _ _ _ Hk Ht)
    | exec_skp _ _ = _ => exact (keeps_skp s s t Hk _ Ht)
    | exec_sknp _ _ = _ => exact (keeps_sknp s s t Hk _ Ht)
    end.
Qed.

(** Control leaves through [return] only from an Fx0A that found no key,
    and then with the state untouched. *)
Lemma exec_returned rnd w s t :
  wf s -> exec rnd w s = Some (Returned t) ->
  op_of w = 0xF /\ kk_of w = 0x0A /\ any_key s 16 = false /\ t = s.
Proof.
  intros Hwf. pose proof (x_of_range w) as Hx. unfold exec. cbv zeta.
  repeat match goal with
  | |- (if ?b then _ else _) = Some _ -> _ => destruct b eqn:?
  end;
  try (by intros (u & _ & [=])%thru_inv); try (by intros [=]).
  unfold exec_ld_vx_k. rewrite key_loop_eq by done.
  cbn [mbind option_bind fst snd].
  destruct (any_key s 16); cbn [negb]; intros [= <-].
  repeat split; by apply Z.eqb_eq.
Qed.

(** The invariant is kept by [executeCycle]. *)
Lemma step_wf rnd s s' : wf s -> executeCycle rnd s = Some s' -> wf s'.
Proof.
  intros Hwf. unfold executeCycle. intros H. bind_inv H. injection H as <-.
  destruct (exec_inv rnd _ s _ Hwf E0) as (Hwf' & _).
  destruct o; cbn [finish state_of] in *; [by apply wf_update_timers|done].
Qed.

(** (X5) Every cycle but an Fx0A that finds no key down ends by
    decrementing each timer by one when it is nonzero, from the value the
    instruction left: Fx15 and Fx18 load it from [V[x]], every other
    instruction keeps it. *)
Lemma timers_tick_unless_waiting rnd s w s' :
  wf s ->
  fetch s = Some w ->
  executeCycle rnd s = Some s' ->
  ~ (op_of w = 0xF /\ kk_of w = 0x0A /\ any_key s 16 = false) ->
  DT s' = tick (DT_left s w) /\ ST s' = tick (ST_left s w).
Proof.
  intros Hwf Hf Hs Hnot. unfold executeCycle in Hs. rewrite Hf in Hs.
  cbn [mbind option_bind] in Hs. bind_inv Hs. injection Hs as <-.
  destruct (exec_inv rnd w s _ Hwf E) as (Hwf' & HDT & HST).
  destruct o as [t|t]; cbn [finish state_of] in *.
  - rewrite <- HDT, <- HST.
    by rewrite (update_timers_DT t (wf_DT t Hwf')),
               (update_timers_ST t (wf_ST t Hwf')).
  - destruct Hnot. destruct (exec_returned rnd w s t Hwf E) as (? & ? & ? & _).
    done.
Qed.

(** ** The timer update is skipped by the waiting Fx0A (C3) *)

(** C3, the failing run: [F00A] with no key down, [DT = 5] and [ST = 7].
    A decrement would leave 4 and 6; the step leaves 5 and 7, because the
    branch returns before the timer update. *)
Theorem key_wait_skips_timers :
  fetch waiting = Some 0xF00A /\
  DT waiting = 5 /\ ST waiting = 7 /\
  tick (DT waiting) = 4 /\ tick (ST waiting) = 6 /\
  exists s', executeCycle 0 waiting = Some s' /\ DT s' = 5 /\ ST s' = 7.
Proof.
  repeat split; try (vm_compute; reflexivity).
  eexists. split; [vm_compute; reflexivity|].
  split; vm_compute; reflexivity.
Qed.

(** ** Runs of small programs *)

(** [6005] then [600A]: [V[0]] is 10 and [PC] has moved by 4. *)
Example load_twice :
  (fun s => (reg s 0, PC s)) <$> run2 (load [0x60; 0x05; 0x60; 0x0A])
  = Some (10, PROGRAM_START + 4).
Proof. vm_compute. reflexivity. Qed.

(** [6xkk] then [7xkk] with the same register and byte: [V[x]] is
    [(kk + kk) mod 256]; here [kk = 0xC8]. *)
Example load_then_add :
  (fun s => reg s 3) <$> run2 (load [0x63; 0xC8; 0x73; 0xC8])
  = Some ((0xC8 + 0xC8) mod 256).
Proof. vm_compute. reflexivity. Qed.

(** A glyph is drawn, then [00E0] clears the display and sets the draw
    flag. *)
Example clear_after_draw :
  (fun s => (display s, draw s))
    <$> (s1 ← executeCycle 0 (load [0xD0; 0x05; 0x00; 0xE0]);
         executeCycle 0 (set_draw false s1))
  = Some (replicate 256 0, true).
Proof. vm_compute. reflexivity. Qed.

(** One sprite row [0xF0] at [V[x] = 63], [V[y] = 31]: the last column of
    row 31 and, wrapped, its first three columns are lit. *)
Example draw_wraps :
  (fun s => map (pixel (display s) 31) [63; 0; 1; 2; 3; 62])
    <$> executeCycle 0 (with_V 0 63 (with_V 1 31 (load [0xD0; 0x11])))
  = Some [true; true; true; true; false; false].
Proof. vm_compute. reflexivity. Qed.

(** ** The general lemmas on concrete machines *)

Example add_reg_other_regs_instance :
  exists s',
    executeCycle 0 add_plain = Some s' /\
    reg s' 0xF = b2z (255 <? reg add_plain (x_of 0x8014)
                             + reg add_plain (y_of 0x8014)) /\
    (y_of 0x8014 <> 0xF ->
     reg s' (x_of 0x8014)
     = (reg add_plain (x_of 0x8014) + reg add_plain (y_of 0x8014)) mod 256) /\
    PC s' = PC add_plain + 2.
Proof.
  apply (add_reg_other_regs 0 add_plain 0x8014).
  - apply wfb_wf. vm_compute. reflexivity.
  - vm_compute. reflexivity.
  - vm_compute. reflexivity.
  - vm_compute. reflexivity.
  - vm_compute. discriminate.
Defined.

Example add_i_other_regs_instance :
  exists s',
    executeCycle 0 add_i_plain = Some s' /\
    reg s' 0xF = b2z (0xFFF <? I add_i_plain + reg add_i_plain (x_of 0xF21E)) /\
    I s' = (I add_i_plain + reg add_i_plain (x_of 0xF21E)) mod 65536 /\
    PC s' = PC add_i_plain + 2.
Proof.
  apply (add_i_other_regs 0 add_i_plain 0xF21E).
  - apply wfb_wf. vm_compute. reflexivity.
  - vm_compute. reflexivity.
  - vm_compute. reflexivity.
  - vm_compute. reflexivity.
  - vm_compute. discriminate.
Defined.

(** Key 3 alone: 15 in [V[0]]. *)
Example key_wait_latches_15_instance :
  exists s',
    executeCycle 0 key3_down = Some s' /\ reg s' (x_of 0xF00A) = 15
    /\ PC s' = PC key3_down + 2.
Proof.
  apply (key_wait_latches_15 0 key3_down 0xF00A 3).
  - apply wfb_wf. vm_compute. reflexivity.
  - vm_compute. reflexivity.
  - vm_compute. reflexivity.
  - vm_compute. reflexivity.
  - lia.
  - vm_compute. reflexivity.
Defined.

Example draw_sprite_other_regs_instance :
  let vx := reg draw_corner (x_of 0xD015) in
  let vy := reg draw_corner (y_of 0xD015) in
  exists s',
    executeCycle 0 draw_corner = Some s' /\
    (forall row col, 0 <= row < n_of 0xD015 -> 0 <= col < 8 ->
       pixel (display s') ((vy + row) mod 32) ((vx + col) mod 64)
       = xorb (pixel (display draw_corner)
                 ((vy + row) mod 32) ((vx + col) mod 64))
              (sprite_bit draw_corner row col)) /\
    (forall r c, 0 <= r < 32 -> 0 <= c < 64 ->
       (forall row col, 0 <= row < n_of 0xD015 -> 0 <= col < 8 ->
          (r, c) <> ((vy + row) mod 32, (vx + col) mod 64)) ->
       pixel (display s') r c = pixel (display draw_corner) r c) /\
    (reg s' 0xF = 1 <->
     exists row col, 0 <= row < n_of 0xD015 /\ 0 <= col < 8 /\
       sprite_bit draw_corner row col = true /\
       pixel (display draw_corner)
         ((vy + row) mod 32) ((vx + col) mod 64) = true) /\
    (reg s' 0xF = 0 \/ reg s' 0xF = 1) /\
    draw s' = true /\
    PC s' = PC draw_corner + 2.
Proof.
  apply (draw_sprite_other_regs 0 draw_corner 0xD015).
  - apply wfb_wf. vm_compute. reflexivity.
  - vm_compute. reflexivity.
  - vm_compute. reflexivity.
  - vm_compute. discriminate.
  - vm_compute. discriminate.
  - vm_compute. discriminate.
Defined.

Example timers_tick_unless_waiting_instance :
  exists s',
    executeCycle 0 ticking = Some s' /\
    DT s' = tick (DT_left ticking 0x6005) /\
    ST s' = tick (ST_left ticking 0x6005) /\ DT s' = 2 /\ ST s' = 0.
Proof.
  destruct (executeCycle 0 ticking) as [s'|] eqn:Hs'; [|vm_compute in Hs'; discriminate].
  exists s'. split; [reflexivity|].
  destruct (timers_tick_unless_waiting 0 ticking 0x6005 s') as [HD HS].
  - apply wfb_wf. vm_compute. reflexivity.
  - vm_compute. reflexivity.
  - exact Hs'.
  - intros (Hop & _). vm_compute in Hop. discriminate.
  - split; [exact HD|]. split; [exact HS|].
    rewrite HD, HS. split; vm_compute; reflexivity.
Defined.

(** * Further properties of the interpreter and of its host loop *)

(** ** The instruction word and its fields *)

Lemma lor_bytes hi lo :
  0 <= hi -> 0 <= lo < 256 -> Z.lor (Z.shiftl hi 8) lo = 256 * hi + lo.
Proof.
  intros Hhi Hlo.
  assert (Z.land (Z.shiftl hi 8) lo = 0) as Hdisj.
  { apply Z.bits_inj'. intros k Hk. rewrite Z.land_spec, Z.bits_0.
    destruct (Z_lt_dec k 8) as [Hlt|Hge].
    - by rewrite Z.shiftl_spec_low by lia.
    - rewrite <- (Z.mod_small lo (2 ^ 8)) by done.
      rewrite Z.mod_pow2_bits_high by lia. apply andb_false_r. }
  rewrite <- Z.lxor_lor, <- Z.add_nocarry_lxor by done.
  rewrite Z.shiftl_mul_pow2 by lia. change (2 ^ 8) with 256. lia.
Qed.

(** (X6) The instruction word is the byte at [PC] followed by the byte at
    [PC + 1], and the masks and shifts of the decoder cut it at its
    nibbles: [op] and [x] are the two halves of the first byte, [y] and [n]
    those of the second, [kk] is the second byte and [nnn] the low twelve
    bits. *)
Theorem fetch_decode_fields (s : Chip8) (w : Z) :
  wf s ->
  fetch s = Some w ->
  exists hi lo,
    rd (memory s) (PC s) = Some hi /\ rd (memory s) (PC s + 1) = Some lo /\
    w = 256 * hi + lo /\
    op_of w = hi / 16 /\ x_of w = hi mod 16 /\
    y_of w = lo / 16 /\ n_of w = lo mod 16 /\
    kk_of w = lo /\ nnn_of w = 256 * (hi mod 16) + lo.
Proof.
  intros Hwf Hf. unfold fetch in Hf. bind_inv Hf. injection Hf as <-.
  rename z into hi, z0 into lo.
  pose proof (rd_Forall _ _ _ _ (wf_memory s Hwf) E) as Hhi.
  pose proof (rd_Forall _ _ _ _ (wf_memory s Hwf) E0) as Hlo.
  unfold is_u8 in Hhi, Hlo.
  exists hi, lo. split; [done|]. split; [done|].
  rewrite lor_bytes by lia.
  rewrite u16_id by (unfold is_u16; lia).
  split; [done|].
  pose proof (Z.div_mod hi 16 ltac:(lia)) as Dhi.
  pose proof (Z.div_mod lo 16 ltac:(lia)) as Dlo.
  pose proof (Z.mod_pos_bound hi 16 ltac:(lia)) as Bhi.
  pose proof (Z.mod_pos_bound lo 16 ltac:(lia)) as Blo.
  assert (0 <= hi / 16 < 16) as Qhi.
  { split; [apply Z.div_pos; lia|apply Z.div_lt_upper_bound; lia]. }
  assert (0 <= lo / 16 < 16) as Qlo.
  { split; [apply Z.div_pos; lia|apply Z.div_lt_upper_bound; lia]. }
  assert (256 * hi + lo
          = mk_instr (hi / 16) (hi mod 16) (lo / 16) (lo mod 16)) as ->
    by (unfold mk_instr; lia).
  rewrite op_of_mk_instr, x_of_mk_instr, y_of_mk_instr, n_of_mk_instr
    by done.
  repeat split.
  - rewrite kk_of_spec. unfold mk_instr. symmetry.
    apply Z.mod_unique_pos with (q := hi); lia.
  - rewrite nnn_of_spec. unfold mk_instr. symmetry.
    apply Z.mod_unique_pos with (q := hi / 16); lia.
Qed.

Lemma fetch_decode_fields_witness :
  op_of 0x2204 = 2 /\ nnn_of 0x2204 = 0x204 /\ kk_of 0x2204 = 4.
Proof.
  destruct (fetch_decode_fields call_site 0x2204)
    as (hi & lo & Hhi & Hlo & _ & Hop & _ & _ & _ & Hkk & Hnnn).
  - apply wfb_wf. vm_compute. reflexivity.
  - vm_compute. reflexivity.
  - vm_compute in Hhi. injection Hhi as <-.
    vm_compute in Hlo. injection Hlo as <-.
    split; [exact Hop|]. split; [exact Hnnn|exact Hkk].
Defined.

(** ** Projections through the timer update *)

Lemma V_update_timers s : V (update_timers s) = V s.
Proof. by destruct (update_timers_frame s) as (-> & _). Qed.

Lemma memory_update_timers s : memory (update_timers s) = memory s.
Proof. by destruct (update_timers_frame s) as (_ & _ & _ & _ & _ & -> & _). Qed.

Lemma display_update_timers s : display (update_timers s) = display s.
Proof.
  by destruct (update_timers_frame s) as (_ & _ & _ & _ & _ & _ & _ & -> & _).
Qed.

Lemma draw_update_timers s : draw (update_timers s) = draw s.
Proof.
  by destruct (update_timers_frame s) as (_ & _ & _ & _ & _ & _ & _ & _ & ->).
Qed.

Lemma keys_update_timers s : keys (update_timers s) = keys s.
Proof. by destruct (update_timers_frame s) as (_ & _ & _ & _ & -> & _). Qed.

Lemma stack_update_timers s : stack (update_timers s) = stack s.
Proof. by destruct (update_timers_frame s) as (_ & _ & _ & -> & _). Qed.

Lemma SP_update_timers s : SP (update_timers s) = SP s.
Proof. by destruct (update_timers_frame s) as (_ & -> & _). Qed.

(** ** 8xy5 and 8xy7, the subtractions *)

Lemma exec_sub_reg_eq s x y :
  wf s -> 0 <= x < 16 -> 0 <= y < 16 ->
  let s1 := with_V 0xF (b2z (reg s y <? reg s x)) s in
  exec_sub_reg x y s
  = Some (advance 2 (with_V x (u8 (reg s1 x - reg s1 y)) s1)).
Proof.
  intros Hwf Hx Hy s1. unfold exec_sub_reg.
  rewrite !rd_reg by done. cbn [mbind option_bind].
  rewrite put_V_with by (done || lia). cbn [mbind option_bind]. fold s1.
  assert (wf s1) as Hwf1 by (apply wf_with_V; [done|apply b2z_u8]).
  rewrite !rd_reg by done. cbn [mbind option_bind].
  by rewrite put_V_with by done.
Qed.

Lemma exec_subn_reg_eq s x y :
  wf s -> 0 <= x < 16 -> 0 <= y < 16 ->
  let s1 := with_V 0xF (b2z (reg s x <? reg s y)) s in
  exec_subn_reg x y s
  = Some (advance 2 (with_V x (u8 (reg s1 y - reg s1 x)) s1)).
Proof.
  intros Hwf Hx Hy s1. unfold exec_subn_reg.
  rewrite !rd_reg by done. cbn [mbind option_bind].
  rewrite put_V_with by (done || lia). cbn [mbind option_bind]. fold s1.
  assert (wf s1) as Hwf1 by (apply wf_with_V; [done|apply b2z_u8]).
  rewrite !rd_reg by done. cbn [mbind option_bind].
  by rewrite put_V_with by done.
Qed.

(** (X7) 8xy5 with [x] other than [0xF]: [V[0xF]] is 1 exactly when
    [V[x] > V[y]] (so 0 when the operands are equal), [V[x]] receives
    [V[x] - V[y]] modulo 256 when [y] is not [0xF] either, the other
    registers keep their content and [PC] advances by 2. *)
Theorem sub_reg_other_regs (rnd : Z) (s : Chip8) (w : Z) :
  wf s ->
  fetch s = Some w ->
  op_of w = 0x8 -> n_of w = 0x5 ->
  x_of w <> 0xF ->
  exists s',
    executeCycle rnd s = Some s' /\
    reg s' 0xF = b2z (reg s (y_of w) <? reg s (x_of w)) /\
    (y_of w <> 0xF ->
     reg s' (x_of w) = (reg s (x_of w) - reg s (y_of w)) mod 256) /\
    (forall k, 0 <= k < 16 -> k <> x_of w -> k <> 0xF -> reg s' k = reg s k) /\
    PC s' = PC s + 2.
Proof.
  intros Hwf Hf Hop Hn Hx.
  pose proof (x_of_range w) as Hxr. pose proof (y_of_range w) as Hyr.
  eexists. split.
  { apply (step_thru rnd s w); [done|]. dispatch Hop Hn.
    by rewrite exec_sub_reg_eq by done. }
  set (s1 := with_V 15 _ s).
  assert (wf s1) as Hwf1 by (apply wf_with_V; [done|apply b2z_u8]).
  repeat split.
  - rewrite reg_update_timers, reg_advance, reg_with_V_ne by lia. unfold s1.
    by rewrite reg_with_V_eq by (done || lia).
  - intros Hy. rewrite reg_update_timers, reg_advance, reg_with_V_eq by done.
    unfold s1. by rewrite !reg_with_V_ne by lia.
  - intros k Hk Hkx HkF.
    rewrite reg_update_timers, reg_advance, reg_with_V_ne by lia.
    unfold s1. by rewrite reg_with_V_ne by lia.
  - rewrite PC_update_timers, PC_advance, !PC_with_V.
    by apply (advance_2_PC s Hwf w).
Qed.

Lemma sub_reg_other_regs_witness :
  exists s',
    executeCycle 0 sub_plain = Some s' /\ reg s' 0xF = 0 /\ reg s' 0 = 254.
Proof.
  destruct (sub_reg_other_regs 0 sub_plain 0x8015)
    as (s' & Hs' & HF & H0 & _).
  - apply wfb_wf. vm_compute. reflexivity.
  - vm_compute. reflexivity.
  - vm_compute. reflexivity.
  - vm_compute. reflexivity.
  - vm_compute. discriminate.
  - exists s'. split; [exact Hs'|]. split.
    + rewrite HF. vm_compute. reflexivity.
    + change 0 with (x_of 0x8015) at 1. rewrite H0.
      * vm_compute. reflexivity.
      * vm_compute. discriminate.
Defined.

(** (X8) 8xy7 with [x] other than [0xF]: [V[0xF]] is 1 exactly when
    [V[y] > V[x]], [V[x]] receives [V[y] - V[x]] modulo 256 when [y] is not
    [0xF] either, the other registers keep their content and [PC] advances
    by 2. *)
Theorem subn_reg_other_regs (rnd : Z) (s : Chip8) (w : Z) :
  wf s ->
  fetch s = Some w ->
  op_of w = 0x8 -> n_of w = 0x7 ->
  x_of w <> 0xF ->
  exists s',
    executeCycle rnd s = Some s' /\
    reg s' 0xF = b2z (reg s (x_of w) <? reg s (y_of w)) /\
    (y_of w <> 0xF ->
     reg s' (x_of w) = (reg s (y_of w) - reg s (x_of w)) mod 256) /\
    (forall k, 0 <= k < 16 -> k <> x_of w -> k <> 0xF -> reg s' k = reg s k) /\
    PC s' = PC s + 2.
Proof.
  intros Hwf Hf Hop Hn Hx.
  pose proof (x_of_range w) as Hxr. pose proof (y_of_range w) as Hyr.
  eexists. split.
  { apply (step_thru rnd s w); [done|]. dispatch Hop Hn.
    by rewrite exec_subn_reg_eq by done. }
  set (s1 := with_V 15 _ s).
  assert (wf s1) as Hwf1 by (apply wf_with_V; [done|apply b2z_u8]).
  repeat split.
  - rewrite reg_update_timers, reg_advance, reg_with_V_ne by lia. unfold s1.
    by rewrite reg_with_V_eq by (done || lia).
  - intros Hy. rewrite reg_update_timers, reg_advance, reg_with_V_eq by done.
    unfold s1. by rewrite !reg_with_V_ne by lia.
  - intros k Hk Hkx HkF.
    rewrite reg_update_timers, reg_advance, reg_with_V_ne by lia.
    unfold s1. by rewrite reg_with_V_ne by lia.
  - rewrite PC_update_timers, PC_advance, !PC_with_V.
    by apply (advance_2_PC s Hwf w).
Qed.

Lemma subn_reg_other_regs_witness :
  exists s',
    executeCycle 0 subn_plain = Some s' /\ reg s' 0xF = 1 /\ reg s' 0 = 2.
Proof.
  destruct (subn_reg_other_regs 0 subn_plain 0x8017)
    as (s' & Hs' & HF & H0 & _).
  - apply wfb_wf. vm_compute. reflexivity.
  - vm_compute. reflexivity.
  - vm_compute. reflexivity.
  - vm_compute. reflexivity.
  - vm_compute. discriminate.
  - exists s'. split; [exact Hs'|]. split.
    + rewrite HF. vm_compute. reflexivity.
    + change 0 with (x_of 0x8017) at 1. rewrite H0.
      * vm_compute. reflexivity.
      * vm_compute. discriminate.
Defined.

(** ** The block copies *)

Lemma rd_memcpy_into_in dst off src cnt m k :
  memcpy_into dst off src cnt = Some m ->
  0 <= k < cnt -> rd m (off + k) = rd src k.
Proof.
  unfold memcpy_into. case_decide as Hc; [|done]. intros [= <-] Hk.
  rewrite !rd_lookup by lia.
  rewrite list_lookup_inserts by (rewrite ?length_take; lia).
  replace (Z.to_nat (off + k) - Z.to_nat off)%nat with (Z.to_nat k) by lia.
  apply lookup_take_lt. lia.
Qed.

Lemma rd_memcpy_into_out dst off src cnt m a :
  memcpy_into dst off src cnt = Some m ->
  0 <= cnt -> a < off \/ off + cnt <= a -> rd m a = rd dst a.
Proof.
  unfold memcpy_into. case_decide as Hc; [|done]. intros [= <-] Hcnt Ha.
  unfold rd. case_decide as Ha0; [|done].
  destruct (decide (a < off)).
  - apply list_lookup_inserts_lt. lia.
  - apply list_lookup_inserts_ge. rewrite length_take. lia.
Qed.

Lemma rd_memcpy_from_in dst src off cnt v k :
  memcpy_from dst src off cnt = Some v ->
  0 <= k < cnt -> rd v k = rd src (off + k).
Proof.
  unfold memcpy_from. case_decide as Hc; [|done]. intros [= <-] Hk.
  rewrite !rd_lookup by lia.
  rewrite lookup_app_l by (rewrite length_take, length_drop; lia).
  rewrite lookup_take_lt by lia. rewrite lookup_drop. f_equal. lia.
Qed.

Lemma rd_memcpy_from_out dst src off cnt v k :
  memcpy_from dst src off cnt = Some v ->
  0 <= cnt -> cnt <= k -> rd v k = rd dst k.
Proof.
  unfold memcpy_from. case_decide as Hc; [|done]. intros [= <-] Hcnt Hk.
  rewrite !rd_lookup by lia.
  rewrite lookup_app_r by (rewrite length_take, length_drop; lia).
  rewrite length_take, length_drop, lookup_drop. f_equal. lia.
Qed.

Lemma memcpy_into_Some dst off src cnt :
  0 <= off -> off + cnt <= Z.of_nat (length dst) ->
  cnt <= Z.of_nat (length src) ->
  exists m, memcpy_into dst off src cnt = Some m.
Proof.
  intros H1 H2 H3. unfold memcpy_into. rewrite decide_True by done. eauto.
Qed.

Lemma memcpy_from_Some dst src off cnt :
  0 <= off -> off + cnt <= Z.of_nat (length src) ->
  cnt <= Z.of_nat (length dst) ->
  exists v, memcpy_from dst src off cnt = Some v.
Proof.
  intros H1 H2 H3. unfold memcpy_from. rewrite decide_True by done. eauto.
Qed.

(** ** Fx33, the decimal digits *)

Lemma wr_inv_insert {A} (l l' : list A) i a :
  wr l i a = Some l' ->
  0 <= i < Z.of_nat (length l) /\ l' = <[Z.to_nat i := a]> l.
Proof. unfold wr. case_decide; [|done]. by intros [= <-]. Qed.

Lemma rd_insert_other {A} (l : list A) i j a :
  0 <= i -> i <> j -> rd (<[Z.to_nat i := a]> l) j = rd l j.
Proof.
  intros Hi Hne. unfold rd. case_decide; [|done].
  apply list_lookup_insert_ne. lia.
Qed.

Lemma digits_of_byte v :
  0 <= v < 256 ->
  0 <= v / 100 < 10 /\ 0 <= v / 10 mod 10 < 10 /\ 0 <= v mod 10 < 10 /\
  100 * (v / 100) + 10 * (v / 10 mod 10) + v mod 10 = v.
Proof.
  intros Hv.
  pose proof (Z.div_mod v 10 ltac:(lia)).
  pose proof (Z.div_mod (v / 10) 10 ltac:(lia)).
  assert (v / 10 / 10 = v / 100) by (rewrite Z.div_div by lia; done).
  pose proof (Z.mod_pos_bound v 10 ltac:(lia)).
  pose proof (Z.mod_pos_bound (v / 10) 10 ltac:(lia)).
  assert (0 <= v / 100 < 3).
  { split; [apply Z.div_pos; lia|apply Z.div_lt_upper_bound; lia]. }
  lia.
Qed.

(** The memory a cycle that ran Fx33 leaves; the three stores were in
    bounds. *)
Lemma ld_b_inv (rnd : Z) (s : Chip8) (w : Z) (s' : Chip8) :
  wf s ->
  fetch s = Some w ->
  op_of w = 0xF -> kk_of w = 0x33 ->
  executeCycle rnd s = Some s' ->
  let v := reg s (x_of w) in
  0 <= I s /\ I s + 3 <= 4096 /\
  s' = update_timers
         (advance 2
            (set_memory
               (<[Z.to_nat (I s + 2) := v mod 10]>
                  (<[Z.to_nat (I s + 1) := v / 10 mod 10]>
                     (<[Z.to_nat (I s) := v / 100]> (memory s)))) s)).
Proof.
  intros Hwf Hf Hop Hkk Hs v.
  pose proof (x_of_range w) as Hxr.
  pose proof (reg_u8 s (x_of w) Hwf Hxr) as Hv. unfold is_u8 in Hv.
  destruct (digits_of_byte (reg s (x_of w)) Hv) as (Hh & Ht & Ho & _).
  fold v in Hh, Ht, Ho.
  pose proof (wf_memory_len s Hwf) as Hlen.
  unfold executeCycle in Hs. rewrite Hf in Hs.
  cbn [mbind option_bind] in Hs. revert Hs. dispatch Hop Hkk.
  unfold exec_ld_b. rewrite rd_reg by done. cbn [mbind option_bind].
  fold v. rewrite !u8_id by (unfold is_u8; lia).
  destruct (wr (memory s) (I s) _) as [m1|] eqn:E; [|done].
  cbn [mbind option_bind].
  destruct (wr m1 (I s + 1) _) as [m2|] eqn:E0; [|done].
  cbn [mbind option_bind].
  destruct (wr m2 (I s + 2) _) as [m3|] eqn:E1; [|done].
  cbn. intros [= <-].
  destruct (wr_inv_insert _ _ _ _ E) as [H0 ->].
  destruct (wr_inv_insert _ _ _ _ E0) as [H1 ->].
  destruct (wr_inv_insert _ _ _ _ E1) as [H2 ->].
  rewrite !length_insert in H2. split; [lia|]. split; [lia|done].
Qed.

Lemma ld_b_runs (rnd : Z) (s : Chip8) (w : Z) :
  wf s ->
  fetch s = Some w ->
  op_of w = 0xF -> kk_of w = 0x33 ->
  I s + 3 <= 4096 ->
  exists s', executeCycle rnd s = Some s'.
Proof.
  intros Hwf Hf Hop Hkk HI.
  pose proof (x_of_range w) as Hxr.
  pose proof (wf_I s Hwf) as HI0. unfold is_u16 in HI0.
  pose proof (wf_memory_len s Hwf) as Hlen.
  eexists. apply (step_thru rnd s w); [done|]. dispatch Hop Hkk.
  unfold exec_ld_b. rewrite rd_reg by done. cbn [mbind option_bind].
  rewrite wr_Some by lia. cbn [mbind option_bind].
  rewrite wr_Some by (rewrite length_insert; lia).
  cbn [mbind option_bind].
  rewrite wr_Some by (rewrite !length_insert; lia). done.
Qed.

(** (X9) Fx33 with [I + 3 <= 4096] stores three decimal digits at
    [memory[I]], [memory[I + 1]], [memory[I + 2]], hundreds first, whose
    value is [V[x]]; no other byte of memory changes, the registers and [I]
    are kept and [PC] advances by 2. *)
Theorem bcd_digits (rnd : Z) (s : Chip8) (w : Z) :
  wf s ->
  fetch s = Some w ->
  op_of w = 0xF -> kk_of w = 0x33 ->
  I s + 3 <= 4096 ->
  exists s' h t o,
    executeCycle rnd s = Some s' /\
    rd (memory s') (I s) = Some h /\
    rd (memory s') (I s + 1) = Some t /\
    rd (memory s') (I s + 2) = Some o /\
    0 <= h < 10 /\ 0 <= t < 10 /\ 0 <= o < 10 /\
    100 * h + 10 * t + o = reg s (x_of w) /\
    (forall a, a < I s \/ I s + 3 <= a -> rd (memory s') a = rd (memory s) a) /\
    V s' = V s /\ I s' = I s /\ PC s' = PC s + 2.
Proof.
  intros Hwf Hf Hop Hkk HI.
  pose proof (x_of_range w) as Hxr.
  pose proof (wf_memory_len s Hwf) as Hlen.
  pose proof (reg_u8 s (x_of w) Hwf Hxr) as Hv. unfold is_u8 in Hv.
  destruct (digits_of_byte (reg s (x_of w)) Hv) as (Hh & Ht & Ho & Hsum).
  destruct (ld_b_runs rnd s w Hwf Hf Hop Hkk HI) as [s' Hs'].
  destruct (ld_b_inv rnd s w s' Hwf Hf Hop Hkk Hs') as (HI0 & _ & Es').
  exists s', (reg s (x_of w) / 100), (reg s (x_of w) / 10 mod 10),
    (reg s (x_of w) mod 10).
  split; [exact Hs'|]. rewrite Es'.
  rewrite memory_update_timers, V_update_timers, I_update_timers,
    PC_update_timers.
  cbn [memory V I PC advance set_PC set_memory].
  split_and!; try done; try lia.
  - rewrite !rd_insert_other by lia. apply rd_insert_eq. lia.
  - rewrite rd_insert_other by lia. apply rd_insert_eq.
    rewrite length_insert. lia.
  - apply rd_insert_eq. rewrite !length_insert. lia.
  - intros a Ha. rewrite !rd_insert_other by lia. done.
  - by apply (advance_2_PC s Hwf w).
Qed.

Lemma bcd_digits_witness :
  exists s' h t o,
    executeCycle 0 bcd_me = Some s' /\
    rd (memory s') 0x300 = Some h /\ rd (memory s') 0x301 = Some t /\
    rd (memory s') 0x302 = Some o /\ 100 * h + 10 * t + o = 254.
Proof.
  destruct (bcd_digits 0 bcd_me 0xF233)
    as (s' & h & t & o & Hs' & Hh & Ht & Ho & _ & _ & _ & Hsum & _).
  - apply wfb_wf. vm_compute. reflexivity.
  - vm_compute. reflexivity.
  - vm_compute. reflexivity.
  - vm_compute. reflexivity.
  - vm_compute. discriminate.
  - exists s', h, t, o. split; [exact Hs'|].
    split; [exact Hh|]. split; [exact Ht|]. split; [exact Ho|]. exact Hsum.
Defined.

(** ** Fx55 and Fx65, registers to memory and back *)

(** A cycle that runs Fx55 is the block copy, and the copy was in bounds. *)
Lemma ld_mem_v_inv (rnd : Z) (s : Chip8) (w : Z) (s' : Chip8) :
  fetch s = Some w ->
  op_of w = 0xF -> kk_of w = 0x55 ->
  executeCycle rnd s = Some s' ->
  exists m,
    memcpy_into (memory s) (I s) (V s) (x_of w + 1) = Some m /\
    s' = update_timers
           (advance 2 (set_I (u16 (I s + (x_of w + 1))) (set_memory m s))).
Proof.
  intros Hf Hop Hkk. unfold executeCycle. rewrite Hf.
  cbn [mbind option_bind]. dispatch Hop Hkk. unfold exec_ld_mem_v.
  destruct (memcpy_into _ _ _ _) as [m|]; [|done].
  cbn. intros [= <-]. eauto.
Qed.

Lemma ld_v_mem_inv (rnd : Z) (s : Chip8) (w : Z) (s' : Chip8) :
  fetch s = Some w ->
  op_of w = 0xF -> kk_of w = 0x65 ->
  executeCycle rnd s = Some s' ->
  exists v,
    memcpy_from (V s) (memory s) (I s) (x_of w + 1) = Some v /\
    s' = update_timers
           (advance 2 (set_I (u16 (I s + (x_of w + 1))) (set_V v s))).
Proof.
  intros Hf Hop Hkk. unfold executeCycle. rewrite Hf.
  cbn [mbind option_bind]. dispatch Hop Hkk. unfold exec_ld_v_mem.
  destruct (memcpy_from _ _ _ _) as [v|]; [|done].
  cbn. intros [= <-]. eauto.
Qed.

(** With the block inside memory the cycle runs. *)
Lemma ld_mem_v_runs (rnd : Z) (s : Chip8) (w : Z) :
  wf s ->
  fetch s = Some w ->
  op_of w = 0xF -> kk_of w = 0x55 ->
  I s + (x_of w + 1) <= 4096 ->
  exists s', executeCycle rnd s = Some s'.
Proof.
  intros Hwf Hf Hop Hkk HI.
  pose proof (x_of_range w) as Hxr.
  pose proof (wf_I s Hwf) as HI0. unfold is_u16 in HI0.
  destruct (memcpy_into_Some (memory s) (I s) (V s) (x_of w + 1)) as [m Hm].
  { lia. } { rewrite (wf_memory_len s Hwf). lia. }
  { rewrite (wf_V_len s Hwf). lia. }
  eexists. apply (step_thru rnd s w); [done|]. dispatch Hop Hkk.
  unfold exec_ld_mem_v. by rewrite Hm.
Qed.

Lemma ld_v_mem_runs (rnd : Z) (s : Chip8) (w : Z) :
  wf s ->
  fetch s = Some w ->
  op_of w = 0xF -> kk_of w = 0x65 ->
  I s + (x_of w + 1) <= 4096 ->
  exists s', executeCycle rnd s = Some s'.
Proof.
  intros Hwf Hf Hop Hkk HI.
  pose proof (x_of_range w) as Hxr.
  pose proof (wf_I s Hwf) as HI0. unfold is_u16 in HI0.
  destruct (memcpy_from_Some (V s) (memory s) (I s) (x_of w + 1)) as [v Hv].
  { lia. } { rewrite (wf_memory_len s Hwf). lia. }
  { rewrite (wf_V_len s Hwf). lia. }
  eexists. apply (step_thru rnd s w); [done|]. dispatch Hop Hkk.
  unfold exec_ld_v_mem. by rewrite Hv.
Qed.

(** (X10) Fx55 with [I + x + 1 <= 4096] copies [V[0] .. V[x]] to
    [memory[I] .. memory[I + x]] and changes no other byte; the registers
    are kept, [I] is left at [I + x + 1] and [PC] advances by 2. *)
Theorem store_registers (rnd : Z) (s : Chip8) (w : Z) :
  wf s ->
  fetch s = Some w ->
  op_of w = 0xF -> kk_of w = 0x55 ->
  I s + (x_of w + 1) <= 4096 ->
  exists s',
    executeCycle rnd s = Some s' /\
    (forall k, 0 <= k <= x_of w ->
       rd (memory s') (I s + k) = Some (reg s k)) /\
    (forall a, a < I s \/ I s + x_of w < a ->
       rd (memory s') a = rd (memory s) a) /\
    V s' = V s /\ I s' = I s + (x_of w + 1) /\ PC s' = PC s + 2.
Proof.
  intros Hwf Hf Hop Hkk HI.
  pose proof (x_of_range w) as Hxr.
  pose proof (wf_I s Hwf) as HI0. unfold is_u16 in HI0.
  destruct (ld_mem_v_runs rnd s w Hwf Hf Hop Hkk HI) as [s' Hs'].
  exists s'. split; [done|].
  destruct (ld_mem_v_inv rnd s w s' Hf Hop Hkk Hs') as (m & Hm & ->).
  rewrite memory_update_timers, V_update_timers, I_update_timers,
    PC_update_timers.
  cbn [memory V I PC advance set_PC set_I set_memory].
  repeat split.
  - intros k Hk. rewrite (rd_memcpy_into_in _ _ _ _ _ k Hm) by lia.
    apply rd_reg; [done|lia].
  - intros a Ha. apply (rd_memcpy_into_out _ _ _ _ _ a Hm); lia.
  - apply u16_id. unfold is_u16. lia.
  - by apply (advance_2_PC s Hwf w).
Qed.

Lemma store_registers_witness :
  exists s',
    executeCycle 0 store_me = Some s' /\
    rd (memory s') 0x300 = Some 11 /\ rd (memory s') 0x301 = Some 22 /\
    I s' = 0x302.
Proof.
  destruct (store_registers 0 store_me 0xF155)
    as (s' & Hs' & Hm & _ & _ & HI & _).
  - apply wfb_wf. vm_compute. reflexivity.
  - vm_compute. reflexivity.
  - vm_compute. reflexivity.
  - vm_compute. reflexivity.
  - vm_compute. discriminate.
  - exists s'. split; [exact Hs'|]. split; [|split].
    + apply (Hm 0). vm_compute. split; discriminate.
    + apply (Hm 1). vm_compute. split; discriminate.
    + exact HI.
Defined.

(** (X11) Fx65 with [I + x + 1 <= 4096] copies [memory[I] .. memory[I + x]]
    to [V[0] .. V[x]] and keeps the registers above [x]; memory is kept,
    [I] is left at [I + x + 1] and [PC] advances by 2. *)
Theorem load_registers (rnd : Z) (s : Chip8) (w : Z) :
  wf s ->
  fetch s = Some w ->
  op_of w = 0xF -> kk_of w = 0x65 ->
  I s + (x_of w + 1) <= 4096 ->
  exists s',
    executeCycle rnd s = Some s' /\
    (forall k, 0 <= k <= x_of w ->
       rd (V s') k = rd (memory s) (I s + k)) /\
    (forall k, x_of w < k -> rd (V s') k = rd (V s) k) /\
    memory s' = memory s /\ I s' = I s + (x_of w + 1) /\ PC s' = PC s + 2.
Proof.
  intros Hwf Hf Hop Hkk HI.
  pose proof (x_of_range w) as Hxr.
  pose proof (wf_I s Hwf) as HI0. unfold is_u16 in HI0.
  destruct (ld_v_mem_runs rnd s w Hwf Hf Hop Hkk HI) as [s' Hs'].
  exists s'. split; [done|].
  destruct (ld_v_mem_inv rnd s w s' Hf Hop Hkk Hs') as (v & Hv & ->).
  rewrite memory_update_timers, V_update_timers, I_update_timers,
    PC_update_timers.
  cbn [memory V I PC advance set_PC set_I set_V].
  repeat split.
  - intros k Hk. apply (rd_memcpy_from_in _ _ _ _ _ k Hv). lia.
  - intros k Hk. apply (rd_memcpy_from_out _ _ _ _ _ k Hv); lia.
  - apply u16_id. unfold is_u16. lia.
  - by apply (advance_2_PC s Hwf w).
Qed.

Lemma load_registers_witness :
  exists s',
    executeCycle 0 load_me = Some s' /\
    rd (V s') 0 = Some 0xF0 /\ rd (V s') 1 = Some 0x90 /\
    rd (V s') 5 = Some 0 /\ I s' = 5.
Proof.
  destruct (load_registers 0 load_me 0xF465)
    as (s' & Hs' & Hlo & Hhi & _ & HI & _).
  - apply wfb_wf. vm_compute. reflexivity.
  - vm_compute. reflexivity.
  - vm_compute. reflexivity.
  - vm_compute. reflexivity.
  - vm_compute. discriminate.
  - exists s'. split; [exact Hs'|]. split; [|split; [|split]].
    + apply (Hlo 0). vm_compute. split; discriminate.
    + apply (Hlo 1). vm_compute. split; discriminate.
    + apply (Hhi 5). vm_compute. reflexivity.
    + exact HI.
Defined.

Lemma memcpy_into_bound dst off src cnt m :
  memcpy_into dst off src cnt = Some m ->
  0 <= off /\ off + cnt <= Z.of_nat (length dst).
Proof. unfold memcpy_into. case_decide; [|done]. intros _. lia. Qed.

(** (X12) Registers saved with Fx55 come back with Fx65: after a cycle that
    ran Fx55 in state [s], an Fx65 with the same [x], run in any state [t]
    that has the memory the store left and [I] back at its value in [s],
    leaves in [V[0] .. V[x]] what they held in [s], whatever [t] holds in
    its registers. *)
Theorem store_load_roundtrip (rnd rnd' : Z) (s s1 t : Chip8) (w w' : Z) :
  wf s ->
  fetch s = Some w ->
  op_of w = 0xF -> kk_of w = 0x55 ->
  executeCycle rnd s = Some s1 ->
  wf t ->
  memory t = memory s1 -> I t = I s ->
  fetch t = Some w' ->
  op_of w' = 0xF -> kk_of w' = 0x65 -> x_of w' = x_of w ->
  exists t',
    executeCycle rnd' t = Some t' /\
    forall k, 0 <= k <= x_of w -> reg t' k = reg s k.
Proof.
  intros Hwf Hf Hop Hkk Hs1 Hwft Hmem HI Hf' Hop' Hkk' Hx.
  pose proof (x_of_range w) as Hxr.
  destruct (ld_mem_v_inv rnd s w s1 Hf Hop Hkk Hs1) as (m & Hm & ->).
  destruct (memcpy_into_bound _ _ _ _ _ Hm) as [HI0 HIb].
  rewrite (wf_memory_len s Hwf) in HIb.
  rewrite memory_update_timers in Hmem.
  cbn [memory advance set_PC set_I set_memory] in Hmem.
  destruct (ld_v_mem_runs rnd' t w' Hwft Hf' Hop' Hkk') as [t' Ht'].
  { rewrite HI, Hx. lia. }
  exists t'. split; [done|].
  destruct (ld_v_mem_inv rnd' t w' t' Hf' Hop' Hkk' Ht') as (v & Hv & ->).
  intros k Hk. unfold reg. rewrite V_update_timers.
  cbn [V advance set_PC set_I set_V].
  rewrite (rd_memcpy_from_in _ _ _ _ _ k Hv) by lia.
  rewrite Hmem, HI, (rd_memcpy_into_in _ _ _ _ _ k Hm) by lia.
  done.
Qed.

Lemma store_load_roundtrip_witness :
  reg restore_me 0 = 99 /\ reg restore_me 1 = 98 /\
  exists t',
    executeCycle 0 restore_me = Some t' /\ reg t' 0 = 11 /\ reg t' 1 = 22.
Proof.
  split; [vm_compute; reflexivity|]. split; [vm_compute; reflexivity|].
  destruct (executeCycle 0 store_me) as [s1|] eqn:Hs1;
    [|vm_compute in Hs1; discriminate].
  destruct (store_load_roundtrip 0 0 store_me s1 restore_me 0xF155 0xF165)
    as (t' & Ht' & Hk).
  - apply wfb_wf. vm_compute. reflexivity.
  - vm_compute. reflexivity.
  - vm_compute. reflexivity.
  - vm_compute. reflexivity.
  - exact Hs1.
  - apply wfb_wf. vm_compute. reflexivity.
  - vm_compute in Hs1. injection Hs1 as <-. vm_compute. reflexivity.
  - vm_compute. reflexivity.
  - vm_compute. reflexivity.
  - vm_compute. reflexivity.
  - vm_compute. reflexivity.
  - vm_compute. reflexivity.
  - exists t'. split; [exact Ht'|]. split.
    + rewrite (Hk 0); [vm_compute; reflexivity|].
      vm_compute. split; discriminate.
    + rewrite (Hk 1); [vm_compute; reflexivity|].
      vm_compute. split; discriminate.
Defined.

(** ** Fx33 then Fx65, the digits in registers *)

(** (X13) The digits Fx33 stores are read back by an Fx65 with [x = 2] run
    as the next cycle, for Fx33 leaves [I] where it was: [V[0]], [V[1]] and
    [V[2]] end as the hundreds, tens and ones of the value the register of
    Fx33 held. *)
Theorem bcd_then_load (rnd rnd' : Z) (s s1 : Chip8) (w w' : Z) :
  wf s ->
  fetch s = Some w ->
  op_of w = 0xF -> kk_of w = 0x33 ->
  executeCycle rnd s = Some s1 ->
  fetch s1 = Some w' ->
  op_of w' = 0xF -> kk_of w' = 0x65 -> x_of w' = 2 ->
  exists s2,
    let v := reg s (x_of w) in
    executeCycle rnd' s1 = Some s2 /\
    reg s2 0 = v / 100 /\ reg s2 1 = v / 10 mod 10 /\ reg s2 2 = v mod 10 /\
    100 * reg s2 0 + 10 * reg s2 1 + reg s2 2 = v.
Proof.
  intros Hwf Hf Hop Hkk Hs1 Hf' Hop' Hkk' Hx'.
  pose proof (x_of_range w) as Hxr.
  pose proof (wf_memory_len s Hwf) as Hlen.
  pose proof (reg_u8 s (x_of w) Hwf Hxr) as Hv. unfold is_u8 in Hv.
  destruct (digits_of_byte (reg s (x_of w)) Hv) as (_ & _ & _ & Hsum).
  pose proof (step_wf rnd s s1 Hwf Hs1) as Hwf1.
  destruct (ld_b_inv rnd s w s1 Hwf Hf Hop Hkk Hs1) as (HI0 & HI & Hs1').
  assert (I s1 = I s) as HI1 by (by rewrite Hs1', I_update_timers).
  destruct (ld_v_mem_runs rnd' s1 w' Hwf1 Hf' Hop' Hkk') as [s2 Hs2].
  { rewrite HI1, Hx'. lia. }
  exists s2. cbv zeta. split; [done|].
  destruct (ld_v_mem_inv rnd' s1 w' s2 Hf' Hop' Hkk' Hs2) as (v & Hv' & ->).
  assert (forall k, 0 <= k <= 2 ->
            reg (update_timers
                   (advance 2 (set_I (u16 (I s1 + (x_of w' + 1)))
                                 (set_V v s1)))) k
            = default 0 (rd (memory s1) (I s + k))) as Hreg.
  { intros k Hk. unfold reg. rewrite V_update_timers.
    cbn [V advance set_PC set_I set_V].
    rewrite (rd_memcpy_from_in _ _ _ _ _ k Hv') by lia. by rewrite HI1. }
  assert (reg (update_timers
                 (advance 2 (set_I (u16 (I s1 + (x_of w' + 1)))
                               (set_V v s1)))) 0
          = reg s (x_of w) / 100) as H0.
  { rewrite (Hreg 0) by lia. rewrite Hs1', memory_update_timers.
    cbn [memory advance set_PC set_memory]. rewrite Z.add_0_r.
    rewrite !rd_insert_other by lia. by rewrite rd_insert_eq by lia. }
  assert (reg (update_timers
                 (advance 2 (set_I (u16 (I s1 + (x_of w' + 1)))
                               (set_V v s1)))) 1
          = reg s (x_of w) / 10 mod 10) as H1.
  { rewrite (Hreg 1) by lia. rewrite Hs1', memory_update_timers.
    cbn [memory advance set_PC set_memory].
    rewrite rd_insert_other by lia.
    by rewrite rd_insert_eq by (rewrite length_insert; lia). }
  assert (reg (update_timers
                 (advance 2 (set_I (u16 (I s1 + (x_of w' + 1)))
                               (set_V v s1)))) 2
          = reg s (x_of w) mod 10) as H2.
  { rewrite (Hreg 2) by lia. rewrite Hs1', memory_update_timers.
    cbn [memory advance set_PC set_memory].
    by rewrite rd_insert_eq by (rewrite !length_insert; lia). }
  rewrite H0, H1, H2. done.
Qed.

Lemma bcd_then_load_witness :
  exists s1 s2,
    executeCycle 0 bcd_load = Some s1 /\ executeCycle 0 s1 = Some s2 /\
    reg s2 0 = 2 /\ reg s2 1 = 5 /\ reg s2 2 = 4.
Proof.
  destruct (executeCycle 0 bcd_load) as [s1|] eqn:Hs1;
    [|vm_compute in Hs1; discriminate].
  destruct (bcd_then_load 0 0 bcd_load s1 0xF233 0xF265)
    as (s2 & Hs2 & H0 & H1 & H2 & _).
  - apply wfb_wf. vm_compute. reflexivity.
  - vm_compute. reflexivity.
  - vm_compute. reflexivity.
  - vm_compute. reflexivity.
  - exact Hs1.
  - vm_compute in Hs1. injection Hs1 as <-. vm_compute. reflexivity.
  - vm_compute. reflexivity.
  - vm_compute. reflexivity.
  - vm_compute. reflexivity.
  - exists s1, s2. split; [reflexivity|]. split; [exact Hs2|].
    rewrite H0, H1, H2. repeat split; vm_compute; reflexivity.
Defined.

(** ** Fx15 then Fx07, the delay timer read back *)

(** (X14) The delay timer ticks at the end of the very cycle that loads it:
    after Fx15 with [V[x] = v], an Fx07 run next reads [v - 1] (0 when [v]
    is 0) into its register and leaves the timer one lower again. *)
Theorem timer_set_then_read (rnd rnd' : Z) (s s1 : Chip8) (w w' : Z) :
  wf s ->
  fetch s = Some w ->
  op_of w = 0xF -> kk_of w = 0x15 ->
  executeCycle rnd s = Some s1 ->
  fetch s1 = Some w' ->
  op_of w' = 0xF -> kk_of w' = 0x07 ->
  exists s2,
    executeCycle rnd' s1 = Some s2 /\
    reg s2 (x_of w') = tick (reg s (x_of w)) /\
    DT s2 = tick (tick (reg s (x_of w))).
Proof.
  intros Hwf Hf Hop Hkk Hs1 Hf' Hop' Hkk'.
  pose proof (x_of_range w) as Hxr. pose proof (x_of_range w') as Hxr'.
  pose proof (step_wf rnd s s1 Hwf Hs1) as Hwf1.
  pose proof (reg_u8 s (x_of w) Hwf Hxr) as Hv.
  assert (DT s1 = tick (reg s (x_of w))) as HDT1.
  { unfold executeCycle in Hs1. rewrite Hf in Hs1.
    cbn [mbind option_bind] in Hs1. revert Hs1. dispatch Hop Hkk.
    unfold exec_ld_dt_vx. rewrite rd_reg by done. cbn. intros [= <-].
    by rewrite update_timers_DT. }
  set (t := advance 2 (with_V (x_of w') (DT s1) s1)).
  assert (wf t) as Hwft.
  { apply wf_advance, wf_with_V; [done|apply (wf_DT s1 Hwf1)]. }
  exists (update_timers t). split.
  { apply (step_thru rnd' s1 w'); [done|]. dispatch Hop' Hkk'.
    unfold exec_ld_vx_dt. by rewrite put_V_with by done. }
  split.
  - rewrite reg_update_timers. unfold t.
    by rewrite reg_advance, reg_with_V_eq, HDT1 by done.
  - rewrite update_timers_DT by apply (wf_DT t Hwft). unfold t.
    cbn [DT advance set_PC with_V set_V]. by rewrite HDT1.
Qed.

Lemma timer_set_then_read_witness :
  exists s1 s2,
    executeCycle 0 timer_me = Some s1 /\ executeCycle 0 s1 = Some s2 /\
    reg s2 4 = 8 /\ DT s2 = 7.
Proof.
  destruct (executeCycle 0 timer_me) as [s1|] eqn:Hs1;
    [|vm_compute in Hs1; discriminate].
  destruct (timer_set_then_read 0 0 timer_me s1 0xF315 0xF407)
    as (s2 & Hs2 & Hr & HD).
  - apply wfb_wf. vm_compute. reflexivity.
  - vm_compute. reflexivity.
  - vm_compute. reflexivity.
  - vm_compute. reflexivity.
  - exact Hs1.
  - vm_compute in Hs1. injection Hs1 as <-. vm_compute. reflexivity.
  - vm_compute. reflexivity.
  - vm_compute. reflexivity.
  - exists s1, s2. split; [reflexivity|]. split; [exact Hs2|]. split.
    + change 4 with (x_of 0xF407). rewrite Hr. vm_compute. reflexivity.
    + rewrite HD. vm_compute. reflexivity.
Defined.

(** ** Dxy0, a sprite without rows *)

(** (X15) Dxyn with [n = 0] reads no sprite byte, whatever [I] holds: the
    display is kept, [V[0xF]] is cleared, the draw flag is raised, the
    other registers are kept and [PC] advances by 2. *)
Theorem draw_zero_rows (rnd : Z) (s : Chip8) (w : Z) :
  wf s ->
  fetch s = Some w ->
  op_of w = 0xD -> n_of w = 0 ->
  exists s',
    executeCycle rnd s = Some s' /\
    display s' = display s /\ reg s' 0xF = 0 /\ draw s' = true /\
    (forall k, 0 <= k < 15 -> reg s' k = reg s k) /\
    memory s' = memory s /\ I s' = I s /\ PC s' = PC s + 2.
Proof.
  intros Hwf Hf Hop Hn.
  pose proof (x_of_range w) as Hxr. pose proof (y_of_range w) as Hyr.
  assert (wf (with_V 15 0 s)) as Hwf0
    by (apply wf_with_V; [done|unfold is_u8; lia]).
  exists (update_timers (advance 2 (set_draw true (with_V 0xF 0 s)))).
  split.
  { apply (step_thru rnd s w); [done|]. unfold exec. rewrite Hop, Hn.
    cbn [Z.eqb Pos.eqb]. unfold exec_drw.
    rewrite put_V_with by (done || lia). cbn [mbind option_bind].
    rewrite !rd_reg by done. done. }
  rewrite display_update_timers, draw_update_timers, memory_update_timers,
    I_update_timers, PC_update_timers.
  repeat split.
  - rewrite reg_update_timers.
    change (reg (with_V 15 0 s) 15 = 0). by rewrite reg_with_V_eq.
  - intros k Hk. rewrite reg_update_timers.
    change (reg (with_V 15 0 s) k = reg s k). by rewrite reg_with_V_ne by lia.
  - cbn [PC advance set_PC set_draw with_V set_V].
    by apply (advance_2_PC s Hwf w).
Qed.

Lemma draw_zero_rows_witness :
  exists s',
    executeCycle 0 draw_none = Some s' /\
    display s' = display draw_none /\ reg s' 0xF = 0 /\ draw s' = true.
Proof.
  destruct (draw_zero_rows 0 draw_none 0xD010)
    as (s' & Hs' & Hd & HF & Hdr & _).
  - apply wfb_wf. vm_compute. reflexivity.
  - vm_compute. reflexivity.
  - vm_compute. reflexivity.
  - vm_compute. reflexivity.
  - exists s'. split; [exact Hs'|]. split; [exact Hd|].
    split; [exact HF|exact Hdr].
Defined.

(** ** Cxkk, the masked random byte *)

Lemma land_le a b : 0 <= b -> Z.land a b <= b.
Proof.
  intros Hb.
  assert (Z.land a b + Z.land (Z.lnot a) b = b) as Hsum.
  { rewrite Z.add_nocarry_lxor.
    - apply Z.bits_inj'. intros n Hn.
      rewrite Z.lxor_spec, !Z.land_spec, Z.lnot_spec by lia.
      by destruct (Z.testbit a n), (Z.testbit b n).
    - apply Z.bits_inj'. intros n Hn.
      rewrite !Z.land_spec, Z.lnot_spec, Z.bits_0 by lia.
      by destruct (Z.testbit a n), (Z.testbit b n). }
  assert (0 <= Z.land (Z.lnot a) b) by (apply Z.land_nonneg; by right).
  lia.
Qed.

(** (X16) Cxkk leaves in [V[x]] the low byte of the random number masked
    with [kk]: a value between 0 and [kk] with no bit outside [kk] (0 when
    [kk] is 0), whatever non-negative number [rand()] returned; the other
    registers are kept and [PC] advances by 2. *)
Theorem rnd_masked (rnd : Z) (s : Chip8) (w : Z) :
  0 <= rnd ->
  wf s ->
  fetch s = Some w ->
  op_of w = 0xC ->
  exists s',
    executeCycle rnd s = Some s' /\
    reg s' (x_of w) = Z.land (rnd mod 256) (kk_of w) /\
    0 <= reg s' (x_of w) <= kk_of w /\
    Z.land (reg s' (x_of w)) (kk_of w) = reg s' (x_of w) /\
    (forall k, 0 <= k < 16 -> k <> x_of w -> reg s' k = reg s k) /\
    PC s' = PC s + 2.
Proof.
  intros _ Hwf Hf Hop.
  pose proof (x_of_range w) as Hxr.
  assert (0 <= kk_of w < 256) as Hkk.
  { rewrite kk_of_spec. apply Z.mod_pos_bound. lia. }
  set (r := Z.land (rnd mod 256) (kk_of w)).
  assert (0 <= r <= kk_of w) as Hr.
  { split; [|apply land_le; lia].
    apply Z.land_nonneg. right. lia. }
  assert (u8 r = r) as Hu by (apply u8_id; unfold is_u8; lia).
  exists (update_timers (advance 2 (with_V (x_of w) r s))). split.
  { apply (step_thru rnd s w); [done|]. unfold exec. rewrite Hop.
    cbn [Z.eqb Pos.eqb]. unfold exec_rnd. fold r. rewrite Hu.
    by rewrite put_V_with by done. }
  rewrite !reg_update_timers, PC_update_timers, !reg_advance,
    reg_with_V_eq by done.
  repeat split; try lia.
  - unfold r. by rewrite <- Z.land_assoc, Z.land_diag.
  - intros k Hk Hne. by rewrite reg_update_timers, reg_advance,
      reg_with_V_ne by lia.
  - rewrite PC_advance, PC_with_V. by apply (advance_2_PC s Hwf w).
Qed.

Lemma rnd_masked_witness :
  exists s',
    executeCycle 0xABCD rnd_me = Some s' /\ 0 <= reg s' 1 <= 0x0F.
Proof.
  destruct (rnd_masked 0xABCD rnd_me 0xC10F) as (s' & Hs' & _ & Hr & _).
  - vm_compute. discriminate.
  - apply wfb_wf. vm_compute. reflexivity.
  - vm_compute. reflexivity.
  - vm_compute. reflexivity.
  - exists s'. split; [exact Hs'|]. exact Hr.
Defined.


(** ** What a cycle leaves alone *)

(** A view [f] of the machine that the writes to [V], [PC], [I], [DT] and
    [ST] do not change is kept by every branch that writes nothing else. *)
Section frame.
Context {A : Type} (f : Chip8 -> A).
Hypothesis f_V : forall v s, f (set_V v s) = f s.
Hypothesis f_PC : forall z s, f (set_PC z s) = f s.
Hypothesis f_I : forall z s, f (set_I z s) = f s.
Hypothesis f_DT : forall z s, f (set_DT z s) = f s.
Hypothesis f_ST : forall z s, f (set_ST z s) = f s.

Lemma frame_put_V i z t t' : put_V i z t = Some t' -> f t' = f t.
Proof.
  unfold put_V. destruct (wr (V t) i z); [|done]. intros [= <-]. apply f_V.
Qed.

Lemma frame_advance k t : f (advance k t) = f t.
Proof. apply f_PC. Qed.

Lemma frame_update_timers t : f (update_timers t) = f t.
Proof.
  unfold update_timers.
  destruct (0 <? DT t); destruct (0 <? ST _); by rewrite ?f_ST, ?f_DT.
Qed.

Lemma frame_finish o : f (finish o) = f (state_of o).
Proof. destruct o; [apply frame_update_timers|done]. Qed.

Lemma frame_ld_vx_k x t o :
  exec_ld_vx_k x t = Some o -> f (state_of o) = f t.
Proof.
  unfold exec_ld_vx_k. intros H. bind_inv H.
  assert (f p.2 = f t) as Hp.
  { eapply (for_loop_preserves (fun st => f st.2 = f t)); [|exact E|done].
    intros j u u' Hu Hfu. unfold key_scan in Hu. bind_inv Hu.
    injection Hu as <-. cbn [snd]. by rewrite (frame_put_V _ _ _ _ E2). }
  destruct (negb p.1); injection H as <-; cbn [state_of];
    by rewrite ?frame_advance.
Qed.

(** The branches that write the display, the stack or memory. *)
Section special.
Variables t t' : Chip8.

Lemma frame_cls :
  (forall d s, f (set_display d s) = f s) ->
  (forall b s, f (set_draw b s) = f s) ->
  exec_cls t = Some t' -> f t' = f t.
Proof.
  intros Hd Hb. unfold exec_cls. intros H. apply (inj Some) in H. subst t'.
  by rewrite frame_advance, Hb, Hd.
Qed.

Lemma frame_draw_pixel nb r sc col :
  (forall d s, f (set_display d s) = f s) ->
  draw_pixel nb r sc col t = Some t' -> f t' = f t.
Proof.
  intros Hd. unfold draw_pixel. cbv zeta. intros H. bind_inv H.
  by rewrite (frame_put_V _ _ _ _ H), Hd.
Qed.

Lemma frame_ret :
  (forall z s, f (set_SP z s) = f s) ->
  exec_ret t = Some t' -> f t' = f t.
Proof.
  intros Hsp. unfold exec_ret. cbv zeta. intros H. bind_inv H.
  injection H as <-. by rewrite frame_advance, f_PC, Hsp.
Qed.

Lemma frame_call nnn :
  (forall z s, f (set_SP z s) = f s) ->
  (forall l s, f (set_stack l s) = f s) ->
  exec_call nnn t = Some t' -> f t' = f t.
Proof.
  intros Hsp Hst. unfold exec_call. intros H. bind_inv H.
  injection H as <-. by rewrite f_PC, Hsp, Hst.
Qed.

Lemma frame_ld_b x :
  (forall m s, f (set_memory m s) = f s) ->
  exec_ld_b x t = Some t' -> f t' = f t.
Proof.
  intros Hm. unfold exec_ld_b. intros H. bind_inv H.
  injection H as <-. by rewrite frame_advance, Hm.
Qed.

Lemma frame_ld_mem_v x :
  (forall m s, f (set_memory m s) = f s) ->
  exec_ld_mem_v x t = Some t' -> f t' = f t.
Proof.
  intros Hm. unfold exec_ld_mem_v. intros H. bind_inv H.
  injection H as <-. by rewrite frame_advance, f_I, Hm.
Qed.
End special.

Lemma frame_draw_row sr sc row t t' :
  (forall d s, f (set_display d s) = f s) ->
  draw_row sr sc row t = Some t' -> f t' = f t.
Proof.
  intros Hd. unfold draw_row. intros H. bind_inv H.
  eapply (for_loop_preserves (fun v => f v = f t)); [|exact H|done].
  intros j' v v' Hv Hfv. by rewrite (frame_draw_pixel _ _ _ _ _ _ Hd Hv).
Qed.

Lemma frame_drw x y n t t' :
  (forall d s, f (set_display d s) = f s) ->
  (forall b s, f (set_draw b s) = f s) ->
  exec_drw x y n t = Some t' -> f t' = f t.
Proof.
  intros Hd Hb. unfold exec_drw. intros H. bind_inv H. injection H as <-.
  rewrite frame_advance, Hb.
  eapply (for_loop_preserves (fun u => f u = f t)); [|exact E2|].
  - intros j u u' Hu Hfu. by rewrite (frame_draw_row _ _ _ _ _ Hd Hu).
  - by rewrite (frame_put_V _ _ _ _ E).
Qed.

(** The dispatch: [f] is kept by every branch whose further writes it
    does not see. *)
Lemma frame_exec rnd w s o :
  exec rnd w s = Some o ->
  (is_cls w = true \/ is_drw w = true ->
   (forall d s, f (set_display d s) = f s) /\
   (forall b s, f (set_draw b s) = f s)) ->
  (is_ret w = true \/ is_call w = true ->
   forall z s, f (set_SP z s) = f s) ->
  (is_call w = true -> forall l s, f (set_stack l s) = f s) ->
  (is_ld_b w = true \/ is_ld_mem_v w = true ->
   forall m s, f (set_memory m s) = f s) ->
  f (state_of o) = f s.
Proof.
  unfold exec, is_cls, is_ret, is_call, is_drw, is_ld_b, is_ld_mem_v.
  cbv zeta.
  repeat match goal with
  | |- (if ?b then _ else _) = Some _ -> _ => destruct b eqn:?
  end;
  try (intros [= <-]; done);
  try (intros Ho _ _ _ _; by apply (frame_ld_vx_k _ _ _ Ho));
  intros (t & Ht & ->)%thru_inv Hdisp Hsp Hst Hmem; cbn [state_of];
  lazymatch type of Ht with
  | exec_cls _ = _ =>
      destruct Hdisp as [Hd Hb]; [by left|]; by apply frame_cls
  | exec_ret _ = _ => apply frame_ret; [|done]; apply Hsp; by left
  | exec_call _ _ = _ =>
      eapply frame_call; [| |done]; [apply Hsp; by right|by apply Hst]
  | exec_drw _ _ _ _ = _ =>
      destruct Hdisp as [Hd Hb]; [by right|]; by eapply frame_drw
  | exec_ld_b _ _ = _ => eapply frame_ld_b; [|done]; apply Hmem; by left
  | exec_ld_mem_v _ _ = _ =>
      eapply frame_ld_mem_v; [|done]; apply Hmem; by right
  | _ =>
      unfold exec_jp, exec_se_byte, exec_sne_byte, exec_se_reg,
        exec_ld_byte, exec_add_byte, exec_ld_reg, exec_bitop, exec_add_reg,
        exec_sub_reg, exec_shr, exec_subn_reg, exec_shl, exec_sne_reg,
        exec_ld_i, exec_jp_v0, exec_rnd, exec_skp, exec_sknp, exec_ld_vx_dt,
        exec_ld_dt_vx, exec_ld_st_vx, exec_add_i, exec_ld_f, exec_ld_v_mem
        in Ht;
      bind_inv Ht; injection Ht as <-;
      rewrite ?frame_advance, ?f_PC, ?f_I, ?f_DT, ?f_ST, ?f_V;
      repeat match goal with
      | E : put_V _ _ _ = Some _ |- _ =>
          rewrite (frame_put_V _ _ _ _ E); clear E
      end;
      done
  end.
Qed.

(** The whole cycle. *)
Lemma frame_cycle rnd s w s' :
  fetch s = Some w ->
  executeCycle rnd s = Some s' ->
  (is_cls w = true \/ is_drw w = true ->
   (forall d s, f (set_display d s) = f s) /\
   (forall b s, f (set_draw b s) = f s)) ->
  (is_ret w = true \/ is_call w = true ->
   forall z s, f (set_SP z s) = f s) ->
  (is_call w = true -> forall l s, f (set_stack l s) = f s) ->
  (is_ld_b w = true \/ is_ld_mem_v w = true ->
   forall m s, f (set_memory m s) = f s) ->
  f s' = f s.
Proof.
  intros Hf. unfold executeCycle. rewrite Hf. cbn [mbind option_bind].
  intros H. bind_inv H. injection H as <-. intros H1 H2 H3 H4.
  rewrite frame_finish. by eapply frame_exec.
Qed.
End frame.

Lemma cycle_fetches rnd s s' :
  executeCycle rnd s = Some s' -> exists w, fetch s = Some w.
Proof.
  unfold executeCycle. destruct (fetch s) as [w|]; [eauto|done].
Qed.

Lemma cycle_exec rnd s w s' :
  fetch s = Some w -> executeCycle rnd s = Some s' ->
  exists o, exec rnd w s = Some o /\ s' = finish o.
Proof.
  intros Hf. unfold executeCycle. rewrite Hf. cbn [mbind option_bind].
  destruct (exec rnd w s) as [o|]; [|done]. intros [= <-]. eauto.
Qed.

(** (X17) A cycle keeps the machine well formed: the arrays keep their
    sizes and every member stays in the range of its C type, the 8-bit and
    16-bit arithmetic wrapping around. *)
Theorem cycle_keeps_wf (rnd : Z) (s s' : Chip8) :
  wf s -> executeCycle rnd s = Some s' -> wf s'.
Proof.
  intros Hwf Hs. destruct (cycle_fetches rnd s s' Hs) as [w Hf].
  destruct (cycle_exec rnd s w s' Hf Hs) as (o & Ho & ->).
  destruct (exec_inv rnd w s o Hwf Ho) as (Hwf' & _).
  destruct o; cbn [finish state_of] in *; [by apply wf_update_timers|done].
Qed.

Lemma cycle_keeps_wf_witness :
  exists s', executeCycle 0 ticking = Some s' /\ wf s'.
Proof.
  destruct (executeCycle 0 ticking) as [s'|] eqn:Hs';
    [|vm_compute in Hs'; discriminate].
  exists s'. split; [reflexivity|].
  apply (cycle_keeps_wf 0 ticking s').
  - apply wfb_wf. vm_compute. reflexivity.
  - exact Hs'.
Defined.

Lemma andb_eqb_true a b c d :
  (a =? b) && (c =? d) = true -> a = b /\ c = d.
Proof. intros [H1 H2]%andb_true_iff. by apply Z.eqb_eq in H1, H2. Qed.

(** (X18) A cycle never writes the keys: whatever the instruction, the
    sixteen key flags are those it found. *)
Theorem keys_read_only (rnd : Z) (s s' : Chip8) :
  executeCycle rnd s = Some s' -> keys s' = keys s.
Proof.
  intros Hs. destruct (cycle_fetches rnd s s' Hs) as [w Hf].
  by apply (frame_cycle keys) with (rnd := rnd) (w := w).
Qed.

Lemma keys_read_only_witness :
  exists s', executeCycle 0 key3_down = Some s' /\ keys s' = keys key3_down.
Proof.
  destruct (executeCycle 0 key3_down) as [s'|] eqn:Hs';
    [|vm_compute in Hs'; discriminate].
  exists s'. split; [reflexivity|].
  apply (keys_read_only 0 key3_down s'). exact Hs'.
Defined.

(** The two branches that write the display end with the flag raised. *)
Lemma draw_flag_raised rnd w s o :
  exec rnd w s = Some o ->
  is_cls w = true \/ is_drw w = true ->
  draw (state_of o) = true.
Proof.
  intros Ho [[Hop Hn]%andb_eqb_true|Hop%Z.eqb_eq]; revert Ho.
  - dispatch Hop Hn. by intros [= <-].
  - unfold exec. rewrite Hop. cbn [Z.eqb Pos.eqb].
    intros (t & Ht & ->)%thru_inv. unfold exec_drw in Ht. bind_inv Ht.
    by injection Ht as <-.
Qed.

(** The display and the flag, by the instruction run. *)
Lemma cycle_draw_cases rnd s w s' :
  fetch s = Some w ->
  executeCycle rnd s = Some s' ->
  (is_cls w || is_drw w = true -> draw s' = true) /\
  (is_cls w || is_drw w = false ->
   display s' = display s /\ draw s' = draw s).
Proof.
  intros Hf Hs. split.
  - intros Hw%orb_true_iff.
    destruct (cycle_exec rnd s w s' Hf Hs) as (o & Ho & ->).
    rewrite (frame_finish draw) by done.
    by apply (draw_flag_raised rnd w s o Ho).
  - intros [Hc Hd]%orb_false_iff.
    assert ((display s', draw s') = (display s, draw s)) as [= -> ->]; [|done].
    apply (frame_cycle (fun t => (display t, draw t)))
      with (rnd := rnd) (w := w); try done.
    intros [?|?]; congruence.
Qed.

(** (X19) A cycle that changes the display leaves the draw flag raised, and
    no cycle lowers the flag: after a cycle either the flag is up, or the
    display and the flag are as they were. *)
Theorem display_change_raises_draw (rnd : Z) (s s' : Chip8) :
  executeCycle rnd s = Some s' ->
  draw s' = true \/ (display s' = display s /\ draw s' = draw s).
Proof.
  intros Hs. destruct (cycle_fetches rnd s s' Hs) as [w Hf].
  destruct (cycle_draw_cases rnd s w s' Hf Hs) as [Hup Hsame].
  destruct (is_cls w || is_drw w); [left|right]; auto.
Qed.

Lemma display_change_raises_draw_witness :
  exists s',
    executeCycle 0 draw_corner = Some s' /\
    (draw s' = true
     \/ (display s' = display draw_corner /\ draw s' = draw draw_corner)).
Proof.
  destruct (executeCycle 0 draw_corner) as [s'|] eqn:Hs';
    [|vm_compute in Hs'; discriminate].
  exists s'. split; [reflexivity|].
  apply (display_change_raises_draw 0 draw_corner s'). exact Hs'.
Defined.

(** (X20) A cycle stores to memory only through Fx33, at [I], [I + 1] and
    [I + 2], and through Fx55, at [I .. I + x]: every other byte of memory,
    and all of memory for every other instruction, is as it was. *)
Theorem memory_write_footprint (rnd : Z) (s : Chip8) (w : Z) (s' : Chip8) :
  fetch s = Some w ->
  executeCycle rnd s = Some s' ->
  forall a, may_store s w a = false -> rd (memory s') a = rd (memory s) a.
Proof.
  intros Hf Hs a Ha. unfold may_store in Ha.
  pose proof (x_of_range w) as Hxr.
  destruct (is_ld_b w) eqn:Hb; [|destruct (is_ld_mem_v w) eqn:Hm].
  - destruct (andb_eqb_true _ _ _ _ Hb) as [Hop Hkk].
    destruct (cycle_exec rnd s w s' Hf Hs) as (o & Ho & ->).
    rewrite (frame_finish memory) by done. revert Ho. dispatch Hop Hkk.
    intros (t & Ht & ->)%thru_inv. cbn [state_of].
    unfold exec_ld_b in Ht. bind_inv Ht. injection Ht as <-.
    cbn [memory advance set_PC set_memory].
    destruct (wr_inv_insert _ _ _ _ E0) as [H0 ->].
    destruct (wr_inv_insert _ _ _ _ E1) as [H1 ->].
    destruct (wr_inv_insert _ _ _ _ E2) as [H2 ->].
    assert (Hm' : is_ld_mem_v w = false).
    { unfold is_ld_mem_v. rewrite Hkk. by rewrite andb_false_r. }
    rewrite Hm' in Ha. cbn [andb orb] in Ha.
    rewrite orb_false_r in Ha.
    assert (~ (I s <= a < I s + 3)) as Hout.
    { intros [Hlo Hhi]. apply Z.leb_le in Hlo. apply Z.ltb_lt in Hhi.
      by rewrite Hlo, Hhi in Ha. }
    rewrite !rd_insert_other by lia. done.
  - destruct (andb_eqb_true _ _ _ _ Hm) as [Hop Hkk].
    destruct (ld_mem_v_inv rnd s w s' Hf Hop Hkk Hs) as (m & Hm' & ->).
    rewrite memory_update_timers. cbn [memory advance set_PC set_I set_memory].
    cbn [andb orb] in Ha.
    assert (~ (I s <= a <= I s + x_of w)) as Hout.
    { intros [Hlo Hhi]. apply Z.leb_le in Hlo, Hhi.
      by rewrite Hlo, Hhi in Ha. }
    apply (rd_memcpy_into_out _ _ _ _ _ a Hm'); lia.
  - f_equal. apply (frame_cycle memory) with (rnd := rnd) (w := w);
      try done.
    intros [?|?]; congruence.
Qed.

Lemma memory_write_footprint_witness :
  exists s',
    executeCycle 0 bcd_me = Some s' /\
    rd (memory s') 0x2FF = rd (memory bcd_me) 0x2FF /\
    rd (memory s') 0x303 = rd (memory bcd_me) 0x303.
Proof.
  destruct (executeCycle 0 bcd_me) as [s'|] eqn:Hs';
    [|vm_compute in Hs'; discriminate].
  exists s'. split; [reflexivity|].
  split.
  - apply (memory_write_footprint 0 bcd_me 0xF233 s').
    + vm_compute. reflexivity.
    + exact Hs'.
    + vm_compute. reflexivity.
  - apply (memory_write_footprint 0 bcd_me 0xF233 s').
    + vm_compute. reflexivity.
    + exact Hs'.
    + vm_compute. reflexivity.
Defined.

(** (X21) The stack is written by 2nnn alone, at [stack[SP]], and [SP]
    moves by one, up with 2nnn and down with 00EE: a call that runs found
    [SP < 16], a return that runs found [1 <= SP <= 16] and continues two
    bytes after the address in [stack[SP - 1]]; every other instruction
    keeps both.  So [SP] stays within [0 .. 16]. *)
Theorem stack_discipline (rnd : Z) (s : Chip8) (w : Z) (s' : Chip8) :
  wf s ->
  fetch s = Some w ->
  executeCycle rnd s = Some s' ->
  (is_call w = true ->
   SP s < 16 /\ stack s' = <[Z.to_nat (SP s) := PC s]> (stack s) /\
   SP s' = SP s + 1 /\ PC s' = nnn_of w) /\
  (is_ret w = true ->
   1 <= SP s <= 16 /\ stack s' = stack s /\ SP s' = SP s - 1 /\
   exists a, rd (stack s) (SP s - 1) = Some a /\ PC s' = u16 (a + 2)) /\
  (is_call w = false -> is_ret w = false ->
   stack s' = stack s /\ SP s' = SP s) /\
  (SP s <= 16 -> SP s' <= 16).
Proof.
  intros Hwf Hf Hs.
  pose proof (wf_SP s Hwf) as HSP. unfold is_u8 in HSP.
  pose proof (wf_stack_len s Hwf) as Hlen.
  assert (is_call w = true ->
          SP s < 16 /\ stack s' = <[Z.to_nat (SP s) := PC s]> (stack s) /\
          SP s' = SP s + 1 /\ PC s' = nnn_of w) as Hcall.
  { intros Hop%Z.eqb_eq.
    destruct (cycle_exec rnd s w s' Hf Hs) as (o & Ho & ->). revert Ho.
    unfold exec. rewrite Hop. cbn [Z.eqb Pos.eqb].
    intros (t & Ht & ->)%thru_inv. unfold exec_call in Ht. bind_inv Ht.
    injection Ht as <-. destruct (wr_inv_insert _ _ _ _ E) as [Hb ->].
    cbn [finish]. rewrite stack_update_timers, SP_update_timers,
      PC_update_timers. cbn [stack SP PC set_PC set_SP set_stack].
    repeat split; [lia|]. apply u8_id. unfold is_u8. lia. }
  assert (is_ret w = true ->
          1 <= SP s <= 16 /\ stack s' = stack s /\ SP s' = SP s - 1 /\
          exists a, rd (stack s) (SP s - 1) = Some a /\ PC s' = u16 (a + 2))
    as Hret.
  { intros [Hop Hn]%andb_eqb_true.
    destruct (cycle_exec rnd s w s' Hf Hs) as (o & Ho & ->). revert Ho.
    dispatch Hop Hn.
    intros (t & Ht & ->)%thru_inv. unfold exec_ret in Ht.
    cbv zeta in Ht. cbn [stack SP set_SP] in Ht. bind_inv Ht.
    injection Ht as <-. apply rd_Some_lt in E as Hb. rewrite Hlen in Hb.
    assert (1 <= SP s <= 16) as Hr.
    { destruct (decide (SP s = 0)) as [H0|H0].
      - rewrite H0 in Hb. vm_compute in Hb. by destruct Hb as [_ [=]].
      - assert (u8 (SP s - 1) = SP s - 1) as Hu
          by (apply u8_id; unfold is_u8; lia).
        rewrite Hu in Hb. lia. }
    assert (u8 (SP s - 1) = SP s - 1) as Hu
      by (apply u8_id; unfold is_u8; lia).
    rewrite Hu in E.
    cbn [finish]. rewrite stack_update_timers, SP_update_timers,
      PC_update_timers.
    cbn [stack SP PC advance set_PC set_SP].
    repeat split; try lia; try done. eauto. }
  assert (is_call w = false -> is_ret w = false ->
          stack s' = stack s /\ SP s' = SP s) as Hother.
  { intros Hc Hr.
    assert ((stack s', SP s') = (stack s, SP s)) as [= -> ->]; [|done].
    apply (frame_cycle (fun t => (stack t, SP t)))
      with (rnd := rnd) (w := w); try done.
    - intros [?|?]; congruence.
    - congruence. }
  split; [done|]. split; [done|]. split; [done|].
  intros H16. destruct (is_call w) eqn:Hc; [|destruct (is_ret w) eqn:Hr].
  - destruct Hcall as (? & _ & -> & _); [done|lia].
  - destruct Hret as (? & _ & -> & _); [done|lia].
  - destruct Hother as (_ & ->); done.
Qed.

Lemma stack_discipline_witness :
  exists s',
    executeCycle 0 call_site = Some s' /\
    SP s' = 1 /\ rd (stack s') 0 = Some 0x200 /\ PC s' = 0x204.
Proof.
  destruct (executeCycle 0 call_site) as [s'|] eqn:Hs';
    [|vm_compute in Hs'; discriminate].
  exists s'. split; [reflexivity|].
  destruct (stack_discipline 0 call_site 0x2204 s') as (Hcall & _).
  - apply wfb_wf. vm_compute. reflexivity.
  - vm_compute. reflexivity.
  - exact Hs'.
  - destruct Hcall as (_ & Hst & HSP & HPC); [vm_compute; reflexivity|].
    split; [rewrite HSP; vm_compute; reflexivity|].
    split; [rewrite Hst; vm_compute; reflexivity|].
    rewrite HPC. vm_compute. reflexivity.
Defined.


(** ** When a cycle is defined *)

Lemma rd_is_Some_iff {A} (l : list A) i :
  is_Some (rd l i) <-> 0 <= i < Z.of_nat (length l).
Proof.
  split.
  - intros [a Ha]. by apply rd_Some_lt in Ha.
  - intros Hi. destruct (rd_is_Some l i Hi) as [a Ha]. by exists a.
Qed.

Lemma wr_is_Some_iff {A} (l : list A) i a :
  is_Some (wr l i a) <-> 0 <= i < Z.of_nat (length l).
Proof.
  unfold wr. case_decide as Hc; split; by intros H.
Qed.

Lemma bind_is_Some {A B} (f : A -> option B) (mx : option A) :
  is_Some (mx ≫= f) <-> exists x, mx = Some x /\ is_Some (f x).
Proof.
  destruct mx as [x|]; cbn; split.
  - intros H. by exists x.
  - by intros (? & [= <-] & H).
  - by intros [? [=]].
  - by intros (? & [=] & _).
Qed.

Lemma is_Some_thru r : is_Some (thru r) <-> is_Some r.
Proof. unfold thru. by rewrite fmap_is_Some. Qed.

Lemma rd_V_len t i :
  Z.of_nat (length (V t)) = 16 -> 0 <= i < 16 ->
  exists v, rd (V t) i = Some v.
Proof. intros Hl Hi. apply rd_is_Some. lia. Qed.

Lemma put_V_len t i z :
  Z.of_nat (length (V t)) = 16 -> 0 <= i < 16 ->
  exists t', put_V i z t = Some t' /\ Z.of_nat (length (V t')) = 16.
Proof.
  intros Hl Hi. unfold put_V. rewrite wr_Some by lia.
  eexists. split; [done|]. cbn [V set_V]. by rewrite length_insert.
Qed.

(** Runs the register reads and writes of a branch. *)
Ltac run_V :=
  repeat match goal with
  | L : Z.of_nat (length (V ?t)) = 16 |- context [rd (V ?t) ?i] =>
      let v := fresh "v" in
      let E := fresh "E" in
      destruct (rd_V_len t i L) as [v E]; [lia|];
      rewrite E; clear E; cbn [mbind option_bind]
  | L : Z.of_nat (length (V ?t)) = 16 |- context [put_V ?i ?z ?t] =>
      let t' := fresh "t" in
      let E := fresh "E" in
      let L' := fresh "L" in
      destruct (put_V_len t i z L) as (t' & E & L'); [lia|];
      rewrite E; clear E; cbn [mbind option_bind]
  end.

Section defined.
Variable s : Chip8.
Hypothesis Hwf : wf s.

Lemma ret_defined : is_Some (exec_ret s) <-> 1 <= SP s <= 16.
Proof.
  pose proof (wf_SP s Hwf) as HSP. unfold is_u8 in HSP.
  pose proof (wf_stack_len s Hwf) as Hlen.
  unfold exec_ret. cbv zeta. cbn [stack SP set_SP].
  rewrite bind_is_Some.
  split.
  - intros (a & Ha%rd_Some_lt & _). rewrite Hlen in Ha.
    destruct (decide (SP s = 0)) as [H0|H0].
    + rewrite H0 in Ha. vm_compute in Ha. by destruct Ha as [_ [=]].
    + rewrite u8_id in Ha by (unfold is_u8; lia). lia.
  - intros Hr. destruct (rd_is_Some (stack s) (u8 (SP s - 1))) as [a Ha].
    { rewrite u8_id by (unfold is_u8; lia). lia. }
    exists a. by split.
Qed.

Lemma call_defined nnn : is_Some (exec_call nnn s) <-> SP s <= 15.
Proof.
  pose proof (wf_SP s Hwf) as HSP. unfold is_u8 in HSP.
  pose proof (wf_stack_len s Hwf) as Hlen.
  unfold exec_call. rewrite bind_is_Some. split.
  - intros (st & Hst & _).
    assert (is_Some (wr (stack s) (SP s) (PC s))) as Hs by (by exists st).
    apply wr_is_Some_iff in Hs. lia.
  - intros Hr.
    destruct (proj2 (wr_is_Some_iff (stack s) (SP s) (PC s))) as [st Hst];
      [lia|].
    exists st. by split.
Qed.

Lemma skp_defined x :
  0 <= x < 16 -> is_Some (exec_skp x s) <-> reg s x <= 15.
Proof.
  intros Hx. pose proof (reg_u8 s x Hwf Hx) as Hv. unfold is_u8 in Hv.
  pose proof (wf_keys_len s Hwf) as Hlen.
  unfold exec_skp. rewrite rd_reg by done. cbn [mbind option_bind].
  rewrite bind_is_Some. split.
  - intros (k & Hk%rd_Some_lt & _). lia.
  - intros Hr. destruct (rd_keys s Hwf (reg s x)) as [k Hk]; [lia|].
    exists k. by split.
Qed.

Lemma sknp_defined x :
  0 <= x < 16 -> is_Some (exec_sknp x s) <-> reg s x <= 15.
Proof.
  intros Hx. pose proof (reg_u8 s x Hwf Hx) as Hv. unfold is_u8 in Hv.
  pose proof (wf_keys_len s Hwf) as Hlen.
  unfold exec_sknp. rewrite rd_reg by done. cbn [mbind option_bind].
  rewrite bind_is_Some. split.
  - intros (k & Hk%rd_Some_lt & _). lia.
  - intros Hr. destruct (rd_keys s Hwf (reg s x)) as [k Hk]; [lia|].
    exists k. by split.
Qed.

Lemma ld_b_defined x :
  0 <= x < 16 -> is_Some (exec_ld_b x s) <-> I s + 3 <= 4096.
Proof.
  intros Hx. pose proof (wf_I s Hwf) as HI. unfold is_u16 in HI.
  pose proof (wf_memory_len s Hwf) as Hlen.
  unfold exec_ld_b. rewrite rd_reg by done. cbn [mbind option_bind].
  split.
  - intros [t Ht]. bind_inv Ht.
    destruct (wr_inv_insert _ _ _ _ E) as [_ ->].
    destruct (wr_inv_insert _ _ _ _ E0) as [_ ->].
    destruct (wr_inv_insert _ _ _ _ E1) as [Hb _].
    rewrite !length_insert in Hb. lia.
  - intros Hr. rewrite wr_Some by lia. cbn [mbind option_bind].
    rewrite wr_Some by (rewrite length_insert; lia).
    cbn [mbind option_bind].
    rewrite wr_Some by (rewrite !length_insert; lia). done.
Qed.

Lemma ld_mem_v_defined x :
  0 <= x < 16 -> is_Some (exec_ld_mem_v x s) <-> I s + (x + 1) <= 4096.
Proof.
  intros Hx. pose proof (wf_I s Hwf) as HI. unfold is_u16 in HI.
  pose proof (wf_memory_len s Hwf) as Hlen.
  pose proof (wf_V_len s Hwf) as HlenV.
  unfold exec_ld_mem_v, memcpy_into.
  case_decide as Hc; cbn [mbind option_bind]; split.
  - intros _. lia.
  - done.
  - by intros [? [=]].
  - intros Hr. destruct Hc. lia.
Qed.

Lemma ld_v_mem_defined x :
  0 <= x < 16 -> is_Some (exec_ld_v_mem x s) <-> I s + (x + 1) <= 4096.
Proof.
  intros Hx. pose proof (wf_I s Hwf) as HI. unfold is_u16 in HI.
  pose proof (wf_memory_len s Hwf) as Hlen.
  pose proof (wf_V_len s Hwf) as HlenV.
  unfold exec_ld_v_mem, memcpy_from.
  case_decide as Hc; cbn [mbind option_bind]; split.
  - intros _. lia.
  - done.
  - by intros [? [=]].
  - intros Hr. destruct Hc. lia.
Qed.
End defined.

(** A loop that ran to its end ran its body at every index. *)
Lemma for_loop_ran {St : Type} (P : St -> Prop) body k i (s s' : St) j :
  (forall j t t', body j t = Some t' -> P t -> P t') ->
  for_loop k i body s = Some s' -> P s ->
  i <= j < i + Z.of_nat k ->
  exists t, P t /\ is_Some (body j t).
Proof.
  intros Hbody. revert i s. induction k as [|k IH]; intros i s Hloop Hs Hj.
  - lia.
  - cbn [for_loop] in Hloop.
    destruct (body i s) as [t|] eqn:Ht; [|done].
    cbn [mbind option_bind] in Hloop.
    destruct (decide (j = i)) as [->|Hne].
    + exists s. split; [done|]. by rewrite Ht.
    + apply (IH (i + 1) t); [done| |lia]. by eapply Hbody.
Qed.

Lemma drw_defined s x y n :
  wf s -> 0 <= x < 16 -> 0 <= y < 16 -> 0 <= n ->
  is_Some (exec_drw x y n s) <-> n = 0 \/ I s + n <= 4096.
Proof.
  intros Hwf Hx Hy Hn.
  pose proof (wf_I s Hwf) as HI. unfold is_u16 in HI.
  pose proof (wf_memory_len s Hwf) as Hlen.
  split.
  - intros [t Ht]. destruct (decide (n = 0)) as [|Hn0]; [by left|right].
    unfold exec_drw in Ht. bind_inv Ht.
    set (f := fun u : Chip8 => (I u, memory u)).
    assert (f c = f s) as Hc by (by apply (frame_put_V f) in E).
    destruct (for_loop_ran (fun u => f u = f s) _ _ _ _ _ (n - 1)
                (fun j u u' Hu Hfu =>
                   eq_trans
                     (frame_draw_row f ltac:(done) _ _ _ u u' ltac:(done) Hu)
                     Hfu)
                E2 Hc)
      as (u & Hu & [u' Hu']); [lia|].
    unfold draw_row in Hu'. bind_inv Hu'.
    apply rd_Some_lt in E3. injection Hu as HIu Hmu.
    rewrite HIu, Hmu, Hlen in E3. lia.
  - intros [->|Hb].
    + unfold exec_drw. rewrite put_V_with by (done || lia).
      cbn [mbind option_bind].
      assert (wf (with_V 15 0 s)) as Hwf0
        by (apply wf_with_V; [done|unfold is_u8; lia]).
      rewrite !rd_reg by done. done.
    + by rewrite exec_drw_eq by done.
Qed.

Lemma leb_andb a b c : (a <=? b) && (b <=? c) = true <-> a <= b <= c.
Proof. rewrite andb_true_iff, !Z.leb_le. lia. Qed.

Lemma op_of_range w : 0 <= op_of w < 16.
Proof. rewrite op_of_spec. apply Z.mod_pos_bound. lia. Qed.

(** The dispatch is defined exactly where the accesses are in bounds. *)
Lemma exec_defined_iff rnd w s :
  wf s -> is_Some (exec rnd w s) <-> in_bounds s w = true.
Proof.
  intros Hwf.
  pose proof (x_of_range w) as Hx. pose proof (y_of_range w) as Hy.
  pose proof (n_of_range w) as Hn. pose proof (op_of_range w) as Hop.
  pose proof (wf_V_len s Hwf) as L.
  assert (op_of w = 0 \/ op_of w = 1 \/ op_of w = 2 \/ op_of w = 3
          \/ op_of w = 4 \/ op_of w = 5 \/ op_of w = 6 \/ op_of w = 7
          \/ op_of w = 8 \/ op_of w = 9 \/ op_of w = 10 \/ op_of w = 11
          \/ op_of w = 12 \/ op_of w = 13 \/ op_of w = 14 \/ op_of w = 15)
    as Hcases by lia.
  unfold exec, in_bounds. cbv zeta.
  repeat destruct Hcases as [Hc|Hcases]; try rename Hcases into Hc;
    rewrite Hc; cbn [Z.eqb Pos.eqb].
  - (* family 0 *)
    destruct (n_of w =? 0); [by split|].
    destruct (n_of w =? 14); [|by split].
    by rewrite is_Some_thru, ret_defined, leb_andb.
  - by split.
  - by rewrite is_Some_thru, call_defined, Z.leb_le.
  - split; [done|]. intros _. unfold exec_se_byte. run_V. done.
  - split; [done|]. intros _. unfold exec_sne_byte. run_V. done.
  - split; [done|]. intros _. unfold exec_se_reg. run_V. done.
  - split; [done|]. intros _. unfold exec_ld_byte. run_V. done.
  - split; [done|]. intros _. unfold exec_add_byte. run_V. done.
  - (* family 8 *)
    split; [done|]. intros _.
    repeat match goal with
    | |- is_Some (if ?b then _ else _) => destruct b
    end; try done;
    unfold exec_ld_reg, exec_bitop, exec_add_reg, exec_sub_reg, exec_shr,
      exec_subn_reg, exec_shl; run_V; done.
  - split; [done|]. intros _. unfold exec_sne_reg. run_V. done.
  - by split.
  - split; [done|]. intros _. unfold exec_jp_v0. run_V. done.
  - split; [done|]. intros _. unfold exec_rnd. run_V. done.
  - rewrite is_Some_thru, drw_defined by (done || lia).
    rewrite orb_true_iff, Z.eqb_eq, Z.leb_le. done.
  - (* family E *)
    destruct (kk_of w =? 158) eqn:H9E; cbn [orb].
    { by rewrite is_Some_thru, skp_defined, Z.leb_le. }
    destruct (kk_of w =? 161) eqn:HA1; [|by split].
    by rewrite is_Some_thru, sknp_defined, Z.leb_le.
  - (* family F *)
    destruct (kk_of w =? 7) eqn:H07.
    { apply Z.eqb_eq in H07. rewrite H07. cbn [Z.eqb Pos.eqb orb].
      split; [done|]. intros _. unfold exec_ld_vx_dt. run_V. done. }
    destruct (kk_of w =? 10) eqn:H0A.
    { apply Z.eqb_eq in H0A. rewrite H0A. cbn [Z.eqb Pos.eqb orb].
      split; [done|]. intros _. unfold exec_ld_vx_k.
      rewrite key_loop_eq by done. cbn [mbind option_bind fst snd].
      by destruct (negb _). }
    destruct (kk_of w =? 21) eqn:H15.
    { apply Z.eqb_eq in H15. rewrite H15. cbn [Z.eqb Pos.eqb orb].
      split; [done|]. intros _. unfold exec_ld_dt_vx. run_V. done. }
    destruct (kk_of w =? 24) eqn:H18.
    { apply Z.eqb_eq in H18. rewrite H18. cbn [Z.eqb Pos.eqb orb].
      split; [done|]. intros _. unfold exec_ld_st_vx. run_V. done. }
    destruct (kk_of w =? 30) eqn:H1E.
    { apply Z.eqb_eq in H1E. rewrite H1E. cbn [Z.eqb Pos.eqb orb].
      split; [done|]. intros _. unfold exec_add_i. run_V. done. }
    destruct (kk_of w =? 41) eqn:H29.
    { apply Z.eqb_eq in H29. rewrite H29. cbn [Z.eqb Pos.eqb orb].
      split; [done|]. intros _. unfold exec_ld_f. run_V. done. }
    destruct (kk_of w =? 51) eqn:H33.
    { by rewrite is_Some_thru, ld_b_defined, Z.leb_le. }
    destruct (kk_of w =? 85) eqn:H55; cbn [orb].
    { by rewrite is_Some_thru, ld_mem_v_defined, Z.leb_le. }
    destruct (kk_of w =? 101) eqn:H65; [|by split].
    by rewrite is_Some_thru, ld_v_mem_defined, Z.leb_le.
Qed.

(** (X22) A cycle in a well-formed state is defined exactly when the two
    bytes of the instruction lie in memory ([PC <= 4094]) and the
    instruction keeps inside the arrays: a return finds [1 <= SP <= 16], a
    call [SP <= 15], Ex9E and ExA1 a key index [V[x] <= 15], a draw its
    [n] sprite bytes below 4096, Fx33 its three digits and Fx55, Fx65 their
    [x + 1] bytes below 4096.  Everything else always runs. *)
Theorem cycle_defined_iff (rnd : Z) (s : Chip8) :
  wf s ->
  is_Some (executeCycle rnd s)
  <-> PC s + 1 < 4096 /\ forall w, fetch s = Some w -> in_bounds s w = true.
Proof.
  intros Hwf. split.
  - intros [s' Hs]. destruct (cycle_fetches rnd s s' Hs) as [w Hf].
    split; [apply (fetch_PC s Hwf w Hf)|].
    intros w' Hf'. assert (w' = w) as -> by congruence.
    destruct (cycle_exec rnd s w s' Hf Hs) as (o & Ho & _).
    apply (exec_defined_iff rnd w s Hwf). by exists o.
  - intros [HPC Hb]. pose proof (wf_PC s Hwf) as HPC0. unfold is_u16 in HPC0.
    destruct (rd_memory s Hwf (PC s)) as (hi & Hhi & _); [lia|].
    destruct (rd_memory s Hwf (PC s + 1)) as (lo & Hlo & _); [lia|].
    assert (exists w, fetch s = Some w) as [w Hf].
    { unfold fetch. rewrite Hhi, Hlo. cbn. eauto. }
    destruct (proj2 (exec_defined_iff rnd w s Hwf) (Hb w Hf)) as [o Ho].
    unfold executeCycle. rewrite Hf. cbn [mbind option_bind]. rewrite Ho.
    done.
Qed.

Lemma cycle_defined_iff_witness :
  is_Some (executeCycle 0 ret_empty)
  <-> PC ret_empty + 1 < 4096 /\
      forall w, fetch ret_empty = Some w -> in_bounds ret_empty w = true.
Proof.
  apply (cycle_defined_iff 0 ret_empty).
  apply wfb_wf. vm_compute. reflexivity.
Defined.


(** ** [reset] and [loadROMFromPath] *)

Lemma Chip8_reset_eq s : Chip8_reset s = set_draw (draw s) reset.
Proof. vm_compute. reflexivity. Qed.

Lemma wf_reset : wf reset.
Proof. apply wfb_wf. vm_compute. reflexivity. Qed.

Lemma length_memory_reset : Z.of_nat (length (memory reset)) = 4096.
Proof. apply (wf_memory_len reset wf_reset). Qed.

(** (X23) [loadROMFromPath] is defined exactly for files of at most
    [4096 - 0x200 = 3584] bytes, whatever state it is called in; a longer
    file is copied past the end of [memory]. *)
Theorem load_rom_fits (rom : list Z) (s : Chip8) :
  is_Some (loadROMFromPath rom s) <-> Z.of_nat (length rom) <= 3584.
Proof.
  unfold loadROMFromPath. cbv zeta. rewrite Chip8_reset_eq.
  cbn [memory set_draw]. unfold memcpy_into.
  rewrite length_memory_reset. unfold PROGRAM_START.
  case_decide as Hc; cbn [mbind option_bind]; split.
  - intros _. lia.
  - done.
  - by intros [? [=]].
  - intros Hr. destruct Hc. lia.
Qed.

(** A file that fits is copied to [PROGRAM_START] of the memory [reset]
    leaves. *)
Lemma loadROM_eq rom s :
  Z.of_nat (length rom) <= 3584 ->
  exists m,
    memcpy_into (memory reset) PROGRAM_START rom (Z.of_nat (length rom))
    = Some m /\
    loadROMFromPath rom s = Some (set_memory m (set_draw (draw s) reset)).
Proof.
  intros Hlen.
  destruct (memcpy_into_Some (memory reset) PROGRAM_START rom
              (Z.of_nat (length rom))) as [m Hm].
  { done. } { rewrite length_memory_reset. unfold PROGRAM_START. lia. }
  { lia. }
  exists m. split; [done|].
  unfold loadROMFromPath. cbv zeta. rewrite Chip8_reset_eq.
  cbn [memory set_draw]. by rewrite Hm.
Qed.

(** (X24) A file of at most 3584 bytes is loaded as follows, whatever the
    machine held before: the program lies at [0x200] on, the glyph table in
    the first 80 bytes, every other byte of memory is 0; registers,
    timers, [I], [SP], the stack, the keys and the display are cleared and
    [PC] is [0x200].  The draw flag alone keeps its value.  With bytes in
    [0 .. 255] the state is well formed. *)
Theorem load_rom_layout (rom : list Z) (s : Chip8) :
  Z.of_nat (length rom) <= 3584 ->
  exists s',
    loadROMFromPath rom s = Some s' /\
    (forall k, 0 <= k < Z.of_nat (length rom) ->
       rd (memory s') (0x200 + k) = rd rom k) /\
    (forall a, 0 <= a < 80 -> rd (memory s') a = rd BUILTIN_SPRITES a) /\
    (forall a, 80 <= a < 0x200 \/ 0x200 + Z.of_nat (length rom) <= a < 4096 ->
       rd (memory s') a = Some 0) /\
    V s' = replicate 16 0 /\ DT s' = 0 /\ ST s' = 0 /\ SP s' = 0 /\
    I s' = 0 /\ stack s' = replicate 16 0 /\
    keys s' = replicate 16 false /\ display s' = replicate 256 0 /\
    PC s' = 0x200 /\ draw s' = draw s /\
    (all_u8 rom -> wf s').
Proof.
  intros Hlen.
  destruct (loadROM_eq rom s Hlen) as (m & E & Hs').
  eexists. split; [exact Hs'|].
  cbn [memory V DT ST SP I stack keys display PC draw set_memory set_draw
       reset].
  assert (forall a, a < 0x200 \/ 0x200 + Z.of_nat (length rom) <= a ->
            rd m a = rd (memory reset) a) as Hout.
  { intros a Ha. apply (rd_memcpy_into_out _ _ _ _ _ a E); [lia|].
    unfold PROGRAM_START. lia. }
  split_and!; try done.
  - intros k Hk. apply (rd_memcpy_into_in _ _ _ _ _ k E). lia.
  - intros a Ha. rewrite Hout by lia. unfold reset. cbn [memory].
    rewrite !rd_lookup by lia. apply lookup_app_l.
    change (length BUILTIN_SPRITES) with 80%nat. lia.
  - intros a Ha. rewrite Hout by lia. unfold reset. cbn [memory].
    rewrite rd_lookup by lia. rewrite lookup_app_r
      by (change (length BUILTIN_SPRITES) with 80%nat; lia).
    apply lookup_replicate_2.
    change (length BUILTIN_SPRITES) with 80%nat. lia.
  - intros Hrom. pose proof wf_reset as [].
    destruct (memcpy_into_inv is_u8 _ _ _ _ _ E) as [Hl HF].
    constructor; cbn; try done.
    + by rewrite Hl.
    + by apply HF.
Qed.

Lemma load_rom_layout_witness :
  exists s',
    loadROMFromPath [0x12; 0x00] key3_down = Some s' /\
    rd (memory s') 0x200 = Some 0x12 /\ rd (memory s') 0 = Some 0xF0 /\
    keys s' = replicate 16 false /\ PC s' = 0x200.
Proof.
  destruct (load_rom_layout [0x12; 0x00] key3_down)
    as (s' & Hs' & Hrom & Hfont & _ & _ & _ & _ & _ & _ & _ & Hkeys & _
        & HPC & _).
  - vm_compute. discriminate.
  - exists s'. split; [exact Hs'|]. split; [|split; [|split]].
    + apply (Hrom 0). vm_compute. split; [discriminate|reflexivity].
    + apply (Hfont 0). vm_compute. split; [discriminate|reflexivity].
    + exact Hkeys.
    + exact HPC.
Defined.

(** ** The host loop: keys *)

Lemma keymap_length : Z.of_nat (length keymap) = 16.
Proof. reflexivity. Qed.

Lemma keymap_NoDup : NoDup keymap.
Proof. apply (bool_decide_unpack _). vm_compute. constructor. Qed.

Lemma rd_insert_cases {A} (ks : list A) i v j :
  0 <= i < Z.of_nat (length ks) -> 0 <= j ->
  rd (<[Z.to_nat i := v]> ks) j
  = if decide (j = i) then Some v else rd ks j.
Proof.
  intros Hi Hj. case_decide as Hd.
  - subst j. by apply rd_insert_eq.
  - apply rd_insert_ne; lia.
Qed.

(** The loop over the key map that a key event runs: it stores [v] in
    [keys[i]] for the [i] whose entry of [keymap] is the key code and keeps
    every other key and every other member of the machine. *)
Lemma keymap_loop_eq (v : bool) (sym : Z) (s : Chip8) :
  Z.of_nat (length (keys s)) = 16 ->
  exists ks,
    keymap_loop v sym s = Some (set_keys ks s) /\
    Z.of_nat (length ks) = 16 /\
    (forall i, 0 <= i < 16 ->
       rd ks i = if decide (rd keymap i = Some sym) then Some v
                 else rd (keys s) i).
Proof.
  intros Hlen.
  destruct (for_loop_inv
              (fun j t =>
                 t = set_keys (keys t) s /\
                 Z.of_nat (length (keys t)) = 16 /\
                 forall i, 0 <= i < 16 ->
                   rd (keys t) i
                   = if decide (i < j /\ rd keymap i = Some sym) then Some v
                     else rd (keys s) i)
              (keymap_body v sym) 16 0 s) as (t & Ht & Hset & Hl & Hks).
  { split; [by destruct s|]. split; [done|]. intros i Hi.
    rewrite decide_False; [done|]. lia. }
  { intros j t Hj (Hset & Hl & Hks). unfold keymap_body.
    destruct (rd_is_Some keymap j) as [k Hk]; [rewrite keymap_length; lia|].
    rewrite Hk. cbn [mbind option_bind].
    destruct (Z.eqb_spec sym k) as [->|Hne].
    - rewrite wr_Some by lia. cbn [mbind option_bind]. eexists.
      split; [done|]. cbn [keys set_keys].
      split; [by rewrite Hset|]. split; [by rewrite length_insert|].
      intros i Hi. rewrite rd_insert_cases by lia.
      destruct (decide (i = j)) as [->|Hij].
      + rewrite decide_True; [done|]. split; [lia|done].
      + rewrite Hks by done. apply decide_ext. split.
        * intros [? ?]. split; [lia|done].
        * intros [? ?]. split; [lia|done].
    - exists t. split; [done|]. split; [done|]. split; [done|].
      intros i Hi. rewrite Hks by done. apply decide_ext. split.
      + intros [? ?]. split; [lia|done].
      + intros [? Hi']. split; [|done].
        destruct (decide (i = j)) as [->|Hij]; [|lia].
        rewrite Hk in Hi'. congruence. }
  exists (keys t). split; [unfold keymap_loop; by rewrite Ht, <- Hset|].
  split; [done|].
  intros i Hi. rewrite Hks by done. apply decide_ext. split.
  - by intros [? ?].
  - intros ?. split; [lia|done].
Qed.

Lemma keys_ext (ks ks' : list bool) :
  Z.of_nat (length ks) = 16 -> Z.of_nat (length ks') = 16 ->
  (forall i, 0 <= i < 16 -> rd ks i = rd ks' i) -> ks = ks'.
Proof.
  intros Hl Hl' H. apply list_eq. intros n.
  destruct (decide (n < 16)%nat) as [Hn|Hn].
  - specialize (H (Z.of_nat n) ltac:(lia)).
    rewrite !rd_lookup in H by lia. by rewrite Nat2Z.id in H.
  - rewrite !lookup_ge_None_2; [done|lia|lia].
Qed.

(** A code in no entry of [keymap] leaves the machine as it is. *)
Lemma keymap_loop_unmapped (v : bool) (sym : Z) (s : Chip8) :
  Z.of_nat (length (keys s)) = 16 ->
  (forall i, rd keymap i <> Some sym) ->
  keymap_loop v sym s = Some s.
Proof.
  intros Hlen Hno.
  destruct (keymap_loop_eq v sym s Hlen) as (ks & E & Hl & Hks).
  rewrite E. f_equal.
  assert (ks = keys s) as ->.
  { apply keys_ext; [done..|]. intros i Hi. rewrite Hks by done.
    rewrite decide_False; [done|]. apply Hno. }
  by destruct s.
Qed.

(** The entries of [keymap] are bytes ([uint8_t keymap[16]]). *)
Lemma keymap_bytes : Forall is_u8 keymap.
Proof. apply (bool_decide_unpack _). vm_compute. constructor. Qed.

Lemma keymap_entry_u8 i k : rd keymap i = Some k -> is_u8 k.
Proof.
  intros H. apply rd_Some_lt in H as Hl. rewrite rd_lookup in H by lia.
  exact (proj1 (Forall_lookup _ _) keymap_bytes _ _ H).
Qed.

(** (X25) The key events of the loop.  A key going up, and a key other
    than ESC and F1 going down, stores [false] (up) or [true] (down) in
    [keys[i]] for the [i] whose entry of [keymap] is the key code and keeps
    every other key and every other member of the machine; a code in no
    entry leaves the keys as they are; the sixteen entries are distinct, so
    at most one key changes.  ESC going down and [SDL_QUIT] leave the
    program.  F1 going down reloads the ROM and then runs the loop, which
    finds no entry for F1: the event leaves what [loadROMFromPath]
    leaves. *)
Theorem key_event_sets_mapped_key (rom : list Z) (s : Chip8) :
  Z.of_nat (length (keys s)) = 16 ->
  (forall v sym,
     (v = true -> sym <> SDLK_ESCAPE /\ sym <> SDLK_F1) ->
     exists ks,
       handle_event rom (key_event v sym) s = Some (Running (set_keys ks s)) /\
       Z.of_nat (length ks) = 16 /\
       (forall i, 0 <= i < 16 ->
          rd ks i = if decide (rd keymap i = Some sym) then Some v
                    else rd (keys s) i) /\
       ((forall i, rd keymap i <> Some sym) -> ks = keys s)) /\
  (forall i j sym,
     rd keymap i = Some sym -> rd keymap j = Some sym -> i = j) /\
  handle_event rom (SDL_KEYDOWN SDLK_ESCAPE) s = Some Exited /\
  handle_event rom SDL_QUIT s = Some Exited /\
  handle_event rom (SDL_KEYDOWN SDLK_F1) s
  = Running <$> loadROMFromPath rom s.
Proof.
  intros Hlen. split_and!.
  - intros v sym Hv.
    destruct (keymap_loop_eq v sym s Hlen) as (ks & E & Hl & Hks).
    exists ks. split_and!; try done.
    + destruct v; cbn [key_event handle_event].
      * destruct (Hv eq_refl) as [Hesc HF1].
        rewrite (proj2 (Z.eqb_neq _ _) Hesc), (proj2 (Z.eqb_neq _ _) HF1).
        cbn [mbind option_bind]. by rewrite E.
      * by rewrite E.
    + intros Hno. apply keys_ext; [done..|]. intros i Hi.
      rewrite Hks by done. rewrite decide_False; [done|]. apply Hno.
  - intros i j sym Hi Hj.
    apply rd_Some_lt in Hi as Hil. apply rd_Some_lt in Hj as Hjl.
    rewrite rd_lookup in Hi, Hj by lia.
    pose proof (NoDup_lookup _ _ _ _ keymap_NoDup Hi Hj). lia.
  - reflexivity.
  - reflexivity.
  - cbn [handle_event].
    change (SDLK_F1 =? SDLK_ESCAPE) with false.
    change (SDLK_F1 =? SDLK_F1) with true. cbv iota.
    destruct (loadROMFromPath rom s) as [t|] eqn:Ht; [|done].
    cbn [mbind option_bind fmap option_fmap option_map].
    rewrite keymap_loop_unmapped; [done| |].
    + unfold loadROMFromPath in Ht. cbv zeta in Ht.
      destruct (memcpy_into _ _ _ _); [|done].
      cbn in Ht. by injection Ht as <-.
    + intros i Hi. apply keymap_entry_u8 in Hi. unfold is_u8, SDLK_F1 in Hi.
      lia.
Qed.

Lemma key_event_sets_mapped_key_witness :
  (exists ks,
     handle_event [] (SDL_KEYDOWN SDLK_q) reset
     = Some (Running (set_keys ks reset)) /\
     rd ks 4 = Some true /\ rd ks 5 = Some false) /\
  (exists t,
     handle_event [] (SDL_KEYDOWN SDLK_F1) key3_down = Some (Running t) /\
     rd (keys key3_down) 3 = Some true /\ keys t = replicate 16 false).
Proof.
  split.
  - destruct (key_event_sets_mapped_key [] reset) as (Hev & _).
    + vm_compute. reflexivity.
    + destruct (Hev true SDLK_q) as (ks & Hks & _ & Hi & _).
      * intros _. vm_compute. split; discriminate.
      * exists ks. split; [exact Hks|]. split.
        -- rewrite (Hi 4); [vm_compute; reflexivity|].
           vm_compute. split; [discriminate|reflexivity].
        -- rewrite (Hi 5); [vm_compute; reflexivity|].
           vm_compute. split; [discriminate|reflexivity].
  - destruct (key_event_sets_mapped_key [] key3_down)
      as (_ & _ & _ & _ & HF1).
    + vm_compute. reflexivity.
    + rewrite HF1. eexists. split; [vm_compute; reflexivity|].
      split; vm_compute; reflexivity.
Defined.

(** ** The host loop: the pixel buffer *)

Lemma render_pixel_eq d i px :
  Z.of_nat (length d) = 256 -> Z.of_nat (length px) = 2048 ->
  0 <= i < 2048 ->
  render_pixel d i px = Some (<[Z.to_nat i := colour (getbit d i)]> px).
Proof.
  intros Hd Hpx Hi. unfold render_pixel. cbv zeta.
  assert (0 <= i / 8 < 256) as Hq.
  { split; [apply Z.div_pos; lia|apply Z.div_lt_upper_bound; lia]. }
  pose proof (Z.mod_pos_bound i 8 ltac:(lia)) as Hm.
  destruct (rd_is_Some d (i / 8)) as [b Hb]; [lia|].
  rewrite Hb. cbn [mbind option_bind].
  rewrite bit_extract by lia. rewrite wr_Some by lia.
  unfold getbit. rewrite Hb. cbn [default from_option id].
  by destruct (Z.testbit b (7 - i mod 8)).
Qed.

Lemma render_loop d px :
  Z.of_nat (length d) = 256 -> Z.of_nat (length px) = 2048 ->
  exists px',
    for_loop (Z.to_nat (32 * 64)) 0 (render_pixel d) px = Some px' /\
    Z.of_nat (length px') = 2048 /\
    forall i, 0 <= i < 2048 -> rd px' i = Some (colour (getbit d i)).
Proof.
  intros Hd Hpx.
  destruct (for_loop_inv
              (fun j p =>
                 Z.of_nat (length p) = 2048 /\
                 forall i, 0 <= i < j ->
                   rd p i = Some (colour (getbit d i)))
              (render_pixel d) (Z.to_nat (32 * 64)) 0 px)
    as (px' & Hpx' & Hl & Hall).
  { split; [done|]. intros i Hi. lia. }
  { intros j p Hj [Hl Hp]. rewrite render_pixel_eq by (done || lia).
    eexists. split; [done|]. split; [by rewrite length_insert|].
    intros i Hi. rewrite rd_insert_cases by lia.
    case_decide as Hij; [by subst i|]. apply Hp. lia. }
  exists px'. split; [done|]. split; [done|].
  intros i Hi. apply Hall. lia.
Qed.

(** (X26) With the draw flag up the host fills all 2048 entries of the
    pixel buffer from the display, white for a lit pixel and black for a
    dark one, whatever the buffer held, and lowers the flag; with the flag
    down it touches neither. *)
Theorem present_shows_display (s : Chip8) (pixels : list Z) :
  Z.of_nat (length (display s)) = 256 ->
  Z.of_nat (length pixels) = 2048 ->
  (draw s = true ->
   exists px,
     present s pixels = Some (set_draw false s, px) /\
     shows px (display s)) /\
  (draw s = false -> present s pixels = Some (s, pixels)).
Proof.
  intros Hd Hpx. unfold present. split; intros ->; [|done].
  cbv zeta. cbn [display set_draw].
  destruct (render_loop (display s) pixels Hd Hpx) as (px & -> & Hl & Hall).
  exists px. split; [done|]. split; [done|].
  intros row col Hr Hc. rewrite Hall by lia. done.
Qed.

Lemma present_shows_display_witness :
  exists px,
    present flag_up stale = Some (set_draw false flag_up, px) /\
    shows px (display flag_up).
Proof.
  destruct (present_shows_display flag_up stale) as [Hon _].
  - vm_compute. reflexivity.
  - vm_compute. reflexivity.
  - apply Hon. vm_compute. reflexivity.
Defined.

(** ** The host loop: one turn *)

Lemma keymap_loop_frame v sym s s' :
  keymap_loop v sym s = Some s' -> s' = set_keys (keys s') s.
Proof.
  unfold keymap_loop. intros H.
  eapply (for_loop_preserves (fun t => t = set_keys (keys t) s));
    [|exact H|by destruct s].
  intros j t t' Ht Hset. unfold keymap_body in Ht. bind_inv Ht.
  destruct (sym =? z); [|by injection Ht as <-].
  bind_inv Ht. injection Ht as <-. cbn [keys set_keys]. by rewrite Hset.
Qed.

Lemma handle_event_frame rom e s s' :
  e <> SDL_KEYDOWN SDLK_F1 ->
  handle_event rom e s = Some (Running s') ->
  s' = set_keys (keys s') s.
Proof.
  intros Hne. destruct e as [|sym|sym|]; cbn [handle_event].
  - done.
  - destruct (sym =? SDLK_ESCAPE); [done|].
    destruct (Z.eqb_spec sym SDLK_F1) as [->|_]; [done|].
    cbn [mbind option_bind].
    destruct (keymap_loop true sym s) as [t|] eqn:Ht; [|done].
    intros [= <-]. by apply keymap_loop_frame in Ht.
  - destruct (keymap_loop false sym s) as [t|] eqn:Ht; [|done].
    intros [= <-]. by apply keymap_loop_frame in Ht.
  - intros [= <-]. by destruct s.
Qed.

Lemma poll_events_frame rom es s s' :
  no_reload es ->
  poll_events rom es s = Some (Running s') ->
  s' = set_keys (keys s') s.
Proof.
  unfold no_reload. intros Hes. revert s.
  induction Hes as [|e es He Hes IH]; intros s; cbn [poll_events].
  - intros [= <-]. by destruct s.
  - destruct (handle_event rom e s) as [[|t]|] eqn:Ht; cbn; [done| |done].
    intros Hs'. apply handle_event_frame in Ht; [|done].
    apply IH in Hs'. rewrite Hs', Ht. done.
Qed.

(** (X27) One turn of the emulation loop with no reload among its events
    leaves the draw flag down and the pixel buffer showing the display,
    provided the turn began with the flag up or with the buffer showing the
    display: no change of the display is lost to the screen. *)
Theorem loop_keeps_frame_in_sync (rnd : Z) (rom : list Z)
  (es : list SDL_Event) (s : Chip8) (px : list Z) (s' : Chip8)
  (px' : list Z) :
  wf s ->
  Z.of_nat (length px) = 2048 ->
  no_reload es ->
  draw s = true \/ shows px (display s) ->
  loop_body rnd rom es (s, px) = Some (Running (s', px')) ->
  draw s' = false /\ shows px' (display s').
Proof.
  intros Hwf Hpx Hes Hsync. unfold loop_body. cbn [fst snd].
  destruct (executeCycle rnd s) as [s1|] eqn:Hs1; [|done].
  cbn [mbind option_bind].
  destruct (poll_events rom es s1) as [[|s2]|] eqn:Hs2; cbn; [done| |done].
  destruct (present s2 px) as [[t p]|] eqn:Hp; [|done]. cbn.
  intros [= <- <-].
  pose proof (step_wf rnd s s1 Hwf Hs1) as Hwf1.
  apply poll_events_frame in Hs2; [|done].
  assert (display s2 = display s1 /\ draw s2 = draw s1) as [Hd2 Hf2]
    by (by rewrite Hs2).
  destruct (cycle_fetches rnd s s1 Hs1) as [w Hf].
  destruct (cycle_draw_cases rnd s w s1 Hf Hs1) as [Hup Hsame].
  unfold present in Hp. destruct (draw s2) eqn:Hdraw.
  - cbv zeta in Hp. cbn [display set_draw] in Hp.
    destruct (render_loop (display s2) px) as (q & Hq & Hl & Hall).
    { rewrite Hd2. apply (wf_display_len s1 Hwf1). } { done. }
    rewrite Hq in Hp. cbn in Hp. injection Hp as <- <-.
    split; [done|]. split; [done|].
    intros row col Hr Hc. cbn [display set_draw]. rewrite Hall by lia. done.
  - injection Hp as <- <-.
    split; [done|]. rewrite Hd2.
    destruct (is_cls w || is_drw w).
    + rewrite Hup in Hf2 by done. done.
    + destruct Hsame as [-> Hdr]; [done|].
      destruct Hsync as [Hs|Hs]; [congruence|done].
Qed.

Lemma tap_q_no_reload : no_reload tap_q.
Proof. repeat constructor; discriminate. Qed.

Lemma loop_keeps_frame_in_sync_witness :
  exists s' px',
    loop_body 0 [] tap_q (flag_up, stale) = Some (Running (s', px')) /\
    draw s' = false /\ shows px' (display s').
Proof.
  assert (exists s' px',
            loop_body 0 [] tap_q (flag_up, stale) = Some (Running (s', px')))
    as (s' & px' & H) by (eexists; eexists; vm_compute; reflexivity).
  exists s', px'. split; [exact H|].
  apply (loop_keeps_frame_in_sync 0 [] tap_q flag_up stale s' px').
  - apply wfb_wf. vm_compute. reflexivity.
  - vm_compute. reflexivity.
  - exact tap_q_no_reload.
  - left. vm_compute. reflexivity.
  - exact H.
Defined.

(** The hypothesis on the events is needed: [reset] clears the display
    without raising the draw flag, so after a reload the buffer keeps the
    old picture until the program draws. *)
Example reload_leaves_stale_frame :
  pixel (display lit) 0 0 = true /\ rd lit_px 0 = Some WHITE /\
  draw lit = false /\
  exists s' px',
    loop_body 0 [0x60; 0x00] [SDL_KEYDOWN SDLK_F1] (lit, lit_px)
    = Some (Running (s', px')) /\
    pixel (display s') 0 0 = false /\ rd px' 0 = Some WHITE /\
    draw s' = false.
Proof.
  repeat split; try (vm_compute; reflexivity).
  eexists. eexists. split; [vm_compute; reflexivity|].
  repeat split; vm_compute; reflexivity.
Qed.


(** ** The host loop keeps the machine well formed *)

Lemma wf_set_keys ks s :
  wf s -> Z.of_nat (length ks) = 16 -> wf (set_keys ks s).
Proof. intros [] Hl. by constructor. Qed.

Lemma wf_keymap_loop v sym s s' :
  wf s -> keymap_loop v sym s = Some s' -> wf s'.
Proof.
  intros Hwf. unfold keymap_loop. intros H.
  eapply (for_loop_preserves wf); [|exact H|done].
  intros j t t' Ht Hwft. unfold keymap_body in Ht. bind_inv Ht.
  destruct (sym =? z); [|by injection Ht as <-].
  bind_inv Ht. injection Ht as <-.
  destruct (wr_inv (fun _ => True) _ _ _ _ E0) as [Hl _].
  apply wf_set_keys; [done|]. rewrite Hl. apply (wf_keys_len t Hwft).
Qed.

Lemma wf_loadROM rom s s' :
  all_u8 rom -> loadROMFromPath rom s = Some s' -> wf s'.
Proof.
  intros Hrom. unfold loadROMFromPath. cbv zeta. rewrite Chip8_reset_eq.
  cbn [memory set_draw]. intros H. bind_inv H. injection H as <-.
  pose proof wf_reset as [].
  destruct (memcpy_into_inv is_u8 _ _ _ _ _ E) as [Hl HF].
  constructor; cbn; try done.
  - by rewrite Hl.
  - by apply HF.
Qed.

Lemma wf_handle_event rom e s s' :
  all_u8 rom -> wf s ->
  handle_event rom e s = Some (Running s') -> wf s'.
Proof.
  intros Hrom Hwf. destruct e as [|sym|sym|]; cbn [handle_event].
  - done.
  - destruct (sym =? SDLK_ESCAPE); [done|].
    destruct (sym =? SDLK_F1).
    + destruct (loadROMFromPath rom s) as [t|] eqn:Ht; [|done].
      cbn [mbind option_bind].
      destruct (keymap_loop true sym t) as [u|] eqn:Hu; [|done].
      intros [= <-]. eapply wf_keymap_loop; [|done]. by eapply wf_loadROM.
    + cbn [mbind option_bind].
      destruct (keymap_loop true sym s) as [u|] eqn:Hu; [|done].
      intros [= <-]. by eapply wf_keymap_loop.
  - destruct (keymap_loop false sym s) as [u|] eqn:Hu; [|done].
    intros [= <-]. by eapply wf_keymap_loop.
  - by intros [= <-].
Qed.

Lemma wf_poll_events rom es s s' :
  all_u8 rom -> wf s ->
  poll_events rom es s = Some (Running s') -> wf s'.
Proof.
  intros Hrom. revert s. induction es as [|e es IH]; intros s Hwf;
    cbn [poll_events].
  - by intros [= <-].
  - destruct (handle_event rom e s) as [[|t]|] eqn:Ht; cbn; [done| |done].
    apply IH. by eapply wf_handle_event.
Qed.

(** (X28) One turn of the emulation loop keeps the machine well formed and
    the pixel buffer at its 2048 entries, whatever the events, a reload of
    a program of bytes included. *)
Theorem loop_keeps_wf (rnd : Z) (rom : list Z) (es : list SDL_Event)
  (s : Chip8) (px : list Z) (s' : Chip8) (px' : list Z) :
  wf s ->
  all_u8 rom ->
  Z.of_nat (length px) = 2048 ->
  loop_body rnd rom es (s, px) = Some (Running (s', px')) ->
  wf s' /\ Z.of_nat (length px') = 2048.
Proof.
  intros Hwf Hrom Hpx. unfold loop_body. cbn [fst snd].
  destruct (executeCycle rnd s) as [s1|] eqn:Hs1; [|done].
  cbn [mbind option_bind].
  destruct (poll_events rom es s1) as [[|s2]|] eqn:Hs2; cbn; [done| |done].
  destruct (present s2 px) as [[t p]|] eqn:Hp; [|done]. cbn.
  intros [= <- <-].
  pose proof (step_wf rnd s s1 Hwf Hs1) as Hwf1.
  pose proof (wf_poll_events rom es s1 s2 Hrom Hwf1 Hs2) as Hwf2.
  unfold present in Hp. destruct (draw s2).
  - cbv zeta in Hp. cbn [display set_draw] in Hp.
    destruct (render_loop (display s2) px) as (q & Hq & Hl & _);
      [apply (wf_display_len s2 Hwf2)|done|].
    rewrite Hq in Hp. cbn in Hp. injection Hp as <- <-.
    split; [by apply wf_set_draw|done].
  - by injection Hp as <- <-.
Qed.

Lemma loop_keeps_wf_witness :
  exists s' px',
    loop_body 0 [0x12; 0x00] tap_F1 (flag_up, stale)
    = Some (Running (s', px')) /\
    wf s' /\ Z.of_nat (length px') = 2048.
Proof.
  assert (exists s' px',
            loop_body 0 [0x12; 0x00] tap_F1 (flag_up, stale)
            = Some (Running (s', px')))
    as (s' & px' & H) by (eexists; eexists; vm_compute; reflexivity).
  exists s', px'. split; [exact H|].
  apply (loop_keeps_wf 0 [0x12; 0x00] tap_F1 flag_up stale s' px').
  - apply wfb_wf. vm_compute. reflexivity.
  - repeat constructor; vm_compute; discriminate.
  - vm_compute. reflexivity.
  - exact H.
Defined.

(** * Drawing the same sprite twice in [main.c] (C5) *)

(** ** Bytes and members of the union *)

(** A member read through the union. *)
Lemma rd_bytes_at u off len k :
  0 <= off -> 0 <= k < len -> rd (bytes_at u off len) k = rd u (off + k).
Proof.
  intros Hoff Hk. unfold bytes_at. rewrite !rd_lookup by lia.
  rewrite lookup_take_lt by lia. rewrite lookup_drop. f_equal. lia.
Qed.

Lemma length_bytes_at u off len :
  0 <= off -> 0 <= len -> off + len <= Z.of_nat (length u) ->
  Z.of_nat (length (bytes_at u off len)) = len.
Proof.
  intros Hoff Hlen Hu. unfold bytes_at.
  rewrite length_take_le; [lia|]. rewrite length_drop. lia.
Qed.

(** A write inside a member, and a write outside it. *)
Lemma bytes_at_insert_in u off len k v :
  0 <= off -> 0 <= k < len ->
  bytes_at (<[Z.to_nat (off + k) := v]> u) off len
  = <[Z.to_nat k := v]> (bytes_at u off len).
Proof.
  intros Hoff Hk. unfold bytes_at. rewrite drop_insert_ge by lia.
  replace (Z.to_nat (off + k) - Z.to_nat off)%nat with (Z.to_nat k) by lia.
  apply take_insert_lt. lia.
Qed.

Lemma bytes_at_insert_out u off len a v :
  0 <= off -> 0 <= len -> 0 <= a -> a < off \/ off + len <= a ->
  bytes_at (<[Z.to_nat a := v]> u) off len = bytes_at u off len.
Proof.
  intros Hoff Hlen Ha [Hlt|Hge]; unfold bytes_at.
  - by rewrite drop_insert_lt by lia.
  - rewrite drop_insert_ge by lia. apply take_insert_ge. lia.
Qed.

(** A member is known by its bytes. *)
Lemma bytes_at_eq (U : list Z) off len (L : list Z) :
  0 <= off -> Z.of_nat (length L) = len ->
  off + len <= Z.of_nat (length U) ->
  (forall k, 0 <= k < len -> rd U (off + k) = rd L k) ->
  bytes_at U off len = L.
Proof.
  intros Hoff HL HU H. apply list_eq. intros i.
  destruct (decide (Z.of_nat i < len)) as [Hi|Hi].
  - specialize (H (Z.of_nat i) ltac:(lia)).
    rewrite <- (rd_bytes_at U off len) in H by lia.
    rewrite !rd_lookup in H by lia. by rewrite Nat2Z.id in H.
  - rewrite !lookup_ge_None_2; [done|lia|].
    pose proof (length_bytes_at U off len). lia.
Qed.

Lemma all_u8_insert l i z : all_u8 l -> is_u8 z -> all_u8 (<[i := z]> l).
Proof. intros Hl Hz. by apply Forall_insert. Qed.

Lemma byte_at_rd (u : list Z) a :
  0 <= a < Z.of_nat (length u) -> rd u a = Some (byte_at u a).
Proof.
  intros Ha. unfold byte_at. by destruct (rd_is_Some u a Ha) as [b ->].
Qed.

Lemma byte_at_u8 (u : list Z) a : all_u8 u -> is_u8 (byte_at u a).
Proof.
  intros Hu. unfold byte_at. destruct (rd u a) as [b|] eqn:E.
  - by apply (rd_Forall is_u8 u a b).
  - unfold is_u8. cbn. lia.
Qed.

Lemma word_at_u16 (u : list Z) a : all_u8 u -> is_u16 (word_at u a).
Proof.
  intros Hu. pose proof (byte_at_u8 u a Hu).
  pose proof (byte_at_u8 u (a + 1) Hu).
  unfold word_at, is_u16, is_u8 in *. lia.
Qed.

Lemma rd16_word_at (u : list Z) a :
  0 <= a -> a + 1 < Z.of_nat (length u) -> rd16 u a = Some (word_at u a).
Proof.
  intros Ha Hl. unfold rd16, word_at.
  by rewrite !byte_at_rd by lia.
Qed.

Lemma byte_at_ext (u U : list Z) a :
  rd U a = rd u a -> byte_at U a = byte_at u a.
Proof. unfold byte_at. by intros ->. Qed.

Lemma word_at_ext (u U : list Z) a :
  rd U a = rd u a -> rd U (a + 1) = rd u (a + 1) -> word_at U a = word_at u a.
Proof. unfold word_at, byte_at. by intros -> ->. Qed.

Lemma drw_writes_false a :
  drw_writes a = false <->
  a <> 95 /\ a <> 96 /\ a <> 97 /\ a <> 100 /\ a <> 101
  /\ ~ (136 <= a <= 392).
Proof.
  unfold drw_writes, OFF_V, OFF_DT, OFF_ST, OFF_PC, OFF_display,
    OFF_draw_flag.
  rewrite !orb_false_iff, andb_false_iff, !Z.eqb_neq, !Z.leb_gt. lia.
Qed.

(** A union of 4096 bytes is a well-formed machine. *)
Lemma as_Chip8_wf (u : list Z) :
  Z.of_nat (length u) = 4096 -> all_u8 u -> wf (as_Chip8 u).
Proof.
  intros Hl Hu.
  assert (forall off len, all_u8 (bytes_at u off len)) as Hb.
  { intros off len. unfold bytes_at. by apply Forall_take, Forall_drop. }
  constructor; cbn [as_Chip8 V DT ST SP I stack keys memory PC display];
    try done; try (by apply byte_at_u8); try (by apply word_at_u16).
  - apply length_bytes_at; unfold OFF_V; lia.
  - apply Forall_fmap, Forall_forall. intros k _. by apply word_at_u16.
  - rewrite length_fmap. apply length_bytes_at; unfold OFF_keys; lia.
  - apply length_bytes_at; unfold OFF_display; lia.
Qed.

(** Both programs fetch the same instruction. *)
Lemma as_Chip8_fetch (u : list Z) :
  Z.of_nat (length u) = 4096 -> c_fetch u = fetch (as_Chip8 u).
Proof.
  intros Hl. unfold c_fetch, fetch. cbn [as_Chip8 memory PC].
  by rewrite rd16_word_at by (unfold OFF_PC; lia).
Qed.

(** ** The loops of the draw *)

Lemma shown_display_len dc u U :
  shown dc u U -> Z.of_nat (length dc.1) = 256.
Proof.
  intros (Hl & _ & <- & _). apply length_bytes_at; unfold OFF_display; lia.
Qed.

(** One sprite bit: the inner loop of [main.c] plots the cell that the
    inner loop of [main.cc] plots. *)
Lemma c_draw_pixel_shown nb r sc col dc (u U : list Z) :
  shown dc u U -> 0 <= r < 32 -> 0 <= col < 8 ->
  exists U',
    c_draw_pixel nb r sc col U = Some U' /\
    shown (plot (cell_of nb r sc col) dc) u U'.
Proof.
  intros Hs Hr Hcol. pose proof (shown_display_len _ _ _ Hs) as Hdl.
  destruct Hs as (Hl & Hu8 & Hd & Hvf & Hrest).
  unfold c_draw_pixel, shown, fld_rd, fld_wr. cbv zeta.
  unfold OFF_V, OFF_display in *.
  pose proof (cell_of_range nb r sc col Hr) as Hbi.
  unfold cell_of in Hbi. cbn [fst] in Hbi.
  set (bi := r * 64 + (sc + col) mod 64) in *.
  pose proof (Z.mod_pos_bound bi 8) as Hm.
  assert (0 <= bi / 8 < 256) as Hq.
  { split; [apply Z.div_pos; lia|apply Z.div_lt_upper_bound; lia]. }
  rewrite decide_True by done.
  rewrite <- (rd_bytes_at U 136 256) by lia. rewrite Hd.
  destruct (rd_is_Some dc.1 (bi / 8)) as [d Hdv]; [lia|].
  rewrite Hdv. cbn [mbind option_bind].
  rewrite decide_True by done.
  rewrite wr_Some by lia. cbn [mbind option_bind].
  rewrite !bit_extract by lia.
  set (v := u8 (Z.lxor d _)).
  rewrite decide_True by lia.
  rewrite rd_insert_ne by lia. rewrite Hvf.
  cbn [mbind option_bind]. rewrite collision_update.
  rewrite decide_True by lia.
  rewrite wr_Some by (rewrite length_insert; lia).
  eexists. split; [reflexivity|].
  split; [by rewrite !length_insert|].
  split.
  { apply all_u8_insert; [|apply b2z_u8].
    apply all_u8_insert; [done|apply u8_range]. }
  split.
  { rewrite bytes_at_insert_out by lia.
    rewrite bytes_at_insert_in by lia.
    rewrite Hd. unfold plot, cell_of. cbn [fst snd]. fold bi.
    by rewrite Hdv. }
  split.
  { rewrite rd_insert_eq by (rewrite length_insert; lia).
    unfold plot, cell_of, getbit. cbn [fst snd]. fold bi.
    by rewrite Hdv. }
  intros a Ha1 Ha2.
  destruct (decide (0 <= a)) as [Ha|Ha];
    [|unfold rd; by rewrite !decide_False].
  rewrite !rd_insert_ne by lia. by apply Hrest.
Qed.

Lemma seqZ_snoc j : 0 <= j -> seqZ 0 (j + 1) = seqZ 0 j ++ [j].
Proof.
  intros Hj. by rewrite seqZ_app by lia.
Qed.

Lemma c_inner_loop_shown nb r sc dc (u U : list Z) :
  shown dc u U -> 0 <= r < 32 ->
  exists U',
    for_loop 8 0 (c_draw_pixel nb r sc) U = Some U' /\
    shown (plots (row_cells nb r sc 0 8) dc) u U'.
Proof.
  intros Hs Hr.
  destruct (for_loop_inv
              (fun j T =>
                 0 <= j <= 8 /\ shown (plots (row_cells nb r sc 0 j) dc) u T)
              (c_draw_pixel nb r sc) 8 0 U) as (U' & E & _ & HU').
  - split; [lia|done].
  - intros j T Hj [_ HT].
    destruct (c_draw_pixel_shown nb r sc j _ u T HT) as (T' & E' & HT');
      [done|lia|].
    exists T'. split; [done|]. split; [lia|].
    unfold row_cells. rewrite seqZ_snoc by lia.
    by rewrite fmap_app, plots_app.
  - by exists U'.
Qed.

(** One row, when its sprite byte is none of the bytes the draw writes:
    the byte read is the one the union held before the draw. *)
Lemma c_draw_row_shown sr sc row dc (u U : list Z) :
  shown dc u U -> Z.of_nat (length u) = 4096 -> all_u8 u ->
  0 <= row -> word_at u OFF_I + row < 4096 ->
  drw_writes (word_at u OFF_I + row) = false ->
  exists U',
    c_draw_row sr sc row U = Some U' /\
    shown (plots (sprite_row (as_Chip8 u) sr sc row) dc) u U'.
Proof.
  intros Hs Hl Hu8 Hrow Hi Hw. apply drw_writes_false in Hw.
  pose proof (word_at_u16 u OFF_I Hu8) as HI. unfold is_u16 in HI.
  pose proof Hs as (HlU & _ & _ & _ & Hrest).
  unfold c_draw_row. unfold OFF_I, OFF_V, OFF_display in *.
  rewrite rd16_word_at by lia.
  rewrite (word_at_ext u U) by (apply Hrest; lia).
  cbn [mbind option_bind].
  rewrite Hrest by lia. rewrite byte_at_rd by lia. cbn [mbind option_bind].
  pose proof (Z.mod_pos_bound (sr + row) 32).
  destruct (c_inner_loop_shown (byte_at u (word_at u 102 + row))
              ((sr + row) mod 32) sc dc u U) as (U' & E & HU');
    [done|lia|].
  exists U'. split; [done|]. exact HU'.
Qed.

Lemma c_outer_loop_shown sr sc n dc (u U : list Z) :
  shown dc u U -> Z.of_nat (length u) = 4096 -> all_u8 u ->
  0 <= n -> word_at u OFF_I + n <= 4096 ->
  (forall row, 0 <= row < n -> drw_writes (word_at u OFF_I + row) = false) ->
  exists U',
    for_loop (Z.to_nat n) 0 (c_draw_row sr sc) U = Some U' /\
    shown (plots (sprite_cells (as_Chip8 u) sr sc 0 n) dc) u U'.
Proof.
  intros Hs Hl Hu8 Hn HI Hw.
  destruct (for_loop_inv
              (fun j T =>
                 0 <= j <= n /\
                 shown (plots (sprite_cells (as_Chip8 u) sr sc 0 j) dc) u T)
              (c_draw_row sr sc) (Z.to_nat n) 0 U) as (U' & E & _ & HU').
  - split; [lia|done].
  - intros j T Hj [_ HT].
    destruct (c_draw_row_shown sr sc j _ u T HT) as (T' & E' & HT');
      [done|done|lia|lia|apply Hw; lia|].
    exists T'. split; [done|]. split; [lia|].
    unfold sprite_cells. rewrite seqZ_snoc by lia.
    by rewrite bind_app, bind_singleton, plots_app.
  - exists U'. split; [done|].
    by replace (0 + Z.of_nat (Z.to_nat n)) with n in HU' by lia.
Qed.

(** ** The branch and the timers *)

(** The branch: the display and the flag are those of [main.cc]; besides
    them it writes [draw_flag] and [PC]. *)
Lemma c_exec_drw_eq x y n (u : list Z) :
  Z.of_nat (length u) = 4096 -> all_u8 u ->
  0 <= x < 16 -> 0 <= y < 16 -> 0 <= n ->
  let s := as_Chip8 u in
  I s + n <= 4096 ->
  (forall row, 0 <= row < n -> drw_writes (I s + row) = false) ->
  let dc :=
    plots (sprite_cells s (reg (with_V 0xF 0 s) y) (reg (with_V 0xF 0 s) x)
             0 n) (display s, false) in
  exists U,
    c_exec_drw x y n u = Some U /\
    Z.of_nat (length U) = 4096 /\ all_u8 U /\
    bytes_at U 136 256 = dc.1 /\
    rd U 95 = Some (b2z dc.2) /\
    rd U 392 = Some 1 /\
    word_at U 100 = u16 (word_at u 100 + 2) /\
    forall a, a <> 95 -> a <> 100 -> a <> 101 -> ~ (136 <= a <= 392) ->
      rd U a = rd u a.
Proof.
  intros Hl Hu Hx Hy Hn s HI Hw dc.
  unfold c_exec_drw, fld_wr, fld_rd.
  unfold OFF_V, OFF_PC, OFF_draw_flag.
  rewrite decide_True by lia. rewrite wr_Some by lia.
  cbn [mbind option_bind]. change (80 + 15) with 95.
  set (U0 := <[Z.to_nat 95 := 0]> u).
  assert (shown (display s, false) u U0) as Hs0.
  { unfold shown, U0, OFF_V, OFF_display. cbn [fst snd].
    split; [by rewrite length_insert|].
    split; [apply all_u8_insert; [done|unfold is_u8; lia]|].
    split; [by rewrite bytes_at_insert_out by lia|].
    split; [by rewrite rd_insert_eq by lia|].
    intros a Ha _.
    destruct (decide (0 <= a)) as [Ha0|Ha0];
      [|unfold rd; by rewrite !decide_False].
    by rewrite rd_insert_ne by lia. }
  assert (forall k, 0 <= k < 16 ->
            rd U0 (80 + k) = Some (reg (with_V 15 0 s) k)) as Hreg.
  { intros k Hk. rewrite <- (rd_bytes_at U0 80 16) by lia.
    unfold U0. change 95 with (80 + 15).
    rewrite (bytes_at_insert_in u 80 16 15 0) by lia.
    unfold reg, with_V. cbn [V set_V s as_Chip8]. unfold OFF_V.
    destruct (rd_is_Some (<[Z.to_nat 15 := 0]> (bytes_at u 80 16)) k)
      as [v Hv]; [rewrite length_insert, length_bytes_at; lia|].
    by rewrite Hv. }
  rewrite decide_True by done. rewrite Hreg by done.
  cbn [mbind option_bind].
  rewrite decide_True by done. rewrite Hreg by done.
  cbn [mbind option_bind].
  destruct (c_outer_loop_shown (reg (with_V 15 0 s) y)
              (reg (with_V 15 0 s) x) n _ u U0 Hs0)
    as (U1 & E1 & HlU1 & Hu8U1 & Hd1 & Hvf1 & Hrest1); [done..|].
  rewrite E1. cbn [mbind option_bind].
  unfold OFF_V, OFF_display in *.
  rewrite wr_Some by lia. cbn [mbind option_bind].
  rewrite rd16_word_at by (rewrite ?length_insert; lia).
  rewrite (word_at_ext u) by (rewrite rd_insert_ne by lia; apply Hrest1; lia).
  cbn [mbind option_bind].
  pose proof (u16_range (word_at u 100 + 2)) as Hz. unfold is_u16 in Hz.
  set (z := u16 (word_at u 100 + 2)) in *.
  unfold wr16. rewrite wr_Some by (rewrite ?length_insert; lia).
  cbn [mbind option_bind].
  rewrite wr_Some by (rewrite ?length_insert; lia).
  eexists. split; [reflexivity|].
  pose proof (Z.mod_pos_bound z 256 ltac:(lia)) as Hlo.
  assert (0 <= z / 256 < 256) as Hhi.
  { split; [apply Z.div_pos; lia|apply Z.div_lt_upper_bound; lia]. }
  split; [by rewrite !length_insert|].
  split.
  { repeat apply all_u8_insert; try done; unfold is_u8; lia. }
  split.
  { change (100 + 1) with 101.
    rewrite !bytes_at_insert_out by lia. exact Hd1. }
  split.
  { change (100 + 1) with 101.
    rewrite !rd_insert_ne by lia. exact Hvf1. }
  split.
  { change (100 + 1) with 101.
    rewrite !rd_insert_ne by lia. by rewrite rd_insert_eq by lia. }
  split.
  { unfold word_at, byte_at. change (100 + 1) with 101.
    rewrite rd_insert_ne by lia.
    rewrite rd_insert_eq by (rewrite ?length_insert; lia).
    rewrite rd_insert_eq by (rewrite ?length_insert; lia).
    cbn [default from_option id]. pose proof (Z.div_mod z 256). lia. }
  intros a Ha1 Ha2 Ha3 Ha4. change (100 + 1) with 101.
  destruct (decide (0 <= a)) as [Ha0|Ha0];
    [|unfold rd; by rewrite !decide_False].
  rewrite !rd_insert_ne by lia. apply Hrest1; lia.
Qed.

Lemma c_update_timers_eq (U : list Z) :
  Z.of_nat (length U) = 4096 -> all_u8 U ->
  exists U',
    c_update_timers U = Some U' /\
    Z.of_nat (length U') = 4096 /\ all_u8 U' /\
    rd U' 96 = Some (tick (byte_at U 96)) /\
    rd U' 97 = Some (tick (byte_at U 97)) /\
    forall a, a <> 96 -> a <> 97 -> rd U' a = rd U a.
Proof.
  intros Hl Hu. unfold c_update_timers, OFF_DT, OFF_ST, tick.
  pose proof (byte_at_u8 U 96 Hu) as Hdt.
  pose proof (byte_at_u8 U 97 Hu) as Hst. unfold is_u8 in *.
  rewrite byte_at_rd by lia. cbn [mbind option_bind].
  assert (forall (T : list Z) a b, 0 <= a -> a <> b ->
            forall v, rd (<[Z.to_nat a := v]> T) b = rd T b) as Hne.
  { intros T a b Ha Hab v.
    destruct (decide (0 <= b)) as [Hb|Hb];
      [|unfold rd; by rewrite !decide_False].
    by rewrite rd_insert_ne by lia. }
  destruct (0 <? byte_at U 96) eqn:Edt.
  - apply Z.ltb_lt in Edt. rewrite wr_Some by lia.
    cbn [mbind option_bind]. rewrite Hne by lia.
    rewrite byte_at_rd by lia. cbn [mbind option_bind].
    rewrite u8_id by (unfold is_u8; lia).
    destruct (0 <? byte_at U 97) eqn:Est.
    + apply Z.ltb_lt in Est. rewrite wr_Some by (rewrite ?length_insert; lia).
      rewrite u8_id by (unfold is_u8; lia).
      eexists. split; [reflexivity|].
      split; [by rewrite !length_insert|].
      split; [repeat apply all_u8_insert; try done; unfold is_u8; lia|].
      split; [rewrite Hne by lia; by rewrite rd_insert_eq by lia|].
      split; [by rewrite rd_insert_eq by (rewrite ?length_insert; lia)|].
      intros a Ha1 Ha2. by rewrite !Hne by lia.
    + eexists. split; [reflexivity|].
      split; [by rewrite !length_insert|].
      split; [repeat apply all_u8_insert; try done; unfold is_u8; lia|].
      split; [by rewrite rd_insert_eq by lia|].
      split; [rewrite Hne by lia; by rewrite byte_at_rd by lia|].
      intros a Ha1 Ha2. by rewrite !Hne by lia.
  - cbn [mbind option_bind]. rewrite byte_at_rd by lia.
    cbn [mbind option_bind].
    destruct (0 <? byte_at U 97) eqn:Est.
    + apply Z.ltb_lt in Est. rewrite wr_Some by lia.
      rewrite u8_id by (unfold is_u8; lia).
      eexists. split; [reflexivity|].
      split; [by rewrite !length_insert|].
      split; [repeat apply all_u8_insert; try done; unfold is_u8; lia|].
      split; [rewrite Hne by lia; by rewrite byte_at_rd by lia|].
      split; [by rewrite rd_insert_eq by lia|].
      intros a Ha1 Ha2. by rewrite !Hne by lia.
    + eexists. split; [reflexivity|].
      split; [done|]. split; [done|].
      split; [by rewrite byte_at_rd by lia|].
      split; [by rewrite byte_at_rd by lia|]. done.
Qed.

(** ** The cycle of [main.c] and the cycle of [main.cc] *)

Lemma Chip8_ext (s t : Chip8) :
  V s = V t -> DT s = DT t -> ST s = ST t -> SP s = SP t -> I s = I t ->
  stack s = stack t -> keys s = keys t -> memory s = memory t ->
  PC s = PC t -> display s = display t -> draw s = draw t -> s = t.
Proof. destruct s, t. cbn. by intros -> -> -> -> -> -> -> -> -> -> ->. Qed.

(** On a union whose sprite bytes are none of the bytes the cycle writes,
    [chip8_t_emulate_cycle] of [main.c] does to the members what
    [Chip8::executeCycle] does to the data members of the class. *)
Lemma emulate_cycle_drw_eq (u : list Z) (w : Z) :
  Z.of_nat (length u) = 4096 -> all_u8 u ->
  c_fetch u = Some w -> op_of w = 0xD ->
  let s := as_Chip8 u in
  I s + n_of w <= 4096 ->
  (forall row, 0 <= row < n_of w -> drw_writes (I s + row) = false) ->
  exists u1,
    emulate_cycle_drw u = Some u1 /\
    Z.of_nat (length u1) = 4096 /\ all_u8 u1 /\
    as_Chip8 u1 = set_memory u1 (drawn s w) /\
    forall a, drw_writes a = false -> rd u1 a = rd u a.
Proof.
  intros Hl Hu Hf _ s HI Hw.
  pose proof (as_Chip8_wf u Hl Hu) as Hwf. fold s in Hwf.
  pose proof (x_of_range w). pose proof (y_of_range w).
  pose proof (n_of_range w).
  destruct (c_exec_drw_eq (x_of w) (y_of w) (n_of w) u)
    as (U & EU & HlU & Hu8U & HdU & HvfU & HflU & HpcU & HrestU);
    [done|done|lia|lia|lia|done|done|].
  fold s in HdU, HvfU.
  fold (start_col s w) (start_row s w) in HdU, HvfU.
  fold (drawn_cells s w) in HdU, HvfU.
  set (dc := plots (drawn_cells s w) (display s, false)) in *.
  destruct (c_update_timers_eq U HlU Hu8U)
    as (u1 & E1 & Hl1 & Hu81 & Hdt1 & Hst1 & Hrest1).
  exists u1. unfold emulate_cycle_drw. rewrite Hf. cbn [mbind option_bind].
  rewrite EU. cbn [mbind option_bind].
  split; [done|]. split; [done|]. split; [done|].
  assert (forall a, drw_writes a = false -> rd u1 a = rd u a) as Hout.
  { intros a Ha%drw_writes_false. rewrite Hrest1 by lia.
    apply HrestU; lia. }
  split; [|done].
  assert (forall a, drw_writes a = false -> byte_at u1 a = byte_at u a)
    as Hbyte.
  { intros a Ha. apply byte_at_ext. by apply Hout. }
  assert (forall a, drw_writes a = false -> drw_writes (a + 1) = false ->
            word_at u1 a = word_at u a) as Hword.
  { intros a Ha Ha1. apply word_at_ext; by apply Hout. }
  unfold drawn. fold dc.
  apply Chip8_ext; cbn [as_Chip8 set_memory V DT ST SP I stack keys memory PC
                        display draw];
    rewrite ?V_update_timers, ?SP_update_timers, ?I_update_timers,
      ?stack_update_timers, ?keys_update_timers, ?PC_update_timers,
      ?display_update_timers, ?draw_update_timers;
    cbn [advance set_PC set_draw painted with_V set_V set_display
         V DT ST SP I stack keys memory PC display draw s as_Chip8].
  - apply bytes_at_eq; unfold OFF_V; [lia| |lia|].
    { rewrite length_insert. apply length_bytes_at; lia. }
    intros k Hk. destruct (decide (k = 15)) as [->|Hne].
    + rewrite rd_insert_eq by (rewrite length_bytes_at; lia).
      change (80 + 15) with 95. rewrite Hrest1 by lia. exact HvfU.
    + rewrite rd_insert_ne by lia. rewrite rd_bytes_at by lia.
      apply Hout. apply drw_writes_false. lia.
  - rewrite update_timers_DT by (cbn; by apply byte_at_u8).
    cbn [advance set_PC set_draw painted with_V set_V set_display DT].
    change (DT s) with (byte_at u 96). unfold OFF_DT, byte_at at 1.
    rewrite Hdt1. cbn [default from_option id].
    f_equal. apply byte_at_ext. apply HrestU; lia.
  - rewrite update_timers_ST by (cbn; by apply byte_at_u8).
    cbn [advance set_PC set_draw painted with_V set_V set_display ST].
    change (ST s) with (byte_at u 97). unfold OFF_ST, byte_at at 1.
    rewrite Hst1. cbn [default from_option id].
    f_equal. apply byte_at_ext. apply HrestU; lia.
  - by apply Hbyte.
  - by apply Hword.
  - apply list_fmap_ext. intros i k [-> Hi]%lookup_seqZ.
    unfold OFF_stack. apply Hword; apply drw_writes_false; lia.
  - f_equal. apply bytes_at_eq; unfold OFF_keys; [lia| |lia|].
    { apply length_bytes_at; lia. }
    intros k Hk. rewrite rd_bytes_at by lia. apply Hout.
    apply drw_writes_false. lia.
  - done.
  - unfold OFF_PC. rewrite <- HpcU. apply word_at_ext; apply Hrest1; lia.
  - rewrite <- HdU. apply bytes_at_eq; unfold OFF_display; [lia| |lia|].
    { apply length_bytes_at; lia. }
    intros k Hk. rewrite rd_bytes_at by lia. apply Hrest1; lia.
  - unfold OFF_draw_flag, byte_at. rewrite Hrest1 by lia. by rewrite HflU.
Qed.

(** ** The same sprite twice *)

Lemma set_memory_fields (a t : Chip8) (m : list Z) :
  a = set_memory m t ->
  V a = V t /\ I a = I t /\ display a = display t /\ memory a = m.
Proof. by intros ->. Qed.

Lemma same_sprite_ext (s t a : Chip8) (w : Z) :
  V a = V t -> I a = I t ->
  (forall row, 0 <= row < n_of w -> sprite_byte a row = sprite_byte s row) ->
  same_sprite s t w -> same_sprite s a w.
Proof.
  intros HV HI Hb (Hc & Hr & HIt & _).
  unfold same_sprite, start_col, start_row, reg, with_V in *.
  cbn [V set_V] in *. rewrite HV, HI. by split_and!.
Qed.

Lemma drawn_twice_ext (s s1 s2 t2 : Chip8) (w : Z) :
  V s2 = V t2 -> display s2 = display t2 ->
  drawn_twice s s1 t2 w -> drawn_twice s s1 s2 w.
Proof.
  intros HV Hd. unfold drawn_twice, reg. by rewrite HV, Hd.
Qed.

(** The two draws of [main.c], when none of the sprite bytes is a byte the
    cycle writes. *)
Lemma emulate_cycle_drawn_twice (u : list Z) (w : Z) :
  Z.of_nat (length u) = 4096 -> all_u8 u ->
  c_fetch u = Some w -> op_of w = 0xD ->
  I (as_Chip8 u) + n_of w <= 4096 ->
  (forall row, 0 <= row < n_of w ->
     drw_writes (I (as_Chip8 u) + row) = false) ->
  exists u1,
    emulate_cycle_drw u = Some u1 /\
    (c_fetch u1 = Some w ->
     exists u2,
       emulate_cycle_drw u1 = Some u2 /\
       drawn_twice (as_Chip8 u) (as_Chip8 u1) (as_Chip8 u2) w).
Proof.
  intros Hl Hu Hf Hop HI Hw.
  destruct (emulate_cycle_drw_eq u w Hl Hu Hf Hop HI Hw)
    as (u1 & E1 & Hl1 & Hu1 & Hs1 & Hout1).
  exists u1. split; [done|]. intros Hf1.
  pose proof (as_Chip8_wf u Hl Hu) as Hwf.
  pose proof (as_Chip8_wf u1 Hl1 Hu1) as Hwf1.
  assert (memory (as_Chip8 u) = u) as Hmem by done.
  set (s := as_Chip8 u) in *. clearbody s.
  apply set_memory_fields in Hs1 as (HV1 & HI1 & Hd1 & Hm1).
  assert (same_sprite s (as_Chip8 u1) w) as Hsame.
  { apply (same_sprite_ext s (drawn s w)); [done|done| |].
    - intros row Hrow. unfold sprite_byte. rewrite HI1, Hm1.
      destruct (drawn_same_sprite s w) as (_ & _ & -> & _). rewrite Hmem.
      by rewrite Hout1 by (by apply Hw).
    - apply drawn_same_sprite. }
  assert (I (as_Chip8 u1) = I s) as HIu1
    by (by destruct Hsame as (_ & _ & ? & _)).
  destruct (emulate_cycle_drw_eq u1 w Hl1 Hu1 Hf1 Hop)
    as (u2 & E2 & Hl2 & Hu2 & Hs2 & _).
  { by rewrite HIu1. }
  { intros row Hrow. rewrite HIu1. by apply Hw. }
  exists u2. split; [done|].
  apply set_memory_fields in Hs2 as (HV2 & _ & Hd2 & _).
  apply (drawn_twice_ext s _ _ (drawn (as_Chip8 u1) w)); [done|done|].
  apply redrawn; try done. unfold reg. by rewrite HV1.
Qed.

(** C5, amended: the same Dxyn executed twice in succession gives the
    display back, and the second draw reports a collision exactly when a
    set sprite bit lay on a pixel that was off before the first draw; so
    after a first draw without collision the second reports one as soon as
    the sprite has a set bit.  On the separate arrays of [main.cc] this
    holds of every machine whose sprite bytes are addressable.  On the
    union of [main.c] it holds when, besides, none of the sprite bytes is
    one of the bytes the cycle itself writes ([drw_writes]). *)
Theorem draw_twice_restores :
  (forall (rnd : Z) (s : Chip8) (w : Z),
     wf s -> fetch s = Some w -> op_of w = 0xD ->
     I s + n_of w <= 4096 ->
     exists s1,
       executeCycle rnd s = Some s1 /\
       (fetch s1 = Some w ->
        exists s2,
          executeCycle rnd s1 = Some s2 /\ drawn_twice s s1 s2 w)) /\
  (forall (u : chip8_t) (w : Z),
     Z.of_nat (length u) = 4096 -> all_u8 u ->
     c_fetch u = Some w -> op_of w = 0xD ->
     I (as_Chip8 u) + n_of w <= 4096 ->
     (forall row, 0 <= row < n_of w ->
        drw_writes (I (as_Chip8 u) + row) = false) ->
     exists u1,
       emulate_cycle_drw u = Some u1 /\
       (c_fetch u1 = Some w ->
        exists u2,
          emulate_cycle_drw u1 = Some u2 /\
          drawn_twice (as_Chip8 u) (as_Chip8 u1) (as_Chip8 u2) w)).
Proof.
  split.
  - apply executeCycle_drawn_twice.
  - apply emulate_cycle_drawn_twice.
Qed.

(** C5, amended, on the glyph of 0 drawn twice on a blank display, by
    [main.cc] and by [main.c]. *)
Lemma draw_twice_restores_witness :
  (exists s1 s2,
     executeCycle 0 blank_twice = Some s1 /\ fetch s1 = Some 0xD005 /\
     executeCycle 0 s1 = Some s2 /\
     drawn_twice blank_twice s1 s2 0xD005) /\
  (exists u1 u2,
     emulate_cycle_drw glyph_union = Some u1 /\ c_fetch u1 = Some 0xD005 /\
     emulate_cycle_drw u1 = Some u2 /\
     drawn_twice (as_Chip8 glyph_union) (as_Chip8 u1) (as_Chip8 u2) 0xD005).
Proof.
  destruct draw_twice_restores as [Hcc Hc]. split.
  - assert (exists t,
              executeCycle 0 blank_twice = Some t /\ fetch t = Some 0xD005)
      as (t & Et & Hft)
      by (eexists; split; [vm_compute; reflexivity|vm_compute; reflexivity]).
    destruct (Hcc 0 blank_twice 0xD005) as (s1 & E1 & H).
    + apply wfb_wf. vm_compute. reflexivity.
    + vm_compute. reflexivity.
    + vm_compute. reflexivity.
    + vm_compute. discriminate.
    + rewrite Et in E1. injection E1 as <-.
      destruct (H Hft) as (s2 & E2 & Hrest).
      exists t, s2. split; [exact Et|]. split; [exact Hft|].
      split; [exact E2|exact Hrest].
  - assert (exists t,
              emulate_cycle_drw glyph_union = Some t /\
              c_fetch t = Some 0xD005)
      as (t & Et & Hft)
      by (eexists; split; [vm_compute; reflexivity|vm_compute; reflexivity]).
    assert (I (as_Chip8 glyph_union) = 0) as HI by (vm_compute; reflexivity).
    destruct (Hc glyph_union 0xD005) as (u1 & E1 & H).
    + vm_compute. reflexivity.
    + apply (bool_decide_unpack _). vm_compute. constructor.
    + vm_compute. reflexivity.
    + vm_compute. reflexivity.
    + vm_compute. discriminate.
    + intros row Hrow. change (n_of 0xD005) with 5 in Hrow. rewrite HI.
      cbn [Z.add].
      assert (row = 0 \/ row = 1 \/ row = 2 \/ row = 3 \/ row = 4)
        as [->|[->|[->|[->| ->]]]] by lia; vm_compute; reflexivity.
    + rewrite Et in E1. injection E1 as <-.
      destruct (H Hft) as (u2 & E2 & Hrest).
      exists t, u2. split; [exact Et|]. split; [exact Hft|].
      split; [exact E2|exact Hrest].
Defined.

(** Without that proviso the draw of [main.c] can rewrite its own sprite.  On
    [overlap] the first draw of [main.c] reads the byte [0xFF] of the
    display as its sprite and clears it; the second reads 0 and draws
    nothing, so the display does not come back.  On the separate arrays of
    [main.cc] the same two draws give the display back. *)
Example union_overlap_not_restored :
  exists u1 u2 s1 s2,
    c_fetch overlap = Some 0xD001 /\
    emulate_cycle_drw overlap = Some u1 /\ c_fetch u1 = Some 0xD001 /\
    emulate_cycle_drw u1 = Some u2 /\
    rd (display (as_Chip8 overlap)) 0 = Some 0xFF /\
    rd (display (as_Chip8 u1)) 0 = Some 0 /\
    rd (display (as_Chip8 u2)) 0 = Some 0 /\
    executeCycle 0 (as_Chip8 overlap) = Some s1 /\
    executeCycle 0 s1 = Some s2 /\
    display s2 = display (as_Chip8 overlap).
Proof.
  do 4 eexists. split; [vm_compute; reflexivity|].
  split; [vm_compute; reflexivity|].
  split; [vm_compute; reflexivity|]. split; [vm_compute; reflexivity|].
  split; [vm_compute; reflexivity|]. split; [vm_compute; reflexivity|].
  split; [vm_compute; reflexivity|]. split; [vm_compute; reflexivity|].
  split; [vm_compute; reflexivity|]. vm_compute. reflexivity.
Qed.

(** The bytes of the sprite can even be the same before both draws and
    the display still not come back: on [flag_row] the second row of the
    sprite is [V[0xF]], which is 0 when the first draw reads it and 1, the
    collision of the row above, when the second draw does. *)
Example union_flag_row_not_restored :
  exists u1 u2,
    c_fetch flag_row = Some 0xD002 /\
    emulate_cycle_drw flag_row = Some u1 /\ c_fetch u1 = Some 0xD002 /\
    emulate_cycle_drw u1 = Some u2 /\
    same_sprite (as_Chip8 flag_row) (as_Chip8 u1) 0xD002 /\
    rd (display (as_Chip8 flag_row)) 8 = Some 0 /\
    rd (display (as_Chip8 u2)) 8 = Some 1.
Proof.
  do 2 eexists. split; [vm_compute; reflexivity|].
  split; [vm_compute; reflexivity|].
  split; [vm_compute; reflexivity|]. split; [vm_compute; reflexivity|].
  split; [|split; vm_compute; reflexivity].
  split; [vm_compute; reflexivity|]. split; [vm_compute; reflexivity|].
  split; [vm_compute; reflexivity|].
  intros row Hrow. change (n_of 0xD002) with 2 in Hrow.
  assert (row = 0 \/ row = 1) as [->| ->] by lia; vm_compute; reflexivity.
Qed.
